(** * time-slots-finder: a shallow embedding of the slot search

    The development follows [src/time-slots-dayjs.ts] (the dayjs-backed
    implementation) and its luxon-backed sibling.  Both are embedded
    function by function, under the names the source uses.

    Modelling conventions.
    - A JavaScript number that holds minutes, days, a year or an epoch
      value is a [Z]; fractional minutes are not modelled.
    - An optional field ([x?: number]) is an [option]; the source tests
      them with [== null], [??] (both: absent) or by truthiness (absent or 0).
    - An instant is its epoch value in milliseconds.  A [Dayjs] / luxon
      [DateTime] object is that value together with the UTC offset of the
      zone it is displayed in.  Zones are fixed-offset zones: daylight
      saving transitions are outside the model.
    - The process zone (the zone of a bare [dayjs()] or [DateTime.local()])
      is UTC, as the test-suite sets it.
    - The system clock is an explicit stream of readings; every [dayjs()] /
      [DateTime.local()] consumes one reading.
    - [throw] is an outcome of the computation; loops carry fuel and
      report its exhaustion as a third outcome. *)

From Stdlib Require Import ZArith List String Ascii Bool Lia Arith Sorted DecimalString.
From Stdlib Require Import Structures.OrderedTypeEx.
Import ListNotations.
Open Scope string_scope.
Open Scope list_scope.
Open Scope Z_scope.

(** ** Data model (the exported interfaces of both source files) *)

Record PeriodMoment := mkPeriodMoment {
  year : option Z;
  month : Z;
  day : Z;
  hour : option Z;
  minute : option Z
}.

Record Period := mkPeriod {
  startAt : PeriodMoment;
  endAt : PeriodMoment
}.

Record Shift := mkShift {
  startTime : string;
  endTime : string
}.

Record AvailablePeriod := mkAvailablePeriod {
  isoWeekDay : Z;
  shifts : list Shift
}.

(** The numbers of a configuration are whole numbers (of minutes, of
    days, of the week). *)
Record TimeSlotsFinderConfiguration := mkConfiguration {
  timeSlotDuration : Z;
  availablePeriods : list AvailablePeriod;
  slotStartMinuteStep : option Z;
  unavailablePeriods : option (list Period);
  minAvailableTimeBeforeSlot : option Z;
  minAvailableTimeAfterSlot : option Z;
  minTimeBeforeFirstSlot : option Z;
  maxDaysBeforeLastSlot : option Z;
  timeZone : string
}.

(** A date-time object of either library: epoch milliseconds and the UTC
    offset (minutes east) of its zone. *)
Record Dayjs := mkDayjs {
  valueOf : Z;
  utcOffset : Z
}.

(** [DayjsPeriod] / [LuxonPeriod]. *)
Record DayjsPeriod := mkEvent {
  evStartAt : Dayjs;
  evEndAt : Dayjs
}.

(** [TimeSlot]: [startAt] and [endAt] are plain [Date]s (epoch values) in
    the dayjs file and [DateTime]s in the luxon file; the epoch value is
    what both are compared by. *)
Record TimeSlot := mkTimeSlot {
  slotStartAt : Z;
  slotEndAt : Z;
  duration : Z
}.

(** A caller-supplied [Date] / [DateTime]: absent ([null] or [undefined]),
    invalid (its time value is NaN), or a proper instant. *)
Inductive JsDate :=
| DateNull
| DateInvalid
| DateAt (ms : Z).

Record TimeSlotsFinderParameters := mkParams {
  configuration : TimeSlotsFinderConfiguration;
  from : JsDate;
  to : JsDate
}.

(** ** JavaScript primitives *)

(** [a ?? d] *)
Definition orElse (a : option Z) (d : Z) : Z :=
  match a with Some v => v | None => d end.

(** Truthiness of an optional number: absent and 0 are falsy. *)
Definition truthy (a : option Z) : bool :=
  match a with Some v => negb (v =? 0) | None => false end.

(** [a.localeCompare(b)]: negative, zero or positive.  Modelled as the
    code-unit lexicographic order, which is what every locale gives on the
    digit-and-colon strings of a shift. *)
Definition localeCompare (a b : string) : Z :=
  match String.compare a b with
  | Lt => -1
  | Eq => 0
  | Gt => 1
  end.

Definition isDigit (c : ascii) : bool :=
  let n := N_of_ascii c in ((48 <=? n) && (n <=? 57))%N.

Definition digitValue (c : ascii) : Z := Z.of_N (N_of_ascii c) - 48.

(** [/^\d{2}:\d{2}$/] *)
Definition matchesHHmm (s : string) : bool :=
  match s with
  | String a (String b (String c (String d (String e EmptyString)))) =>
      isDigit a && isDigit b && (N_of_ascii c =? 58)%N && isDigit d && isDigit e
  | _ => false
  end.

Fixpoint parseDigits (s : string) (acc : Z) : Z :=
  match s with
  | String c s' => if isDigit c then parseDigits s' (acc * 10 + digitValue c) else acc
  | EmptyString => acc
  end.

(** [parseInt(s, 10)] on a string without sign or leading blank: the value
    of its longest prefix of digits, [None] (NaN) when there is none. *)
Definition parseInt (s : string) : option Z :=
  match s with
  | String c _ => if isDigit c then Some (parseDigits s 0) else None
  | EmptyString => None
  end.

(** [s.slice(i)] and [s.slice(0, 2)] *)
Definition slice_from (i : nat) (s : string) : string :=
  String.substring i (String.length s - i) s.
Definition slice_0_2 (s : string) : string := String.substring 0 2 s.

(** Array primitives used by the merge loop. *)
Fixpoint setAt {A} (i : nat) (x : A) (l : list A) : list A :=
  match l, i with
  | [], _ => []
  | _ :: l', O => x :: l'
  | y :: l', S i' => y :: setAt i' x l'
  end.

(** [l.splice(i, 1)] *)
Fixpoint splice1 {A} (i : nat) (l : list A) : list A :=
  match l, i with
  | [], _ => []
  | _ :: l', O => l'
  | y :: l', S i' => y :: splice1 i' l'
  end.

(** ** ShiftMerger (the same text in both source files) *)

(** [[...shifts].sort((a, b) => a.startTime.localeCompare(b.startTime))]:
    [Array.prototype.sort] is stable; a stable insertion sort. *)
Fixpoint insertShift (x : Shift) (l : list Shift) : list Shift :=
  match l with
  | [] => [x]
  | y :: l' =>
      if localeCompare (startTime y) (startTime x) <? 0
      then y :: insertShift x l'
      else x :: y :: l'
  end.

Fixpoint sortShifts (l : list Shift) : list Shift :=
  match l with
  | [] => []
  | x :: l' => insertShift x (sortShifts l')
  end.

(** The [for] loop on the state [(i, sortedShifts)].  Every iteration
    either removes one element or advances [i], so [length sortedShifts]
    iterations are enough. *)
Fixpoint mergeLoop (fuel : nat) (i : nat) (sortedShifts : list Shift) : list Shift :=
  match fuel with
  | O => sortedShifts
  | S fuel' =>
      if (i + 1 <? List.length sortedShifts)%nat then
        match nth_error sortedShifts i, nth_error sortedShifts (i + 1) with
        | Some cur, Some nxt =>
            if 0 <=? localeCompare (endTime cur) (startTime nxt) then
              let extended :=
                if localeCompare (endTime cur) (endTime nxt) <? 0
                then setAt i (mkShift (startTime cur) (endTime nxt)) sortedShifts
                else sortedShifts in
              mergeLoop fuel' i (splice1 (i + 1) extended)
            else mergeLoop fuel' (i + 1) sortedShifts
        | _, _ => sortedShifts
        end
      else sortedShifts
  end.

Definition _mergeOverlappingShifts (shifts : list Shift) : list Shift :=
  if (List.length shifts <? 2)%nat then shifts
  else
    let sortedShifts := sortShifts shifts in
    mergeLoop (List.length sortedShifts) 0 sortedShifts.

Definition _mergeOverlappingShiftsInAvailablePeriods
    (availablePeriods : list AvailablePeriod) : list AvailablePeriod :=
  map (fun availablePeriod =>
         mkAvailablePeriod (isoWeekDay availablePeriod)
                           (_mergeOverlappingShifts (shifts availablePeriod)))
      availablePeriods.

(** The loop seen as a left-to-right pass with a pending merge candidate:
    what [mergeLoop] computes from position [i] on. *)
Fixpoint mergeRun (cur : Shift) (rest : list Shift) : list Shift :=
  match rest with
  | [] => [cur]
  | nxt :: rest' =>
      if 0 <=? localeCompare (endTime cur) (startTime nxt) then
        mergeRun (if localeCompare (endTime cur) (endTime nxt) <? 0
                  then mkShift (startTime cur) (endTime nxt) else cur) rest'
      else cur :: mergeRun nxt rest'
  end.

(** The pass on a sorted list. *)
Definition mergeSorted (l : list Shift) : list Shift :=
  match l with
  | [] => []
  | x :: l' => mergeRun x l'
  end.

(** [a] starts no later than [b], in the order of the sort. *)
Definition startLe (a b : Shift) : Prop :=
  localeCompare (startTime a) (startTime b) <= 0.

(** Adjacent shifts of a merged list: ordered by start, and the earlier one
    ends strictly before the later one starts. *)
Inductive Merged : list Shift -> Prop :=
| Merged_nil : Merged []
| Merged_one x : Merged [x]
| Merged_cons x y l :
    startLe x y ->
    localeCompare (endTime x) (startTime y) < 0 ->
    Merged (y :: l) ->
    Merged (x :: y :: l).

(** ** Calendar arithmetic (proleptic Gregorian, as ECMAScript [Date]) *)

Definition msPerSecond : Z := 1000.
Definition msPerMinute : Z := 60000.
Definition msPerHour : Z := 3600000.
Definition msPerDay : Z := 86400000.

Definition isLeapYear (y : Z) : bool :=
  ((y mod 4 =? 0) && negb (y mod 100 =? 0)) || (y mod 400 =? 0).

(** Days of month [m] (0 = January .. 11 = December) of year [y]. *)
Definition daysInMonthOf (y m : Z) : Z :=
  if m =? 1 then (if isLeapYear y then 29 else 28)
  else if (m =? 3) || (m =? 5) || (m =? 8) || (m =? 10) then 30
  else 31.

(** Day number (days since 1970-01-01) of day [d] (1-based) of month [m]
    (1 = January .. 12 = December) of year [y]. *)
Definition daysFromCivil (y m d : Z) : Z :=
  let y' := if m <=? 2 then y - 1 else y in
  let era := y' / 400 in
  let yoe := y' - era * 400 in
  let doy := (153 * (if 2 <? m then m - 3 else m + 9) + 2) / 5 + d - 1 in
  let doe := yoe * 365 + yoe / 4 - yoe / 100 + doy in
  era * 146097 + doe - 719468.

(** Year, month (1..12) and day of month of a day number. *)
Definition civilFromDays (z : Z) : Z * Z * Z :=
  let z' := z + 719468 in
  let era := z' / 146097 in
  let doe := z' - era * 146097 in
  let yoe := (doe - doe / 1460 + doe / 36524 - doe / 146096) / 365 in
  let doy := doe - (365 * yoe + yoe / 4 - yoe / 100) in
  let mp := (5 * doy + 2) / 153 in
  let d := doy - (153 * mp + 2) / 5 + 1 in
  let m := if mp <? 10 then mp + 3 else mp - 9 in
  let y := yoe + era * 400 in
  ((if m <=? 2 then y + 1 else y), m, d).

(** [new Date(y, M, d, h, mi)] read in a zone at UTC offset 0: the month
    [M] is 0-based and may overflow into the years, the day may overflow
    into the months, a year from 0 to 99 means 1900 + year. *)
Definition makeDate (y M d h mi : Z) : Z :=
  let y := if (0 <=? y) && (y <=? 99) then 1900 + y else y in
  (daysFromCivil (y + M / 12) (M mod 12 + 1) 1 + (d - 1)) * msPerDay
  + h * msPerHour + mi * msPerMinute.

(** ** Date-time objects: the operations of dayjs and luxon that the
    source calls.  All of them keep the zone of the object. *)

Module Dj.

(** The wall-clock reading of the object, as an epoch value. *)
Definition localMs (d : Dayjs) : Z := valueOf d + utcOffset d * msPerMinute.

Definition withLocalMs (d : Dayjs) (l : Z) : Dayjs :=
  mkDayjs (l - utcOffset d * msPerMinute) (utcOffset d).

(** [d.add(n, "minute")], [d.plus({minutes: n})] *)
Definition add_minute (n : Z) (d : Dayjs) : Dayjs :=
  mkDayjs (valueOf d + n * msPerMinute) (utcOffset d).

(** [d.subtract(n, "minute")] *)
Definition subtract_minute (n : Z) (d : Dayjs) : Dayjs :=
  mkDayjs (valueOf d - n * msPerMinute) (utcOffset d).

(** [d.add(n, "day")], [d.plus({days: n})] *)
Definition add_day (n : Z) (d : Dayjs) : Dayjs :=
  mkDayjs (valueOf d + n * msPerDay) (utcOffset d).

(** [d.startOf("day")], [d.endOf("day")], [d.startOf("minute")], computed
    on the wall-clock reading at the offset of [d] (for instants before
    1970 the result of dayjs itself can differ). *)
Definition startOf_day (d : Dayjs) : Dayjs :=
  withLocalMs d (localMs d - localMs d mod msPerDay).
Definition endOf_day (d : Dayjs) : Dayjs :=
  withLocalMs d (localMs d - localMs d mod msPerDay + (msPerDay - 1)).
Definition startOf_minute (d : Dayjs) : Dayjs :=
  withLocalMs d (localMs d - localMs d mod msPerMinute).

(** Getters [d.hour()], [d.minute()], [d.second()], [d.millisecond()] *)
Definition hour (d : Dayjs) : Z := (localMs d mod msPerDay) / msPerHour.
Definition minute (d : Dayjs) : Z := (localMs d mod msPerHour) / msPerMinute.
Definition second (d : Dayjs) : Z := (localMs d mod msPerMinute) / msPerSecond.
Definition millisecond (d : Dayjs) : Z := localMs d mod msPerSecond.

(** Setters [d.hour(h)], [d.minute(m)], [d.millisecond(0)]; a value out
    of range carries over, as [Date.prototype.setHours] does. *)
Definition set_hour (h : Z) (d : Dayjs) : Dayjs :=
  withLocalMs d (localMs d - hour d * msPerHour + h * msPerHour).
Definition set_minute (m : Z) (d : Dayjs) : Dayjs :=
  withLocalMs d (localMs d - minute d * msPerMinute + m * msPerMinute).
Definition set_millisecond (ms : Z) (d : Dayjs) : Dayjs :=
  withLocalMs d (localMs d - millisecond d + ms).

(** [d.isoWeekday()], luxon [d.weekday]: 1 (Monday) .. 7 (Sunday);
    1970-01-01 was a Thursday. *)
Definition isoWeekday (d : Dayjs) : Z := (localMs d / msPerDay + 3) mod 7 + 1.

(** [d.year()], [d.month()] (0-based), [d.date()] *)
Definition year (d : Dayjs) : Z := fst (fst (civilFromDays (localMs d / msPerDay))).
Definition month (d : Dayjs) : Z := snd (fst (civilFromDays (localMs d / msPerDay))) - 1.
Definition date (d : Dayjs) : Z := snd (civilFromDays (localMs d / msPerDay)).

(** [d.add(n, "year")]: same month, day (clamped to the length of the
    month) and time of day in the year [n] later. *)
Definition add_year (n : Z) (d : Dayjs) : Dayjs :=
  let y := year d + n in
  let dd := Z.min (date d) (daysInMonthOf y (month d)) in
  withLocalMs d (daysFromCivil y (month d + 1) dd * msPerDay + localMs d mod msPerDay).

(** Comparisons: by epoch value. *)
Definition isBefore (a b : Dayjs) : bool := valueOf a <? valueOf b.
Definition isAfter (a b : Dayjs) : bool := valueOf b <? valueOf a.
Definition isSameOrBefore (a b : Dayjs) : bool := valueOf a <=? valueOf b.

(** [dayjs.max(a, b)] / [dayjs.min(a, b)] (plugin minMax), and luxon's
    [DateTime.max] / [DateTime.min]: the first argument unless the second
    is strictly later / earlier. *)
Definition max (a b : Dayjs) : Dayjs := if isAfter b a then b else a.
Definition min (a b : Dayjs) : Dayjs := if isBefore b a then b else a.

(** [d.toDate()] *)
Definition toDate (d : Dayjs) : Z := valueOf d.

(** [b.diff(a, "minute")]: whole minutes, truncated towards zero. *)
Definition diff_minute (b a : Dayjs) : Z := Z.quot (valueOf b - valueOf a) msPerMinute.

End Dj.

(** The zones that the model covers, with their offset in minutes east of
    UTC.  Only zones of fixed offset are listed (the last two have kept
    theirs since 1945 and 1951).  The code takes every IANA name; for a
    name outside the table the model answers as for a name that [Intl]
    does not know, so what is stated of a search in a zone is stated for
    the zones of the table. *)
Definition zoneOffset (zone : string) : option Z :=
  if String.eqb zone "UTC" then Some 0
  else if String.eqb zone "Etc/UTC" then Some 0
  else if String.eqb zone "Etc/GMT-1" then Some 60
  else if String.eqb zone "Etc/GMT-2" then Some 120
  else if String.eqb zone "Etc/GMT+5" then Some (-300)
  else if String.eqb zone "Asia/Kolkata" then Some 330
  else if String.eqb zone "Asia/Tokyo" then Some 540
  else None.

(** ** Computations: clock readings, exceptions, fuel *)

Definition Clock := nat -> Z.

Inductive Error :=
| TimeSlotsFinderError (message : string)
| RangeError (message : string)
| TypeError (message : string)
| InvalidArgumentError (message : string).

Inductive Outcome (A : Type) :=
| Returned (a : A)
| Threw (e : Error)
| OutOfFuel.
Arguments Returned {A} a.
Arguments Threw {A} e.
Arguments OutOfFuel {A}.

(** A computation receives the clock and the number of readings taken so
    far, and gives its outcome and the number of readings taken after it. *)
Definition M (A : Type) : Type := Clock -> nat -> Outcome A * nat.

Definition ret {A} (a : A) : M A := fun _ n => (Returned a, n).

Definition bind {A B} (c : M A) (k : A -> M B) : M B :=
  fun clock n =>
    match c clock n with
    | (Returned a, n') => k a clock n'
    | (Threw e, n') => (Threw e, n')
    | (OutOfFuel, n') => (OutOfFuel, n')
    end.

Definition throw {A} (e : Error) : M A := fun _ n => (Threw e, n).

Definition outOfFuel {A} : M A := fun _ n => (OutOfFuel, n).

(** [try { c } catch (_) { handler }] *)
Definition tryCatch {A} (c : M A) (handler : M A) : M A :=
  fun clock n =>
    match c clock n with
    | (Threw _, n') => handler clock n'
    | r => r
    end.

Declare Scope comp_scope.
Delimit Scope comp_scope with comp.
Notation "x <- c ;; k" := (bind c (fun x => k))
  (at level 100, c at next level, right associativity) : comp_scope.
Notation "c ;;; k" := (bind c (fun _ => k))
  (at level 100, right associativity) : comp_scope.
Open Scope comp_scope.

(** One reading of the system clock. *)
Definition readClock : M Z := fun clock n => (Returned (clock n), S n).

(** [dayjs()] / [DateTime.local()]: now, in the process zone. *)
Definition dayjs_now : M Dayjs :=
  t <- readClock ;; ret (mkDayjs t 0).

(** [d.tz(zone)] / [d.setZone(zone)] for dayjs: the same instant in
    another zone; an unknown zone is a [RangeError] of [Intl]. *)
Definition tz (zone : string) (d : Dayjs) : M Dayjs :=
  match zoneOffset zone with
  | Some o => ret (mkDayjs (valueOf d) o)
  | None => throw (RangeError ("Invalid time zone specified: " ++ zone)%string)
  end.

(** Running a computation from the first reading of a clock. *)
Definition run {A} (c : M A) (clock : Clock) : Outcome A := fst (c clock O).
Definition readings {A} (c : M A) (clock : Clock) : nat := snd (c clock O).

(** [`${n}`] for a natural number. *)
Definition showNat (n : nat) : string := NilZero.string_of_uint (Nat.to_uint n).

(** [s.split(":")] *)
Fixpoint splitColon (s : string) (cur : string) : list string :=
  match s with
  | EmptyString => [cur]
  | String c s' =>
      if (N_of_ascii c =? 58)%N then cur :: splitColon s' EmptyString
      else splitColon s' (cur ++ String c EmptyString)%string
  end.

Definition allDigits (s : string) : bool :=
  forallb isDigit (list_ascii_of_string s).

(** [Number(s)] for the parts of a shift time: a string of digits has its
    decimal value (the empty string is 0); anything else is read as NaN
    ([None]) - the other numeric syntaxes of [Number] contain a character
    that the pattern [/^\d{2}:\d{2}$/] of [_isShiftValid] refuses anyway. *)
Definition Number (s : option string) : option Z :=
  match s with
  | Some s => if allDigits s then Some (parseDigits s 0) else None
  | None => None
  end.

(** [lo <= x && x <= hi] where [x] may be NaN or undefined. *)
Definition numBetween (lo hi : Z) (x : option Z) : bool :=
  match x with Some v => (lo <=? v) && (v <=? hi) | None => false end.

(** ** Validation of the weekly availabilities (the same text in both
    source files) *)

Definition _isShiftValid (shift : Shift) : bool :=
  let startParts := map Number (map Some (splitColon (startTime shift) EmptyString)) in
  let endParts := map Number (map Some (splitColon (endTime shift) EmptyString)) in
  let startHour := nth 0 startParts None in
  let startMinute := nth 1 startParts None in
  let endHour := nth 0 endParts None in
  let endMinute := nth 1 endParts None in
  matchesHHmm (startTime shift)
  && matchesHHmm (endTime shift)
  && numBetween 0 23 startHour
  && numBetween 0 59 startMinute
  && numBetween 0 23 endHour
  && numBetween 0 59 endMinute
  && (0 <? localeCompare (endTime shift) (startTime shift)).

(** The [for ... of] loop over the shifts of [_isAvailablePeriodValid]. *)
Fixpoint checkShifts (l : list Shift) (index : nat) : M unit :=
  match l with
  | [] => ret tt
  | shift :: l' =>
      if negb (_isShiftValid shift) then
        throw (TimeSlotsFinderError
          ("Daily shift " ++ startTime shift ++ " - " ++ endTime shift
           ++ " for available period nº" ++ showNat (index + 1) ++ " is invalid")%string)
      else checkShifts l' index
  end.

(** [isoWeekDay] is an integer by its type here, so the
    [Number.isInteger] test cannot fail. *)
Definition _isAvailablePeriodValid (availablePeriod : AvailablePeriod) (index : nat) : M bool :=
  if (isoWeekDay availablePeriod <? 1) || (7 <? isoWeekDay availablePeriod) then
    throw (TimeSlotsFinderError
      ("ISO Weekday must be contains between 1 (Monday) and 7 (Sunday) for available period nº"
       ++ showNat (index + 1))%string)
  else
    checkShifts (shifts availablePeriod) index ;;;
    if negb (List.length (_mergeOverlappingShifts (shifts availablePeriod))
             =? List.length (shifts availablePeriod))%nat
    then throw (TimeSlotsFinderError
      ("Some shifts are overlapping for available period nº" ++ showNat (index + 1))%string)
    else ret true.

Fixpoint checkAvailablePeriods (l : list AvailablePeriod) (i : nat) : M unit :=
  match l with
  | [] => ret tt
  | p :: l' => _isAvailablePeriodValid p i ;;; checkAvailablePeriods l' (S i)
  end.

(** ** The dayjs-backed implementation, [src/time-slots-dayjs.ts] *)

Module DayjsImpl.

Definition _nullOrGreaterThanOrEqualTo (limit : Z) (value : option Z) : bool :=
  match value with None => true | Some v => limit <=? v end.

Definition _nullOrBetween (min max : Z) (value : option Z) : bool :=
  match value with None => true | Some v => (min <=? v) && (v <=? max) end.

Definition _checkTimeZone (timeZone : string) : M unit :=
  if String.eqb timeZone EmptyString then
    throw (TimeSlotsFinderError "Missing time zone")
  else
    tryCatch (now <- dayjs_now ;; _ <- tz timeZone now ;; ret tt)
             (throw (TimeSlotsFinderError ("Invalid time zone: " ++ timeZone)%string)).

(** [minBeforeFirst / (24 * 60) > maxBeforeLast] is compared over the
    rationals: [minBeforeFirst > maxBeforeLast * 1440]. *)
Definition _checkPrimitiveValue (configuration : TimeSlotsFinderConfiguration) : M bool :=
  if timeSlotDuration configuration <? 1 then
    throw (TimeSlotsFinderError "Slot duration must be at least 1 minute")
  else if negb (_nullOrBetween 1 30 (slotStartMinuteStep configuration)) then
    throw (TimeSlotsFinderError "Slot start minute step must be contained between 1 and 30")
  else if negb (_nullOrGreaterThanOrEqualTo 0 (minAvailableTimeBeforeSlot configuration)) then
    throw (TimeSlotsFinderError "Time before a slot must be at least 0 minutes")
  else if negb (_nullOrGreaterThanOrEqualTo 0 (minAvailableTimeAfterSlot configuration)) then
    throw (TimeSlotsFinderError "Time after a slot must be at least 0 minutes")
  else if negb (_nullOrGreaterThanOrEqualTo 0 (minTimeBeforeFirstSlot configuration)) then
    throw (TimeSlotsFinderError "The number of minutes before first slot must be 0 or more")
  else if negb (_nullOrGreaterThanOrEqualTo 1 (maxDaysBeforeLastSlot configuration)) then
    throw (TimeSlotsFinderError "The number of days before latest slot must be at least 1")
  else
    _checkTimeZone (timeZone configuration) ;;;
    let minBeforeFirst := minTimeBeforeFirstSlot configuration in
    let maxBeforeLast := maxDaysBeforeLastSlot configuration in
    if truthy minBeforeFirst && truthy maxBeforeLast
       && (orElse maxBeforeLast 0 * (24 * 60) <? orElse minBeforeFirst 0)
    then throw (TimeSlotsFinderError
      "The first possible slot will always be after last one possible (see minTimeBeforeFirstSlot and maxDaysBeforeLastSlot)")
    else ret true.

Definition _isPeriodMomentValid (periodMoment : PeriodMoment) : M bool :=
  match hour periodMoment, minute periodMoment with
  | None, Some _ => ret false
  | _, _ =>
      let isYearAndMonthValid :=
        (match year periodMoment with None => true | Some y => 0 <? y end)
        && (0 <=? month periodMoment) && (month periodMoment <=? 11) in
      if negb isYearAndMonthValid then ret false
      else
        now <- dayjs_now ;;
        (* dayjs().month(m), then .year(y) when a year is given: the
           month length read is that of month m in that year *)
        let y := if truthy (year periodMoment)
                 then orElse (year periodMoment) 0 else Dj.year now in
        ret ((1 <=? day periodMoment)
             && (day periodMoment <=? daysInMonthOf y (month periodMoment))
             && (match hour periodMoment with
                 | None => true | Some h => (0 <=? h) && (h <=? 23) end)
             && (match minute periodMoment with
                 | None => true | Some m => (0 <=? m) && (m <=? 59) end))
  end.

(** [dayjs(obj)] with the objectSupport plugin: the wall-clock fields of
    [obj], completed from the current date, read in the process zone. *)
Definition dayjs_fromObject (o : PeriodMoment) : M Dayjs :=
  now <- dayjs_now ;;
  let noYear := negb (truthy (year o)) in
  let d := if negb (day o =? 0) then day o
           else if noYear && negb (0 <=? month o) then Dj.date now else 1 in
  let y := if noYear then Dj.year now else orElse (year o) 0 in
  let M := if 0 <=? month o then month o
           else if noYear && (day o =? 0) then Dj.month now else 0 in
  let h := orElse (hour o) 0 in
  let m := orElse (minute o) 0 in
  ret (mkDayjs (makeDate y M d h m) 0).

Definition _isUnavailablePeriodValid (period : Period) : M bool :=
  if negb (Bool.eqb (match year (startAt period) with None => true | _ => false end)
                    (match year (endAt period) with None => true | _ => false end))
  then ret false
  else
    okStart <- _isPeriodMomentValid (startAt period) ;;
    if negb okStart then ret false
    else
      okEnd <- _isPeriodMomentValid (endAt period) ;;
      if negb okEnd then ret false
      else
        match year (startAt period) with
        | None => ret true
        | Some _ =>
            s <- dayjs_fromObject (startAt period) ;;
            e <- dayjs_fromObject (endAt period) ;;
            ret (Dj.isBefore s e)
        end.

Fixpoint checkUnavailablePeriods (l : list Period) (i : nat) : M unit :=
  match l with
  | [] => ret tt
  | p :: l' =>
      ok <- _isUnavailablePeriodValid p ;;
      if negb ok then
        throw (TimeSlotsFinderError
          ("Unavailable period nº" ++ showNat (i + 1) ++ " is invalid")%string)
      else checkUnavailablePeriods l' (S i)
  end.

(** The configuration and its two lists are present and are lists by
    their types, so the first three [throw]s of the source are not
    reachable here. *)
Definition isConfigurationValid (configuration : TimeSlotsFinderConfiguration) : M bool :=
  _checkPrimitiveValue configuration ;;;
  checkAvailablePeriods (availablePeriods configuration) 0 ;;;
  match unavailablePeriods configuration with
  | Some l => checkUnavailablePeriods l 0
  | None => ret tt
  end ;;;
  ret true.

(** [d.getTime()], NaN for an invalid date. *)
Definition getTime (d : JsDate) : option Z :=
  match d with DateAt t => Some t | _ => None end.

(** [a > b] on numbers that may be NaN. *)
Definition numGt (a b : option Z) : bool :=
  match a, b with Some x, Some y => y <? x | _, _ => false end.

Definition _checkSearchParameters (configuration : TimeSlotsFinderConfiguration)
    (from to : JsDate) : M TimeSlotsFinderConfiguration :=
  if (match from with DateNull => true | _ => false end)
     || (match to with DateNull => true | _ => false end)
     || numGt (getTime from) (getTime to)
  then throw (TimeSlotsFinderError "Invalid boundaries for the search")
  else
    (* the merge cannot throw on a typed list of periods: the [catch]
       branch is not reachable here *)
    let formattedPeriods :=
      _mergeOverlappingShiftsInAvailablePeriods (availablePeriods configuration) in
    let usedConfig :=
      mkConfiguration (timeSlotDuration configuration) formattedPeriods
        (slotStartMinuteStep configuration) (unavailablePeriods configuration)
        (minAvailableTimeBeforeSlot configuration) (minAvailableTimeAfterSlot configuration)
        (minTimeBeforeFirstSlot configuration) (maxDaysBeforeLastSlot configuration)
        (timeZone configuration) in
    isConfigurationValid usedConfig ;;;
    ret usedConfig.

(** [dayjs(date).tz(zone)]; an invalid date gives an invalid object
    ([None]), which every comparison answers [false] to. *)
Definition dayjs_ofDate (date : JsDate) (zone : string) : M (option Dayjs) :=
  match date with
  | DateAt t => d <- tz zone (mkDayjs t 0) ;; ret (Some d)
  | _ => _ <- tz zone (mkDayjs 0 0) ;; ret None
  end.

Definition _computeBoundaries (from to : JsDate)
    (configuration : TimeSlotsFinderConfiguration) : M (option Dayjs * option Dayjs) :=
  searchLimitMoment <-
    (if truthy (maxDaysBeforeLastSlot configuration) then
       now <- dayjs_now ;;
       now <- tz (timeZone configuration) now ;;
       ret (Some (Dj.endOf_day
                    (Dj.add_day (orElse (maxDaysBeforeLastSlot configuration) 0) now)))
     else ret None) ;;
  fromMoment <- dayjs_ofDate from (timeZone configuration) ;;
  now <- dayjs_now ;;
  now <- tz (timeZone configuration) now ;;
  let earliest :=
    Dj.add_minute (orElse (minTimeBeforeFirstSlot configuration) 0)
      (Dj.add_minute (orElse (minAvailableTimeBeforeSlot configuration) 0) now) in
  let firstFromMoment :=
    match fromMoment with
    | Some f => Some (Dj.max f earliest)
    | None => None
    end in
  toMoment <- dayjs_ofDate to (timeZone configuration) ;;
  let lastToMoment :=
    match searchLimitMoment, toMoment with
    | Some limit, Some t => Some (Dj.min t limit)
    | Some _, None => None
    | None, t => t
    end in
  ret (firstFromMoment, lastToMoment).

Definition _getWeekDayConfigForMoment (configuration : TimeSlotsFinderConfiguration)
    (searchMoment : Dayjs) : option AvailablePeriod :=
  find (fun p => isoWeekDay p =? Dj.isoWeekday searchMoment)
       (availablePeriods configuration).

(** An unparsable time (NaN) makes the moment invalid: [None]. *)
Definition _getMomentsFromShift (fromMoment : Dayjs) (shift : Shift)
    : option Dayjs * option Dayjs :=
  let at_ (time : string) :=
    match parseInt (slice_0_2 time), parseInt (slice_from 3 time) with
    | Some h, Some m => Some (Dj.set_minute m (Dj.set_hour h fromMoment))
    | _, _ => None
    end in
  (at_ (startTime shift), at_ (endTime shift)).

Definition _getMinTimeWindowNeeded (configuration : TimeSlotsFinderConfiguration) : Z :=
  orElse (minAvailableTimeBeforeSlot configuration) 0
  + timeSlotDuration configuration
  + orElse (minAvailableTimeAfterSlot configuration) 0.

Definition _pushNewSlot (searchMoment : Dayjs)
    (configuration : TimeSlotsFinderConfiguration) : Dayjs * TimeSlot :=
  let startAt :=
    Dj.add_minute (orElse (minAvailableTimeBeforeSlot configuration) 0) searchMoment in
  let endAt := Dj.add_minute (timeSlotDuration configuration) startAt in
  let timeSlot :=
    mkTimeSlot (Dj.toDate startAt) (Dj.toDate endAt) (Dj.diff_minute endAt startAt) in
  let minutesBeforeNextSearch :=
    Z.max (orElse (minAvailableTimeAfterSlot configuration) 0
           - orElse (minAvailableTimeBeforeSlot configuration) 0) 0 in
  (Dj.add_minute minutesBeforeNextSearch endAt, timeSlot).

Definition _nextSearchMoment (moment : Dayjs)
    (configuration : TimeSlotsFinderConfiguration) : Dayjs :=
  let nextMoment :=
    if negb (Dj.second moment =? 0)
    then Dj.add_minute 1 (Dj.startOf_minute moment)
    else moment in
  let slotStartAt :=
    Dj.add_minute (orElse (minAvailableTimeBeforeSlot configuration) 0) nextMoment in
  let slotStartMinuteStep := orElse (slotStartMinuteStep configuration) 5 in
  let minuteToAdd :=
    Z.rem (slotStartMinuteStep - Z.rem (Dj.minute slotStartAt) slotStartMinuteStep)
          slotStartMinuteStep in
  Dj.set_millisecond 0 (Dj.add_minute minuteToAdd nextMoment).

(** [periods.map(...)] of [_getUnavailablePeriodAsEvents], one period.
    [dayjs(obj).format("YYYY-MM-DD HH:mm")] then [dayjs.tz(string, zone)]:
    the wall-clock reading of [obj] is read again in [zone].  Both calls
    read the clock: [dayjs(obj)] to complete the fields of [obj], and
    [dayjs.tz] for the offset of the zone at the current instant, from
    which it starts its search of the offset (in a zone of fixed offset
    the value read makes no difference). *)
Definition dayjs_tzOfObject (o : PeriodMoment) (timeZone : string) : M Dayjs :=
  d <- dayjs_fromObject o ;;
  _ <- dayjs_now ;;
  match zoneOffset timeZone with
  | Some off => ret (Dj.withLocalMs (mkDayjs 0 off) (valueOf d))
  | None => throw (RangeError ("Invalid time zone specified: " ++ timeZone)%string)
  end.

(** The two ends of a period before the year step: resolved in the zone,
    and widened to whole days when no hour is given. *)
Definition resolveUnavailablePeriod (unavailablePeriod : Period) (timeZone : string)
    : M (Dayjs * Dayjs) :=
  startAt0 <- dayjs_tzOfObject (startAt unavailablePeriod) timeZone ;;
  endAt0 <- dayjs_tzOfObject (endAt unavailablePeriod) timeZone ;;
  let startAt1 :=
    match hour (startAt unavailablePeriod) with
    | None => Dj.startOf_day startAt0
    | Some _ => startAt0
    end in
  let endAt1 :=
    match hour (endAt unavailablePeriod) with
    | None => Dj.endOf_day endAt0
    | Some _ => endAt0
    end in
  ret (startAt1, endAt1).

Definition unavailablePeriodAsEvent (unavailablePeriod : Period) (timeZone : string)
    : M DayjsPeriod :=
  resolved <- resolveUnavailablePeriod unavailablePeriod timeZone ;;
  let (startAt1, endAt1) := resolved in
  (* Can only happen if no years were defined: push endAt to next year *)
  let endAt2 := if Dj.isBefore endAt1 startAt1 then Dj.add_year 1 endAt1 else endAt1 in
  ret (mkEvent startAt1 endAt2).

Fixpoint _getUnavailablePeriodAsEvents (unavailablePeriods : list Period)
    (timeZone : string) : M (list DayjsPeriod) :=
  match unavailablePeriods with
  | [] => ret []
  | p :: l =>
      e <- unavailablePeriodAsEvent p timeZone ;;
      es <- _getUnavailablePeriodAsEvents l timeZone ;;
      ret (e :: es)
  end.

(** [periods.sort((a, b) => (a.startAt.isAfter(b.startAt) ? 1 : -1))]:
    an insertion sort, elements taken from left to right; the comparator
    never answers 0, so an element goes in front of those that start at
    the same instant. *)
Fixpoint insertPeriod (pivot : DayjsPeriod) (sorted : list DayjsPeriod) : list DayjsPeriod :=
  match sorted with
  | [] => [pivot]
  | y :: l =>
      if Dj.isAfter (evStartAt pivot) (evStartAt y)
      then y :: insertPeriod pivot l
      else pivot :: y :: l
  end.

Definition _sortPeriods (periods : list DayjsPeriod) : list DayjsPeriod :=
  fold_left (fun sorted pivot => insertPeriod pivot sorted) periods [].

Definition _filterPeriods (periods : list DayjsPeriod) (from to : Dayjs) : list DayjsPeriod :=
  filter (fun period => Dj.isBefore (evStartAt period) to
                        && Dj.isAfter (evEndAt period) from) periods.

Fixpoint _findEmcompassingEvent (eventList : list DayjsPeriod) (event : DayjsPeriod) : bool :=
  match eventList with
  | [] => false
  | currentEvent :: l =>
      if Dj.isSameOrBefore (evStartAt currentEvent) (evStartAt event)
         && Dj.isAfter (evEndAt currentEvent) (evEndAt event)
      then true
      else if Dj.isAfter (evStartAt currentEvent) (evStartAt event) then false
      else _findEmcompassingEvent l event
  end.

Definition _prepareEvents (periods : list DayjsPeriod) (from to : Dayjs) : list DayjsPeriod :=
  let filteredPeriods := _filterPeriods periods from to in
  let sortedPeriods := _sortPeriods filteredPeriods in
  filter (fun event => negb (_findEmcompassingEvent sortedPeriods event)) sortedPeriods.

(** [list.findIndex(p)]: -1 when no element satisfies [p]. *)
Fixpoint findIndex {A} (p : A -> bool) (l : list A) (i : Z) : Z :=
  match l with
  | [] => -1
  | x :: l' => if p x then i else findIndex p l' (i + 1)
  end.

(** The [while] loop of [_getAvailableTimeSlotsForShift] on the state
    [(searchMoment, eventIndex)]; the slots are listed in the order they
    are pushed.  [None]: the fuel ran out. *)
Fixpoint searchLoop (fuel : nat) (configuration : TimeSlotsFinderConfiguration)
    (cleanedList : list DayjsPeriod) (searchEndMoment : Dayjs)
    (searchMoment : Dayjs) (eventIndex : Z) : option (list TimeSlot) :=
  match fuel with
  | O => None
  | S fuel' =>
      if Dj.isSameOrBefore searchMoment searchEndMoment then
        let focusedEvent :=
          if 0 <=? eventIndex then nth_error cleanedList (Z.to_nat eventIndex) else None in
        let searchMoment := _nextSearchMoment searchMoment configuration in
        let freeTimeLimitMoment :=
          Dj.add_minute (_getMinTimeWindowNeeded configuration) searchMoment in
        match focusedEvent with
        | Some focused =>
            if Dj.isBefore (evStartAt focused) freeTimeLimitMoment then
              searchLoop fuel' configuration cleanedList searchEndMoment
                         (evEndAt focused) (eventIndex + 1)
            else
              let (newSearchMoment, timeSlot) := _pushNewSlot searchMoment configuration in
              option_map (cons timeSlot)
                (searchLoop fuel' configuration cleanedList searchEndMoment
                            newSearchMoment eventIndex)
        | None =>
            let (newSearchMoment, timeSlot) := _pushNewSlot searchMoment configuration in
            option_map (cons timeSlot)
              (searchLoop fuel' configuration cleanedList searchEndMoment
                          newSearchMoment eventIndex)
        end
      else Some []
  end.

Definition _getAvailableTimeSlotsForShift (fuel : nat)
    (configuration : TimeSlotsFinderConfiguration) (eventList : list DayjsPeriod)
    (from to : Dayjs) : option (list TimeSlot) :=
  let minAvailableTimeBeforeSlot' := orElse (minAvailableTimeBeforeSlot configuration) 0 in
  let minAvailableTimeAfterSlot' :=
    timeSlotDuration configuration
    + orElse (minAvailableTimeBeforeSlot configuration) 0 in
  let searchMoment := Dj.subtract_minute minAvailableTimeBeforeSlot' from in
  let searchEndMoment := Dj.subtract_minute minAvailableTimeAfterSlot' to in
  let filteringMin := Dj.subtract_minute minAvailableTimeBeforeSlot' from in
  let filteringMax := Dj.add_minute minAvailableTimeAfterSlot' to in
  let cleanedList := _prepareEvents eventList filteringMin filteringMax in
  let eventIndex :=
    findIndex (fun event => Dj.isAfter (evEndAt event) searchMoment) cleanedList 0 in
  searchLoop fuel configuration cleanedList searchEndMoment searchMoment eventIndex.

(** [weekDayConfig.shifts.forEach(...)] of the day loop. *)
Fixpoint forEachShift (fuel : nat) (usedConfig : TimeSlotsFinderConfiguration)
    (eventList : list DayjsPeriod) (firstFromMoment lastToMoment fromMoment : Dayjs)
    (l : list Shift) : option (list TimeSlot) :=
  match l with
  | [] => Some []
  | shift :: l' =>
      let here :=
        match _getMomentsFromShift fromMoment shift with
        | (Some startAt, Some endAt) =>
            let partialFrom := Dj.max firstFromMoment startAt in
            let partialTo := Dj.min lastToMoment endAt in
            if negb (Dj.isSameOrBefore partialFrom partialTo) then Some []
            else _getAvailableTimeSlotsForShift fuel usedConfig eventList partialFrom partialTo
        | _ => Some []
        end in
      match here, forEachShift fuel usedConfig eventList firstFromMoment lastToMoment
                               fromMoment l' with
      | Some a, Some b => Some (a ++ b)
      | _, _ => None
      end
  end.

(** The [while (fromMoment.isBefore(lastToMoment))] loop. *)
Fixpoint dayLoop (fuel : nat) (usedConfig : TimeSlotsFinderConfiguration)
    (eventList : list DayjsPeriod) (firstFromMoment lastToMoment fromMoment : Dayjs)
    (shiftFuel : nat) : option (list TimeSlot) :=
  match fuel with
  | O => None
  | S fuel' =>
      if Dj.isBefore fromMoment lastToMoment then
        let today :=
          match _getWeekDayConfigForMoment usedConfig fromMoment with
          | Some weekDayConfig =>
              forEachShift shiftFuel usedConfig eventList firstFromMoment lastToMoment
                           fromMoment (shifts weekDayConfig)
          | None => Some []
          end in
        match today, dayLoop fuel' usedConfig eventList firstFromMoment lastToMoment
                             (Dj.startOf_day (Dj.add_day 1 fromMoment)) shiftFuel with
        | Some a, Some b => Some (a ++ b)
        | _, _ => None
        end
      else Some []
  end.

Definition getAvailableTimeSlotsInCalendar (fuel : nat)
    (params : TimeSlotsFinderParameters) : M (list TimeSlot) :=
  usedConfig <- _checkSearchParameters (configuration params) (from params) (to params) ;;
  eventList <- _getUnavailablePeriodAsEvents
                 (match unavailablePeriods usedConfig with Some l => l | None => [] end)
                 (timeZone usedConfig) ;;
  boundaries <- _computeBoundaries (from params) (to params) usedConfig ;;
  match boundaries with
  | (Some firstFromMoment, Some lastToMoment) =>
      match dayLoop fuel usedConfig eventList firstFromMoment lastToMoment
                    firstFromMoment fuel with
      | Some timeSlots => ret timeSlots
      | None => outOfFuel
      end
  | _ => ret []
  end.

End DayjsImpl.

(** ** The luxon-backed implementation *)

Module LuxonImpl.

(** A luxon [DateTime]; [None] is an invalid one (its value is NaN). *)
Definition DateTime := option Dayjs.

Record LuxonPeriod := mkLuxonPeriod {
  lxStartAt : DateTime;
  lxEndAt : DateTime
}.

(** [d.setZone(zone)]: luxon does not throw on an unknown zone, the
    result is an invalid [DateTime]. *)
Definition setZone (zone : string) (d : DateTime) : DateTime :=
  match d, zoneOffset zone with
  | Some d, Some o => Some (mkDayjs (valueOf d) o)
  | _, _ => None
  end.

(** [DateTime.local()] *)
Definition local : M DateTime := d <- dayjs_now ;; ret (Some d).

(** [DateTime.fromObject(obj, {zone})]: months are 1-based for luxon; an
    absent year is the current one in the zone; an absent hour or minute
    is 0; a field out of range makes the result invalid. *)
Definition fromObject (o : PeriodMoment) (zone : string) : M DateTime :=
  now <- readClock ;;
  match zoneOffset zone with
  | None => ret None
  | Some off =>
      let y := match year o with Some y => y | None => Dj.year (mkDayjs now off) end in
      let h := orElse (hour o) 0 in
      let mi := orElse (minute o) 0 in
      if (1 <=? month o) && (month o <=? 12)
         && (1 <=? day o) && (day o <=? daysInMonthOf y (month o - 1))
         && (0 <=? h) && (h <=? 23) && (0 <=? mi) && (mi <=? 59)
      then ret (Some (Dj.withLocalMs (mkDayjs 0 off)
                        (daysFromCivil y (month o) (day o) * msPerDay
                         + h * msPerHour + mi * msPerMinute)))
      else ret None
  end.

(** [a < b], [a <= b], [a >= b] on [DateTime]s: by value, [false] when
    one of them is invalid. *)
Definition lt (a b : DateTime) : bool :=
  match a, b with Some x, Some y => valueOf x <? valueOf y | _, _ => false end.
Definition le (a b : DateTime) : bool :=
  match a, b with Some x, Some y => valueOf x <=? valueOf y | _, _ => false end.
Definition ge (a b : DateTime) : bool := le b a.

(** [DateTime.max(a, b)] / [DateTime.min(a, b)]: the first argument
    unless the second is strictly better; with an invalid argument the
    comparison of values fails and the second argument is returned. *)
Definition max (a b : DateTime) : DateTime :=
  match a, b with Some x, Some y => Some (Dj.max x y) | _, _ => b end.
Definition min (a b : DateTime) : DateTime :=
  match a, b with Some x, Some y => Some (Dj.min x y) | _, _ => b end.

(** The luxon [DateTime] of a caller-supplied value. *)
Definition ofJsDate (d : JsDate) : DateTime :=
  match d with DateAt t => Some (mkDayjs t 0) | _ => None end.

Definition _checkTimeZone (timeZone : string) : M unit :=
  if String.eqb timeZone EmptyString then
    throw (TimeSlotsFinderError "Missing time zone")
  else
    tryCatch (now <- local ;; let _ := setZone timeZone now in ret tt)
             (throw (TimeSlotsFinderError ("Invalid time zone: " ++ timeZone)%string)).

(** The luxon file keeps the time-zone check and the last rule only. *)
Definition _checkPrimitiveValue (configuration : TimeSlotsFinderConfiguration) : M bool :=
  _checkTimeZone (timeZone configuration) ;;;
  let minBeforeFirst := minTimeBeforeFirstSlot configuration in
  let maxBeforeLast := maxDaysBeforeLastSlot configuration in
  if truthy minBeforeFirst && truthy maxBeforeLast
     && (orElse maxBeforeLast 0 * (24 * 60) <? orElse minBeforeFirst 0)
  then throw (TimeSlotsFinderError
    "The first possible slot will always be after last one possible (see minTimeBeforeFirstSlot and maxDaysBeforeLastSlot)")
  else ret true.

Definition _isPeriodMomentValid (periodMoment : PeriodMoment) : M bool :=
  match hour periodMoment, minute periodMoment with
  | None, Some _ => ret false
  | _, _ =>
      let isYearAndMonthValid :=
        (match year periodMoment with None => true | Some y => 0 <? y end)
        && (0 <=? month periodMoment) && (month periodMoment <=? 11) in
      if negb isYearAndMonthValid then ret false
      else
        now <- dayjs_now ;;
        let y := if truthy (year periodMoment)
                 then orElse (year periodMoment) 0 else Dj.year now in
        ret ((1 <=? day periodMoment)
             && (day periodMoment <=? daysInMonthOf y (month periodMoment))
             && (match hour periodMoment with
                 | None => true | Some h => (0 <=? h) && (h <=? 23) end)
             && (match minute periodMoment with
                 | None => true | Some m => (0 <=? m) && (m <=? 59) end))
  end.

Definition _isUnavailablePeriodValid (period : Period) : M bool :=
  if negb (Bool.eqb (match year (startAt period) with None => true | _ => false end)
                    (match year (endAt period) with None => true | _ => false end))
  then ret false
  else
    okStart <- _isPeriodMomentValid (startAt period) ;;
    if negb okStart then ret false
    else
      okEnd <- _isPeriodMomentValid (endAt period) ;;
      if negb okEnd then ret false
      else
        match year (startAt period) with
        | None => ret true
        | Some _ =>
            s <- fromObject (startAt period) "UTC" ;;
            e <- fromObject (endAt period) "UTC" ;;
            ret (lt s e)
        end.

Fixpoint checkUnavailablePeriods (l : list Period) (i : nat) : M unit :=
  match l with
  | [] => ret tt
  | p :: l' =>
      ok <- _isUnavailablePeriodValid p ;;
      if negb ok then
        throw (TimeSlotsFinderError
          ("Unavailable period nº" ++ showNat (i + 1) ++ " is invalid")%string)
      else checkUnavailablePeriods l' (S i)
  end.

Definition isConfigurationValid (configuration : TimeSlotsFinderConfiguration) : M bool :=
  _checkPrimitiveValue configuration ;;;
  checkAvailablePeriods (availablePeriods configuration) 0 ;;;
  match unavailablePeriods configuration with
  | Some l => checkUnavailablePeriods l 0
  | None => ret tt
  end ;;;
  ret true.

Definition _checkSearchParameters (configuration : TimeSlotsFinderConfiguration)
    (from to : JsDate) : M TimeSlotsFinderConfiguration :=
  valid <- isConfigurationValid configuration ;;
  if negb valid then
    throw (TimeSlotsFinderError
             "The configuration provided is invalid. Please check your settings.")
  else
    (* !from.isValid || !to.isValid || from >= to, from left to right;
       reading [isValid] of an absent value is a TypeError *)
    match from, to with
    | DateNull, _ =>
        throw (TypeError "Cannot read properties of null (reading 'isValid')")
    | DateInvalid, _ => throw (TimeSlotsFinderError "Invalid date parameters")
    | DateAt _, DateNull =>
        throw (TypeError "Cannot read properties of null (reading 'isValid')")
    | DateAt _, DateInvalid => throw (TimeSlotsFinderError "Invalid date parameters")
    | DateAt _, DateAt _ =>
        if ge (ofJsDate from) (ofJsDate to)
        then throw (TimeSlotsFinderError "Invalid date parameters")
        else
          ret (mkConfiguration (timeSlotDuration configuration)
                 (_mergeOverlappingShiftsInAvailablePeriods (availablePeriods configuration))
                 (slotStartMinuteStep configuration) (unavailablePeriods configuration)
                 (minAvailableTimeBeforeSlot configuration)
                 (minAvailableTimeAfterSlot configuration)
                 (minTimeBeforeFirstSlot configuration)
                 (maxDaysBeforeLastSlot configuration)
                 (timeZone configuration))
    end.

Fixpoint _getUnavailablePeriodAsEvents (periods : list Period) (timeZone : string)
    : M (list LuxonPeriod) :=
  match periods with
  | [] => ret []
  | period :: l =>
      s <- fromObject (startAt period) timeZone ;;
      e <- fromObject (endAt period) timeZone ;;
      es <- _getUnavailablePeriodAsEvents l timeZone ;;
      ret (mkLuxonPeriod s e :: es)
  end.

Definition _computeBoundaries (from to : DateTime)
    (configuration : TimeSlotsFinderConfiguration) : M (DateTime * DateTime) :=
  searchLimitMoment <-
    (if truthy (maxDaysBeforeLastSlot configuration) then
       now <- local ;;
       ret (Some (option_map
              (fun d => Dj.endOf_day
                          (Dj.add_day (orElse (maxDaysBeforeLastSlot configuration) 0) d))
              (setZone (timeZone configuration) now)))
     else ret None) ;;
  now <- local ;;
  let earliest :=
    option_map
      (fun d => Dj.add_minute (orElse (minTimeBeforeFirstSlot configuration) 0)
                  (Dj.add_minute (orElse (minAvailableTimeBeforeSlot configuration) 0) d))
      (setZone (timeZone configuration) now) in
  let firstFromMoment := max (setZone (timeZone configuration) from) earliest in
  let lastToMoment :=
    match searchLimitMoment with
    | Some limit => min (setZone (timeZone configuration) to) limit
    | None => setZone (timeZone configuration) to
    end in
  ret (firstFromMoment, lastToMoment).

Definition _getWeekDayConfigForMoment (configuration : TimeSlotsFinderConfiguration)
    (moment : Dayjs) : option AvailablePeriod :=
  let weekDay := Dj.isoWeekday moment in
  find (fun p => isoWeekDay p =? weekDay) (availablePeriods configuration).

(** [DateTime.fromISO("HH:mm")]: that time today; only its hour and
    minute are used.  One reading of the clock (for the date). *)
Definition fromISO_hourMinute (time : string) : M (Z * Z) :=
  _ <- readClock ;;
  if matchesHHmm time then
    match parseInt (slice_0_2 time), parseInt (slice_from 3 time) with
    | Some h, Some m =>
        if (h <=? 23) && (m <=? 59) then ret (h, m)
        else throw (InvalidArgumentError "Invalid unit value NaN")
    | _, _ => throw (InvalidArgumentError "Invalid unit value NaN")
    end
  else throw (InvalidArgumentError "Invalid unit value NaN").

(** [fromMoment.set({hour, minute, second: 0, millisecond: 0})] *)
Definition set_hms (h m : Z) (d : Dayjs) : Dayjs :=
  Dj.withLocalMs d (Dj.localMs d - Dj.localMs d mod msPerDay + h * msPerHour + m * msPerMinute).

(** The value of [endAt.plus({days: 1})] is dropped by the source. *)
Definition _getMomentsFromShift (fromMoment : Dayjs) (shift : Shift) : M (Dayjs * Dayjs) :=
  start <- fromISO_hourMinute (startTime shift) ;;
  end_ <- fromISO_hourMinute (endTime shift) ;;
  ret (set_hms (fst start) (snd start) fromMoment,
       set_hms (fst end_) (snd end_) fromMoment).

(** [slotInterval.engulfs(Interval.fromDateTimes(event.startAt, event.endAt))]
    for a valid slot interval: an interval is invalid when an end point
    is, or when its end precedes its start, and nothing engulfs an
    invalid interval. *)
Definition engulfs (s e : Dayjs) (event : LuxonPeriod) : bool :=
  match lxStartAt event, lxEndAt event with
  | Some es, Some ee =>
      (valueOf es <=? valueOf ee) && (valueOf s <=? valueOf es) && (valueOf ee <=? valueOf e)
  | _, _ => false
  end.

(** The [while (endMoment <= to)] loop on the state [startMoment].  With
    a negative duration the slot interval is invalid and engulfs nothing;
    the loop does not get past its first iteration, and the model ends it
    there (luxon refuses the duration of an invalid interval in the next
    [plus]).  What is stated of the luxon sweep is stated for durations
    that are not negative. *)
Fixpoint slotLoop (fuel : nat) (durationInMinutes : Z) (eventList : list LuxonPeriod)
    (to startMoment : Dayjs) : option (list TimeSlot) :=
  match fuel with
  | O => None
  | S fuel' =>
      let endMoment := Dj.add_minute durationInMinutes startMoment in
      if valueOf endMoment <=? valueOf to then
        let free :=
          if durationInMinutes <? 0 then true
          else forallb (fun event => negb (engulfs startMoment endMoment event)) eventList in
        let pushed :=
          if free
          then [mkTimeSlot (valueOf startMoment) (valueOf endMoment) durationInMinutes]
          else [] in
        if durationInMinutes <? 0 then Some pushed
        else option_map (app pushed)
               (slotLoop fuel' durationInMinutes eventList to
                         (Dj.add_minute durationInMinutes startMoment))
      else Some []
  end.

Definition _getAvailableTimeSlotsForShift (fuel : nat)
    (configuration : TimeSlotsFinderConfiguration) (eventList : list LuxonPeriod)
    (from to : Dayjs) : option (list TimeSlot) :=
  slotLoop fuel (timeSlotDuration configuration) eventList to from.

Fixpoint forEachShift (fuel : nat) (usedConfig : TimeSlotsFinderConfiguration)
    (eventList : list LuxonPeriod) (firstFromMoment lastToMoment fromMoment : Dayjs)
    (l : list Shift) : M (list TimeSlot) :=
  match l with
  | [] => ret []
  | shift :: l' =>
      moments <- _getMomentsFromShift fromMoment shift ;;
      let partialFrom := Dj.max firstFromMoment (fst moments) in
      let partialTo := Dj.min lastToMoment (snd moments) in
      here <-
        (if valueOf partialTo <=? valueOf partialFrom then ret []
         else match _getAvailableTimeSlotsForShift fuel usedConfig eventList
                      partialFrom partialTo with
              | Some slots => ret slots
              | None => outOfFuel
              end) ;;
      rest <- forEachShift fuel usedConfig eventList firstFromMoment lastToMoment
                           fromMoment l' ;;
      ret (here ++ rest)
  end.

Fixpoint dayLoop (fuel : nat) (usedConfig : TimeSlotsFinderConfiguration)
    (eventList : list LuxonPeriod) (firstFromMoment lastToMoment fromMoment : Dayjs)
    (shiftFuel : nat) : M (list TimeSlot) :=
  match fuel with
  | O => outOfFuel
  | S fuel' =>
      if valueOf fromMoment <? valueOf lastToMoment then
        today <-
          match _getWeekDayConfigForMoment usedConfig fromMoment with
          | Some weekDayConfig =>
              forEachShift shiftFuel usedConfig eventList firstFromMoment lastToMoment
                           fromMoment (shifts weekDayConfig)
          | None => ret []
          end ;;
        rest <- dayLoop fuel' usedConfig eventList firstFromMoment lastToMoment
                        (Dj.startOf_day (Dj.add_day 1 fromMoment)) shiftFuel ;;
        ret (today ++ rest)
      else ret []
  end.

Definition getAvailableTimeSlotsInCalendar (fuel : nat)
    (params : TimeSlotsFinderParameters) : M (list TimeSlot) :=
  usedConfig <- _checkSearchParameters (configuration params) (from params) (to params) ;;
  eventList <- _getUnavailablePeriodAsEvents
                 (match unavailablePeriods usedConfig with Some l => l | None => [] end)
                 (timeZone usedConfig) ;;
  boundaries <- _computeBoundaries (ofJsDate (from params)) (ofJsDate (to params))
                                   usedConfig ;;
  match boundaries with
  | (Some firstFromMoment, Some lastToMoment) =>
      dayLoop fuel usedConfig eventList firstFromMoment lastToMoment firstFromMoment fuel
  | _ => ret []
  end.

End LuxonImpl.

(** ** Properties of slots, and the concrete inputs of the examples *)

(** The intervals [[s.startAt, s.endAt)] and [[eStart, eEnd)] overlap. *)
Definition overlaps (s : TimeSlot) (eStart eEnd : Z) : Prop :=
  slotStartAt s < eEnd /\ eStart < slotEndAt s.

(** The instant [y-m-dTh:mi:s.msZ] (month 1-based). *)
Definition atUTC (y m d h mi s ms : Z) : Z :=
  daysFromCivil y m d * msPerDay + h * msPerHour + mi * msPerMinute + s * msPerSecond + ms.

(** A clock that stands still. *)
Definition frozenAt (t : Z) : Clock := fun _ => t.


Definition noon_2020_10_14 : Z := atUTC 2020 10 14 12 0 0 0.

(** Thursday 2020-10-15, the whole day, as a search window. *)
Definition thursdayFrom : JsDate := DateAt (atUTC 2020 10 15 0 0 0 0).
Definition thursdayTo : JsDate := DateAt (atUTC 2020 10 16 0 0 0 0).

(** A one-minute shift, not on a step boundary, with a one-minute slot on
    a 30-minute step, and a blocked period from 10:10 to 11:00. *)
Definition blocked_10h10_11h : Period :=
  mkPeriod (mkPeriodMoment (Some 2020) 9 15 (Some 10) (Some 10))
           (mkPeriodMoment (Some 2020) 9 15 (Some 11) (Some 0)).

Definition config_shortShift : TimeSlotsFinderConfiguration :=
  mkConfiguration 1 [mkAvailablePeriod 4 [mkShift "10:01" "10:02"]]
    (Some 30) (Some [blocked_10h10_11h]) None None None None "UTC".

(** One-hour slots in a 10:00-12:00 shift, inside a blocked period that
    lasts from early 2020 to late 2021. *)
Definition blocked_2020_2021 : Period :=
  mkPeriod (mkPeriodMoment (Some 2020) 1 1 None None)
           (mkPeriodMoment (Some 2021) 11 28 None None).

Definition config_longBlock : TimeSlotsFinderConfiguration :=
  mkConfiguration 60 [mkAvailablePeriod 4 [mkShift "10:00" "12:00"]]
    None (Some [blocked_2020_2021]) None None None None "UTC".

(** The configuration of the test "should use 5 as default for
    slotStartMinuteMultiple parameter", in the zone UTC, with its clock
    (15:03:12.592) and its window (15:00 to 16:00). *)
Definition config_step : TimeSlotsFinderConfiguration :=
  mkConfiguration 10 [mkAvailablePeriod 4 [mkShift "12:00" "22:00"]]
    None None None None None None "UTC".
Definition params_step : TimeSlotsFinderParameters :=
  mkParams config_step (DateAt (atUTC 2020 10 15 15 0 0 0)) (DateAt (atUTC 2020 10 15 16 0 0 0)).
Definition clock_step : Clock := frozenAt (atUTC 2020 10 15 15 3 12 592).

(** The same with [minAvailableTimeBeforeSlot: 2] and an explicit step of 5
    (second case of "should handle properly slotStartMinuteMultiple"). *)
Definition config_before2 : TimeSlotsFinderConfiguration :=
  mkConfiguration 10 [mkAvailablePeriod 4 [mkShift "12:00" "22:00"]]
    (Some 5) None (Some 2) None None None "UTC".

(** Two overlapping shifts on Thursday. *)
Definition config_overlappingShifts : TimeSlotsFinderConfiguration :=
  mkConfiguration 60
    [mkAvailablePeriod 4 [mkShift "10:00" "12:00"; mkShift "11:00" "13:00"]]
    None None None None None None "UTC".

(** Yearly periods whose end falls earlier in the year than their start. *)
Definition period_dec20_jan5 : Period :=
  mkPeriod (mkPeriodMoment None 11 20 None None) (mkPeriodMoment None 0 5 None None).
Definition period_wrapping : Period :=
  mkPeriod (mkPeriodMoment None 11 20 None None) (mkPeriodMoment None 1 5 None None).


(** ** Predicates on computations *)

(** The outcome is a result or a [TimeSlotsFinderError] with a reason. *)
Definition finderOutcome {A} (o : Outcome A) : Prop :=
  match o with
  | Returned _ => True
  | Threw (TimeSlotsFinderError reason) => reason <> EmptyString
  | _ => False
  end.

Definition throwsOnlyFinderErrors {A} (c : M A) : Prop :=
  forall clock n, finderOutcome (fst (c clock n)).

(** A computation takes its readings in order, and its outcome depends on
    the clock through the readings it takes only. *)
Definition clockLocal {A} (c : M A) : Prop :=
  forall (clock1 clock2 : Clock) (n : nat),
    (n <= snd (c clock1 n))%nat
    /\ ((forall k, (n <= k < snd (c clock1 n))%nat -> clock1 k = clock2 k) ->
        c clock2 n = c clock1 n).

(** A computation that returns has taken [k] readings or more. *)
Definition readsAtLeast {A} (k : nat) (c : M A) : Prop :=
  forall (clock : Clock) (n : nat) (a : A) (n' : nat),
    c clock n = (Returned a, n') -> (n + k <= n')%nat.

(** ** The sweep of one shift window: fuel and slot properties *)

(** Enough fuel for the sweep of the window [[from, to]] over [eventList]:
    a slot moves the cursor by more than 59 seconds, and between two slots
    the cursor is sent at most once to the end of each blocking event. *)
Definition searchFuel (eventList : list DayjsPeriod) (from to : Dayjs) : nat :=
  Z.to_nat ((Z.of_nat (List.length eventList) + 1)
            * (Z.max 0 ((valueOf to - valueOf from) / 59001) + 2) + 1).

(** The start of slot [s], read in the zone at offset [off], is on a
    minute that is a multiple of [step]. *)
Definition startsOnStep (off step : Z) (s : TimeSlot) : Prop :=
  Dj.minute (mkDayjs (slotStartAt s) off) mod step = 0.


(** Measure of the sweep.  Blocking events the cursor can still be sent
    to; slots that fit between the cursor and the end of the search; and
    slots that fit between the lowest cursor position and that end. *)
Definition remainingEvents (cleanedList : list DayjsPeriod) (eventIndex : Z) : Z :=
  if 0 <=? eventIndex
  then Z.max 0 (Z.of_nat (List.length cleanedList) - eventIndex) else 0.

Definition remainingSlots (searchEndMoment searchMoment : Dayjs) : Z :=
  if valueOf searchMoment <=? valueOf searchEndMoment
  then (valueOf searchEndMoment - valueOf searchMoment) / 59001 + 1 else 0.

Definition slotsPerRun (searchEndMoment : Dayjs) (lowest : Z) : Z :=
  Z.max 0 ((valueOf searchEndMoment - lowest) / 59001) + 1.

(** The window 15:05:12.592 to 16:00 of Thursday 2020-10-15, the shift
    window of the second case of "should handle properly
    slotStartMinuteMultiple parameter" (the clock reads 15:03:12.592 and
    two minutes are required before a slot). *)
Definition shiftFrom_15h05 : Dayjs := mkDayjs (atUTC 2020 10 15 15 5 12 592) 0.
Definition shiftTo_16h_thursday : Dayjs := mkDayjs (atUTC 2020 10 15 16 0 0 0) 0.

(** The computation never throws the error [e]. *)
Definition neverThrows {A} (e : Error) (c : M A) : Prop :=
  forall clock n, fst (c clock n) <> Threw e.

(** The error of the dayjs implementation for a refused search window. *)
Definition invalidBoundaries : Error :=
  TimeSlotsFinderError "Invalid boundaries for the search".

(** ** Yearly periods *)

(** The wall-clock reading of 1 January, 00:00, of year [y]. *)
Definition newYear (y : Z) : Z := daysFromCivil y 1 1 * msPerDay.

(** The fields of a moment are in the ranges that [_isPeriodMomentValid]
    accepts for a moment of year [y]. *)
Definition momentInRange (y : Z) (o : PeriodMoment) : Prop :=
  0 <= month o <= 11
  /\ 1 <= day o <= daysInMonthOf y (month o)
  /\ 0 <= orElse (hour o) 0 <= 23
  /\ 0 <= orElse (minute o) 0 <= 59.

(** ** Shifts as intervals of times of day *)

(** The time of day [t] (a string, in the order of [localeCompare]) lies
    within the shift [s], ends included. *)
Definition covers (s : Shift) (t : string) : Prop :=
  localeCompare (startTime s) t <= 0 /\ localeCompare t (endTime s) <= 0.

(** [a] starts no later than [b] and ends strictly before [b] starts. *)
Definition endsBefore (a b : Shift) : Prop :=
  startLe a b /\ localeCompare (endTime a) (startTime b) < 0.

(** ** Times of day written as [HH:mm] *)

(** The character of the decimal digit [d]. *)
Definition digitChar (d : Z) : ascii := ascii_of_N (Z.to_N (48 + d)).

(** [n] written with two decimal digits. *)
Definition twoDigits (n : Z) : string :=
  String (digitChar (n / 10)) (String (digitChar (n mod 10)) EmptyString).

(** The time of day [h] hours [m] minutes, written [HH:mm]. *)
Definition hhmm (h m : Z) : string :=
  (twoDigits h ++ String ":"%char (twoDigits m))%string.

(** A string of the shape [ab:cd]. *)
Definition timeString (a b c d : ascii) : string :=
  String a (String b (String ":"%char (String c (String d EmptyString)))).

(** The moment at [h] hours [m] minutes of the day of [d], in the zone of
    [d], plus [rest] milliseconds. *)
Definition onDayOf (d : Dayjs) (h m rest : Z) : Dayjs :=
  Dj.withLocalMs d (Dj.localMs d - Dj.localMs d mod msPerDay
                    + h * msPerHour + m * msPerMinute + rest).

(** ** The rounding of the search cursor *)

(** [r] is the first moment at or after [c] (in the zone of [c]) that is
    on a whole minute and from which a slot, [before] minutes later, starts
    on a minute that is a multiple of [step]; a cursor within the first
    second of a minute counts from that minute. *)
Definition firstAlignedMinute (step before : Z) (c r : Dayjs) : Prop :=
  utcOffset r = utcOffset c
  /\ Dj.second r = 0 /\ Dj.millisecond r = 0
  /\ Dj.minute (Dj.add_minute before r) mod step = 0
  /\ valueOf c - 999 <= valueOf r
  /\ (Dj.second c <> 0 -> valueOf c < valueOf r)
  /\ forall t : Dayjs,
       utcOffset t = utcOffset c -> valueOf c <= valueOf t ->
       Dj.second t = 0 -> Dj.millisecond t = 0 ->
       Dj.minute (Dj.add_minute before t) mod step = 0 ->
       valueOf r <= valueOf t.

(** The wall-clock reading [l], moved to the whole minute the rounding
    starts from: its own minute when it has no whole second, the next
    minute otherwise. *)
Definition roundingBase (l : Z) : Z :=
  if l mod msPerMinute <? msPerSecond
  then l - l mod msPerMinute
  else l - l mod msPerMinute + msPerMinute.

(** ** Blocking events as intervals of instants *)

(** The instant [t] lies within the event [e], its end excluded. *)
Definition blocks (e : DayjsPeriod) (t : Z) : Prop :=
  valueOf (evStartAt e) <= t < valueOf (evEndAt e).

(** [a] starts no later than [b], and ends no later than [b]. *)
Definition notLaterThan (a b : DayjsPeriod) : Prop :=
  valueOf (evStartAt a) <= valueOf (evStartAt b)
  /\ valueOf (evEndAt a) <= valueOf (evEndAt b).

(** The event intersects the window of the filter: it starts before [to]
    and ends after [from]. *)
Definition withinWindow (from to : Dayjs) (e : DayjsPeriod) : Prop :=
  valueOf (evStartAt e) < valueOf to /\ valueOf from < valueOf (evEndAt e).

(** [a] starts no later than [b]. *)
Definition startsNoLater (a b : DayjsPeriod) : Prop :=
  valueOf (evStartAt a) <= valueOf (evStartAt b).

(** ** Slots of one sweep, relative to each other and to the events *)

(** Slot [b] starts [gap] minutes or more after slot [a] ends. *)
Definition apart (gap : Z) (a b : TimeSlot) : Prop :=
  slotEndAt a + gap * msPerMinute <= slotStartAt b.

(** The window kept free for slot [s] reaches from [before] minutes ahead
    of its start to [after] minutes past its end.  The event [e] is clear
    of it: it ends no later than 999 milliseconds into the window, or starts
    when the window is over. *)
Definition clearOf (before after : Z) (s : TimeSlot) (e : DayjsPeriod) : Prop :=
  valueOf (evEndAt e) <= slotStartAt s - before * msPerMinute + 999
  \/ slotEndAt s + after * msPerMinute <= valueOf (evStartAt e).

(** The state of the sweep: the events from [eventIndex] on end at or
    after the cursor, the events before it (all of them when no event was
    found) have ended at the cursor. *)
Definition eventsAhead (cleanedList : list DayjsPeriod) (c : Dayjs) (eventIndex : Z) : Prop :=
  0 <= eventIndex ->
  forall k e, (Z.to_nat eventIndex <= k)%nat -> nth_error cleanedList k = Some e ->
              valueOf c <= valueOf (evEndAt e).

Definition eventsBehind (cleanedList : list DayjsPeriod) (c : Dayjs) (eventIndex : Z) : Prop :=
  forall k e, eventIndex < 0 \/ (k < Z.to_nat eventIndex)%nat ->
              nth_error cleanedList k = Some e ->
              valueOf (evEndAt e) <= valueOf c.

(** What the slots pushed from a state of the sweep satisfy. *)
Definition sweepPost (configuration : TimeSlotsFinderConfiguration)
    (cleanedList : list DayjsPeriod) (searchEndMoment c : Dayjs)
    (slots : list TimeSlot) : Prop :=
  Forall (fun s => valueOf c - valueOf c mod msPerMinute
                   + orElse (minAvailableTimeBeforeSlot configuration) 0 * msPerMinute
                   <= slotStartAt s) slots
  /\ StronglySorted (apart (Z.max (orElse (minAvailableTimeBeforeSlot configuration) 0)
                                  (orElse (minAvailableTimeAfterSlot configuration) 0)))
                    slots
  /\ Forall (fun s => forall e, In e cleanedList ->
                        clearOf (orElse (minAvailableTimeBeforeSlot configuration) 0)
                                (orElse (minAvailableTimeAfterSlot configuration) 0) s e)
            slots
  /\ Forall (fun s => slotEndAt s
                      = slotStartAt s + timeSlotDuration configuration * msPerMinute
                      /\ slotStartAt s
                         < valueOf searchEndMoment
                           + (orElse (slotStartMinuteStep configuration) 5
                              + orElse (minAvailableTimeBeforeSlot configuration) 0)
                             * msPerMinute) slots.

(** An event from 15:20 to 15:30 on Thursday 2020-10-15. *)
Definition blocked_15h20_15h30 : DayjsPeriod :=
  mkEvent (mkDayjs (atUTC 2020 10 15 15 20 0 0) 0) (mkDayjs (atUTC 2020 10 15 15 30 0 0) 0).

(** ** The search as a whole *)

(** The configuration that [_checkSearchParameters] (dayjs) hands on: the
    caller's, with the shifts of every weekly period merged. *)
Definition mergedConfiguration (c : TimeSlotsFinderConfiguration)
    : TimeSlotsFinderConfiguration :=
  mkConfiguration (timeSlotDuration c)
    (_mergeOverlappingShiftsInAvailablePeriods (availablePeriods c))
    (slotStartMinuteStep c) (unavailablePeriods c)
    (minAvailableTimeBeforeSlot c) (minAvailableTimeAfterSlot c)
    (minTimeBeforeFirstSlot c) (maxDaysBeforeLastSlot c) (timeZone c).

(** The ranges that [_checkPrimitiveValue] (dayjs) enforces. *)
Definition primitivesInRange (c : TimeSlotsFinderConfiguration) : Prop :=
  1 <= timeSlotDuration c
  /\ 1 <= orElse (slotStartMinuteStep c) 5 <= 30
  /\ 0 <= orElse (minAvailableTimeBeforeSlot c) 0
  /\ 0 <= orElse (minAvailableTimeAfterSlot c) 0
  /\ 0 <= orElse (minTimeBeforeFirstSlot c) 0
  /\ 1 <= orElse (maxDaysBeforeLastSlot c) 1
  /\ exists off, zoneOffset (timeZone c) = Some off.


(** ** Termination of the dayjs search *)

(** The computation never runs out of fuel. *)
Definition neverOutOfFuel {A} (c : M A) : Prop :=
  forall clock n, fst (c clock n) <> OutOfFuel.

(** Enough fuel for the day loop between the two boundaries: one
    iteration per day started, plus the exit. *)
Definition dayFuel (firstFromMoment lastToMoment : Dayjs) : nat :=
  Z.to_nat (Z.max 0 ((valueOf lastToMoment - valueOf firstFromMoment) / msPerDay) + 3).

(** Days between the day of [fromMoment] and the day of [lastToMoment],
    both read in the zone of [fromMoment]. *)
Definition daysLeft (lastToMoment fromMoment : Dayjs) : Z :=
  (valueOf lastToMoment + utcOffset fromMoment * msPerMinute) / msPerDay
  - Dj.localMs fromMoment / msPerDay.

(** ** The luxon sweep as a grid of slots *)

(** The slot of [dur] minutes that starts at the instant [start]. *)
Definition slotAt (dur start : Z) : TimeSlot :=
  mkTimeSlot start (start + dur * msPerMinute) dur.

(** The first [count] back-to-back slots of [dur] minutes from [start]. *)
Fixpoint gridSlots (dur start : Z) (count : nat) : list TimeSlot :=
  match count with
  | O => []
  | S count' => slotAt dur start :: gridSlots dur (start + dur * msPerMinute) count'
  end.

(** The number of whole slots of [dur] minutes between [from] and [to]. *)
Definition slotCount (dur : Z) (from to : Dayjs) : nat :=
  Z.to_nat ((valueOf to - valueOf from) / (dur * msPerMinute)).

(** Slot [s] engulfs the event, in the sense of luxon's [Interval.engulfs]. *)
Definition slotEngulfs (s : TimeSlot) (event : LuxonImpl.LuxonPeriod) : bool :=
  LuxonImpl.engulfs (mkDayjs (slotStartAt s) 0) (mkDayjs (slotEndAt s) 0) event.

(** Slot [s] engulfs no event of the list. *)
Definition engulfsNone (eventList : list LuxonImpl.LuxonPeriod) (s : TimeSlot) : bool :=
  forallb (fun event => negb (slotEngulfs s event)) eventList.

(** Yearly periods in January: 1 to 5 January, and, with a year, 1 January
    to 1 June 2020. *)
Definition period_jan1_jan5 : Period :=
  mkPeriod (mkPeriodMoment None 0 1 None None) (mkPeriodMoment None 0 5 None None).
Definition period_jan_jun_2020 : Period :=
  mkPeriod (mkPeriodMoment (Some 2020) 0 1 None None)
           (mkPeriodMoment (Some 2020) 5 1 None None).

(** ** Readings of the clock in a search that returns *)

(** The readings that the validation of a blocked period takes when it
    accepts the period: one for each of the two moments, and two more to
    compare the moments of a period with years. *)
Definition validationReadings (p : Period) : nat :=
  match year (startAt p) with Some _ => 4 | None => 2 end.

(** The readings that a blocked period costs a search that returns: those
    of its validation, and four when it is turned into an event. *)
Definition periodReadings (p : Period) : nat := (validationReadings p + 4)%nat.

(** A computation that returns has taken exactly [k] readings. *)
Definition takes {A} (k : nat) (c : M A) : Prop :=
  forall (clock : Clock) (n : nat) (a : A) (n' : nat),
    c clock n = (Returned a, n') -> n' = (n + k)%nat.

(** A blocked period from 10:10 to 11:00 on 2020-10-15 in the test
    configuration, with a horizon of 30 days. *)
Definition params_blocked_horizon : TimeSlotsFinderParameters :=
  mkParams
    (mkConfiguration 10 [mkAvailablePeriod 4 [mkShift "12:00" "22:00"]]
       None (Some [blocked_10h10_11h; period_dec20_jan5]) None None None (Some 30) "UTC")
    (DateAt (atUTC 2020 10 15 15 0 0 0)) (DateAt (atUTC 2020 10 15 16 0 0 0)).

(* ===================================================================== *)
(** * Theorems *)

(** ** Properties of [localeCompare] *)

Lemma localeCompare_antisym a b : localeCompare b a = - localeCompare a b.
Proof.
  unfold localeCompare. rewrite (String.compare_antisym a b).
  destruct (String.compare b a); reflexivity.
Qed.

Lemma localeCompare_lt_iff a b : localeCompare a b < 0 <-> String_as_OT.lt a b.
Proof.
  unfold localeCompare. rewrite <- String_as_OT.cmp_lt. unfold String_as_OT.cmp.
  destruct (String.compare a b); split; intro H; try lia; try discriminate; reflexivity.
Qed.

Lemma localeCompare_eq_iff a b : localeCompare a b = 0 <-> a = b.
Proof.
  unfold localeCompare. rewrite <- String_as_OT.cmp_eq. unfold String_as_OT.cmp.
  destruct (String.compare a b); split; intro H; try lia; try discriminate; reflexivity.
Qed.

Lemma localeCompare_le_trans a b c :
  localeCompare a b <= 0 -> localeCompare b c <= 0 -> localeCompare a c <= 0.
Proof.
  intros H1 H2.
  assert (E1 : localeCompare a b < 0 \/ localeCompare a b = 0) by lia.
  assert (E2 : localeCompare b c < 0 \/ localeCompare b c = 0) by lia.
  destruct E1 as [E1|E1], E2 as [E2|E2];
    try (apply localeCompare_eq_iff in E1; subst);
    try (apply localeCompare_eq_iff in E2; subst); try lia.
  apply localeCompare_lt_iff in E1, E2.
  pose proof (String_as_OT.lt_trans _ _ _ E1 E2) as H.
  apply localeCompare_lt_iff in H. lia.
Qed.

(** ** ShiftMerger: the loop is the left-to-right pass *)

Lemma nth_error_prefix {A} (pre : list A) x rest :
  nth_error (pre ++ x :: rest) (List.length pre) = Some x.
Proof. induction pre; simpl; auto. Qed.

Lemma setAt_prefix {A} (pre : list A) x y rest :
  setAt (List.length pre) y (pre ++ x :: rest) = pre ++ y :: rest.
Proof. induction pre; simpl; congruence. Qed.

Lemma splice1_prefix {A} (pre : list A) x rest :
  splice1 (List.length pre) (pre ++ x :: rest) = pre ++ rest.
Proof. induction pre; simpl; congruence. Qed.

Lemma mergeLoop_mergeRun rest :
  forall fuel pre cur,
    (List.length rest <= fuel)%nat ->
    mergeLoop fuel (List.length pre) (pre ++ cur :: rest) = pre ++ mergeRun cur rest.
Proof.
  induction rest as [|nxt rest IH]; intros fuel pre cur Hfuel.
  - destruct fuel; simpl; auto.
    rewrite length_app; simpl.
    replace (List.length pre + 1 <? List.length pre + 1)%nat with false; auto.
    symmetry; apply Nat.ltb_ge; lia.
  - destruct fuel as [|fuel]; [simpl in Hfuel; lia|].
    simpl in Hfuel. cbn [mergeLoop mergeRun].
    replace (List.length pre + 1 <? List.length (pre ++ cur :: nxt :: rest))%nat with true
      by (symmetry; apply Nat.ltb_lt; rewrite length_app; simpl; lia).
    rewrite nth_error_prefix.
    assert (Hnxt : nth_error (pre ++ cur :: nxt :: rest) (List.length pre + 1) = Some nxt).
    { replace (pre ++ cur :: nxt :: rest) with ((pre ++ [cur]) ++ nxt :: rest)
        by (rewrite <- app_assoc; reflexivity).
      replace (List.length pre + 1)%nat with (List.length (pre ++ [cur]))
        by (rewrite length_app; reflexivity).
      apply nth_error_prefix. }
    rewrite Hnxt.
    destruct (0 <=? localeCompare (endTime cur) (startTime nxt)).
    + assert (Hsp : forall c, splice1 (List.length pre + 1) (pre ++ c :: nxt :: rest)
                              = pre ++ c :: rest).
      { intro c.
        replace (pre ++ c :: nxt :: rest) with ((pre ++ [c]) ++ nxt :: rest)
          by (rewrite <- app_assoc; reflexivity).
        replace (List.length pre + 1)%nat with (List.length (pre ++ [c]))
          by (rewrite length_app; reflexivity).
        rewrite splice1_prefix, <- app_assoc. reflexivity. }
      destruct (localeCompare (endTime cur) (endTime nxt) <? 0).
      * rewrite setAt_prefix, Hsp. apply IH; lia.
      * rewrite Hsp. apply IH; lia.
    + replace (pre ++ cur :: nxt :: rest) with ((pre ++ [cur]) ++ nxt :: rest)
        by (rewrite <- app_assoc; reflexivity).
      replace (List.length pre + 1)%nat with (List.length (pre ++ [cur]))
        by (rewrite length_app; reflexivity).
      rewrite IH by lia. rewrite <- app_assoc. reflexivity.
Qed.

Lemma insertShift_length x l : List.length (insertShift x l) = S (List.length l).
Proof.
  induction l as [|y l IH]; simpl; auto.
  destruct (localeCompare (startTime y) (startTime x) <? 0); simpl; auto.
Qed.

Lemma sortShifts_length l : List.length (sortShifts l) = List.length l.
Proof. induction l; simpl; auto. rewrite insertShift_length; auto. Qed.

Lemma mergeOverlappingShifts_eq l :
  _mergeOverlappingShifts l = mergeSorted (sortShifts l).
Proof.
  unfold _mergeOverlappingShifts.
  destruct l as [|a [|b l]]; try reflexivity.
  replace (List.length (a :: b :: l) <? 2)%nat with false by reflexivity.
  cbv zeta.
  destruct (sortShifts (a :: b :: l)) as [|x r] eqn:E.
  - apply (f_equal (@List.length Shift)) in E. rewrite sortShifts_length in E.
    simpl in E. discriminate.
  - simpl. apply (mergeLoop_mergeRun r (S (List.length r)) [] x). lia.
Qed.

(** ** ShiftMerger: shape of the result *)

Lemma insertShift_Forall x y l :
  startLe y x -> Forall (startLe y) l -> Forall (startLe y) (insertShift x l).
Proof.
  intros Hx Hl. induction l as [|z l IH]; simpl.
  - auto.
  - inversion Hl; subst.
    destruct (localeCompare (startTime z) (startTime x) <? 0); auto.
Qed.

Lemma insertShift_sorted x l :
  StronglySorted startLe l -> StronglySorted startLe (insertShift x l).
Proof.
  induction 1 as [|y l Hl IH Hy]; simpl.
  - repeat constructor.
  - destruct (localeCompare (startTime y) (startTime x) <? 0) eqn:E.
    + constructor; auto. apply insertShift_Forall; auto.
      apply Z.ltb_lt in E. unfold startLe. lia.
    + apply Z.ltb_ge in E.
      assert (Hxy : startLe x y).
      { unfold startLe. rewrite localeCompare_antisym. lia. }
      constructor; [constructor; auto|].
      constructor; auto.
      eapply Forall_impl; [|exact Hy].
      intros z Hz. unfold startLe in *. eapply localeCompare_le_trans; eauto.
Qed.

Lemma sortShifts_sorted l : StronglySorted startLe (sortShifts l).
Proof.
  induction l; simpl; [constructor | apply insertShift_sorted; auto].
Qed.

Lemma mergeRun_head cur rest :
  exists c l, mergeRun cur rest = c :: l /\ startTime c = startTime cur.
Proof.
  revert cur. induction rest as [|nxt rest IH]; intro cur; simpl.
  - eauto.
  - destruct (0 <=? localeCompare (endTime cur) (startTime nxt)).
    + destruct (IH (if localeCompare (endTime cur) (endTime nxt) <? 0
                    then mkShift (startTime cur) (endTime nxt) else cur))
        as (c & l & E & Hc).
      exists c, l. split; auto. rewrite Hc.
      destruct (localeCompare (endTime cur) (endTime nxt) <? 0); reflexivity.
    + eauto.
Qed.

Lemma mergeRun_Merged rest :
  forall cur,
    Forall (fun y => localeCompare (startTime cur) (startTime y) <= 0) rest ->
    StronglySorted startLe rest ->
    Merged (mergeRun cur rest).
Proof.
  induction rest as [|nxt rest IH]; intros cur Hcur Hs; simpl.
  - constructor.
  - inversion Hcur as [|? ? Hn Hr]; subst. inversion Hs as [|? ? Hs' Hall]; subst.
    destruct (0 <=? localeCompare (endTime cur) (startTime nxt)) eqn:E.
    + apply IH; auto.
      destruct (localeCompare (endTime cur) (endTime nxt) <? 0); simpl; auto.
    + apply Z.leb_gt in E.
      destruct (mergeRun_head nxt rest) as (c & l & El & Hc).
      specialize (IH nxt Hall Hs'). rewrite El in *.
      constructor; auto; unfold startLe; rewrite Hc; auto.
Qed.

Lemma Merged_tail x l : Merged (x :: l) -> Merged l.
Proof. inversion 1; subst; auto; constructor. Qed.

Lemma sortShifts_Merged l : Merged l -> sortShifts l = l.
Proof.
  induction l as [|x l IH]; intro H; simpl; auto.
  rewrite (IH (Merged_tail _ _ H)).
  inversion H as [| |? y l' Hle Hgap Hm]; subst; simpl; auto.
  unfold startLe in Hle.
  replace (localeCompare (startTime y) (startTime x) <? 0) with false; auto.
  symmetry. apply Z.ltb_ge. rewrite localeCompare_antisym. lia.
Qed.

Lemma mergeRun_Merged_id l : forall x, Merged (x :: l) -> mergeRun x l = x :: l.
Proof.
  induction l as [|y l IH]; intros x H; simpl; auto.
  inversion H as [| |? ? ? Hle Hgap Hm]; subst.
  replace (0 <=? localeCompare (endTime x) (startTime y)) with false
    by (symmetry; apply Z.leb_gt; auto).
  rewrite IH; auto.
Qed.

Lemma mergeOverlappingShifts_Merged l : Merged (_mergeOverlappingShifts l).
Proof.
  rewrite mergeOverlappingShifts_eq.
  pose proof (sortShifts_sorted l) as Hs.
  destruct (sortShifts l) as [|x r]; simpl; [constructor|].
  inversion Hs; subst. apply mergeRun_Merged; auto.
Qed.

(** C6. ShiftMerger is idempotent: merging the merged list gives it back;
    and a list of fewer than two shifts (empty, or a single shift) is
    returned as it is. *)
Theorem mergeOverlappingShifts_idempotent :
  (forall S : list Shift,
      _mergeOverlappingShifts (_mergeOverlappingShifts S) = _mergeOverlappingShifts S)
  /\ _mergeOverlappingShifts [] = []
  /\ (forall s : Shift, _mergeOverlappingShifts [s] = [s]).
Proof.
  split; [|split; [reflexivity | intro s; reflexivity]].
  intro S.
  pose proof (mergeOverlappingShifts_Merged S) as Hm.
  rewrite (mergeOverlappingShifts_eq (_mergeOverlappingShifts S)).
  rewrite (sortShifts_Merged _ Hm).
  destruct (_mergeOverlappingShifts S) as [|x l]; simpl; auto.
  apply mergeRun_Merged_id; auto.
Qed.

(** ** The two implementations on concrete inputs *)

(** C1. A slot that overlaps a blocked period is emitted.
    dayjs: the shift 10:01-10:02 with a step of 30 gives the slot
    10:30-10:31, inside the period blocked from 10:10 to 11:00: the cursor
    is rounded up after the loop test, past the end of the shift, where
    the blocked periods have been filtered out.
    luxon: a slot is only refused when it contains a whole blocked period,
    so both slots of the shift are emitted inside the long one. *)
Theorem emitted_slot_overlaps_blocked_period :
  (exists slots events s e,
      run (DayjsImpl.getAvailableTimeSlotsInCalendar 50
             (mkParams config_shortShift thursdayFrom thursdayTo))
          (frozenAt noon_2020_10_14) = Returned slots
      /\ run (DayjsImpl._getUnavailablePeriodAsEvents [blocked_10h10_11h] "UTC")
             (frozenAt noon_2020_10_14) = Returned events
      /\ In s slots /\ In e events
      /\ slotStartAt s = atUTC 2020 10 15 10 30 0 0
      /\ overlaps s (valueOf (evStartAt e)) (valueOf (evEndAt e)))
  /\
  (exists slots events s es ee,
      run (LuxonImpl.getAvailableTimeSlotsInCalendar 50
             (mkParams config_longBlock thursdayFrom thursdayTo))
          (frozenAt noon_2020_10_14) = Returned slots
      /\ run (LuxonImpl._getUnavailablePeriodAsEvents [blocked_2020_2021] "UTC")
             (frozenAt noon_2020_10_14) = Returned events
      /\ In s slots
      /\ In (LuxonImpl.mkLuxonPeriod (Some es) (Some ee)) events
      /\ overlaps s (valueOf es) (valueOf ee)).
Proof.
  split.
  - eexists. eexists. eexists. eexists.
    split; [vm_compute; reflexivity|].
    split; [vm_compute; reflexivity|].
    split; [left; reflexivity|].
    split; [left; reflexivity|].
    split; [reflexivity|].
    unfold overlaps; simpl; split; reflexivity.
  - eexists. eexists. eexists. eexists. eexists.
    split; [vm_compute; reflexivity|].
    split; [vm_compute; reflexivity|].
    split; [left; reflexivity|].
    split; [left; reflexivity|].
    unfold overlaps; simpl; split; reflexivity.
Qed.

(** C2. The two implementations differ.  On the configuration of the test
    "should use 5 as default for slotStartMinuteMultiple parameter" (clock
    at 15:03:12.592, window 15:00-16:00) the dayjs one starts its slots on
    minutes that are multiples of 5 (15:05, 15:15, ...), the luxon one
    starts them at the clock reading itself (15:03:12.592, 15:13:12.592,
    ...), which is not what its own test-suite expects. *)
Theorem implementations_differ :
  exists slotsDayjs slotsLuxon,
    run (DayjsImpl.getAvailableTimeSlotsInCalendar 50 params_step) clock_step
      = Returned slotsDayjs
    /\ run (LuxonImpl.getAvailableTimeSlotsInCalendar 50 params_step) clock_step
      = Returned slotsLuxon
    /\ map slotStartAt slotsDayjs
       = [atUTC 2020 10 15 15 5 0 0; atUTC 2020 10 15 15 15 0 0; atUTC 2020 10 15 15 25 0 0;
          atUTC 2020 10 15 15 35 0 0; atUTC 2020 10 15 15 45 0 0]
    /\ map slotStartAt slotsLuxon
       = [atUTC 2020 10 15 15 3 12 592; atUTC 2020 10 15 15 13 12 592;
          atUTC 2020 10 15 15 23 12 592; atUTC 2020 10 15 15 33 12 592;
          atUTC 2020 10 15 15 43 12 592]
    /\ slotsDayjs <> slotsLuxon.
Proof.
  eexists. eexists.
  split; [vm_compute; reflexivity|].
  split; [vm_compute; reflexivity|].
  split; [vm_compute; reflexivity|].
  split; [vm_compute; reflexivity|].
  discriminate.
Qed.

(** C5. The dayjs implementation accepts an empty search window
    ([from] equal to [to]): it returns the empty list where the luxon
    implementation throws.  Its [_checkSearchParameters] also lets an
    invalid [from] pass, which the luxon one refuses. *)
Theorem dayjs_accepts_empty_and_invalid_window :
  run (DayjsImpl.getAvailableTimeSlotsInCalendar 50
         (mkParams config_step thursdayFrom thursdayFrom)) clock_step = Returned []
  /\ run (LuxonImpl.getAvailableTimeSlotsInCalendar 50
            (mkParams config_step thursdayFrom thursdayFrom)) clock_step
     = Threw (TimeSlotsFinderError "Invalid date parameters")
  /\ run (DayjsImpl._checkSearchParameters config_step DateInvalid thursdayTo) clock_step
     = Returned config_step
  /\ run (LuxonImpl._checkSearchParameters config_step DateInvalid thursdayTo) clock_step
     = Threw (TimeSlotsFinderError "Invalid date parameters").
Proof. repeat split; vm_compute; reflexivity. Qed.

(** C7. The luxon implementation does not move the end of a yearly period
    that ends earlier in the year than it starts: the consolidated event
    ends before it starts.  The dayjs implementation moves the end of
    20 December - 5 January to 5 January of the next year. *)
Theorem luxon_keeps_end_before_start :
  (exists s e,
      run (LuxonImpl._getUnavailablePeriodAsEvents [period_wrapping] "UTC")
          (frozenAt noon_2020_10_14)
        = Returned [LuxonImpl.mkLuxonPeriod (Some s) (Some e)]
      /\ valueOf e < valueOf s)
  /\ run (LuxonImpl.isConfigurationValid
            (mkConfiguration 60 [] None (Some [period_wrapping]) None None None None "UTC"))
         (frozenAt noon_2020_10_14) = Returned true
  /\ run (DayjsImpl._getUnavailablePeriodAsEvents [period_dec20_jan5] "UTC")
         (frozenAt noon_2020_10_14)
     = Returned [mkEvent (mkDayjs (atUTC 2020 12 20 0 0 0 0) 0)
                         (mkDayjs (atUTC 2021 1 5 23 59 59 999) 0)].
Proof.
  split; [|split; vm_compute; reflexivity].
  eexists. eexists. split; [vm_compute; reflexivity|]. reflexivity.
Qed.

(** C10. A configuration with two overlapping shifts on Thursday is
    refused by [isConfigurationValid] ("Some shifts are overlapping ..."),
    and accepted by the dayjs [getAvailableTimeSlotsInCalendar], which
    validates the configuration after merging the shifts and returns the
    three one-hour slots of the merged shift 10:00-13:00. *)
Theorem overlapping_shifts_refused_alone_accepted_in_search :
  exists configuration from to clock usedConfig slots,
    run (DayjsImpl.isConfigurationValid configuration) clock
      = Threw (TimeSlotsFinderError "Some shifts are overlapping for available period nº1")
    /\ List.length (_mergeOverlappingShifts
                      (List.concat (map shifts (availablePeriods configuration))))
       <> List.length (List.concat (map shifts (availablePeriods configuration)))
    /\ run (DayjsImpl._checkSearchParameters configuration from to) clock
       = Returned usedConfig
    /\ map shifts (availablePeriods usedConfig) = [[mkShift "10:00" "13:00"]]
    /\ run (DayjsImpl.isConfigurationValid usedConfig) clock = Returned true
    /\ run (DayjsImpl.getAvailableTimeSlotsInCalendar 50
              (mkParams configuration from to)) clock = Returned slots
    /\ map slotStartAt slots
       = [atUTC 2020 10 15 10 0 0 0; atUTC 2020 10 15 11 0 0 0; atUTC 2020 10 15 12 0 0 0].
Proof.
  exists config_overlappingShifts, thursdayFrom, thursdayTo, (frozenAt noon_2020_10_14).
  eexists. eexists.
  split; [vm_compute; reflexivity|].
  split; [vm_compute; lia|].
  split; [vm_compute; reflexivity|].
  split; [vm_compute; reflexivity|].
  split; [vm_compute; reflexivity|].
  split; [vm_compute; reflexivity|].
  vm_compute; reflexivity.
Qed.

(** ** ConfigValidator: the only failure is a [TimeSlotsFinderError] *)

Lemma tofe_ret {A} (a : A) : throwsOnlyFinderErrors (ret a).
Proof. intros clock n; exact I. Qed.

Lemma tofe_throw {A} reason :
  reason <> EmptyString -> throwsOnlyFinderErrors (@throw A (TimeSlotsFinderError reason)).
Proof. intros H clock n; exact H. Qed.

Lemma tofe_bind {A B} (c : M A) (k : A -> M B) :
  throwsOnlyFinderErrors c -> (forall a, throwsOnlyFinderErrors (k a)) ->
  throwsOnlyFinderErrors (bind c k).
Proof.
  intros Hc Hk clock n. unfold bind. specialize (Hc clock n).
  destruct (c clock n) as [[a|e|] n']; simpl in *; auto. apply Hk.
Qed.

Lemma tofe_dayjs_now : throwsOnlyFinderErrors dayjs_now.
Proof. intros clock n; exact I. Qed.

Lemma tofe_readClock : throwsOnlyFinderErrors readClock.
Proof. intros clock n; exact I. Qed.

Ltac tofe :=
  repeat first
    [ assumption
    | apply tofe_ret
    | apply tofe_readClock
    | apply tofe_throw; discriminate
    | apply tofe_dayjs_now
    | apply tofe_bind; [|intro]
    | match goal with
      | |- throwsOnlyFinderErrors (if ?b then _ else _) => destruct b
      | |- throwsOnlyFinderErrors (match ?x with _ => _ end) => destruct x
      end ].

Lemma tofe_checkShifts l index : throwsOnlyFinderErrors (checkShifts l index).
Proof. induction l; simpl; tofe. Qed.

Lemma tofe_isAvailablePeriodValid p index :
  throwsOnlyFinderErrors (_isAvailablePeriodValid p index).
Proof.
  unfold _isAvailablePeriodValid.
  pose proof (tofe_checkShifts (shifts p) index). tofe.
Qed.

Lemma tofe_checkAvailablePeriods l :
  forall i, throwsOnlyFinderErrors (checkAvailablePeriods l i).
Proof.
  induction l; intro i; simpl; tofe.
  - apply tofe_isAvailablePeriodValid.
  - apply IHl.
Qed.

Lemma tofe_dayjs_checkTimeZone zone : throwsOnlyFinderErrors (DayjsImpl._checkTimeZone zone).
Proof.
  unfold DayjsImpl._checkTimeZone. destruct (String.eqb zone EmptyString); [tofe|].
  intros clock n. unfold tryCatch, bind, dayjs_now, readClock, tz, ret, throw; simpl.
  destruct (zoneOffset zone); simpl; [exact I | discriminate].
Qed.

Lemma tofe_dayjs_checkPrimitiveValue c :
  throwsOnlyFinderErrors (DayjsImpl._checkPrimitiveValue c).
Proof.
  unfold DayjsImpl._checkPrimitiveValue.
  pose proof (tofe_dayjs_checkTimeZone (timeZone c)). tofe.
Qed.

Lemma tofe_dayjs_isPeriodMomentValid p :
  throwsOnlyFinderErrors (DayjsImpl._isPeriodMomentValid p).
Proof. unfold DayjsImpl._isPeriodMomentValid. tofe. Qed.

Lemma tofe_dayjs_fromObject p : throwsOnlyFinderErrors (DayjsImpl.dayjs_fromObject p).
Proof. unfold DayjsImpl.dayjs_fromObject. tofe. Qed.

Lemma tofe_dayjs_isUnavailablePeriodValid p :
  throwsOnlyFinderErrors (DayjsImpl._isUnavailablePeriodValid p).
Proof.
  unfold DayjsImpl._isUnavailablePeriodValid.
  pose proof (tofe_dayjs_isPeriodMomentValid (startAt p)).
  pose proof (tofe_dayjs_isPeriodMomentValid (endAt p)).
  pose proof (tofe_dayjs_fromObject (startAt p)).
  pose proof (tofe_dayjs_fromObject (endAt p)).
  tofe.
Qed.

Lemma tofe_dayjs_checkUnavailablePeriods l :
  forall i, throwsOnlyFinderErrors (DayjsImpl.checkUnavailablePeriods l i).
Proof.
  induction l; intro i; simpl; tofe.
  - apply tofe_dayjs_isUnavailablePeriodValid.
  - apply IHl.
Qed.

Lemma tofe_luxon_checkTimeZone zone : throwsOnlyFinderErrors (LuxonImpl._checkTimeZone zone).
Proof.
  unfold LuxonImpl._checkTimeZone. destruct (String.eqb zone EmptyString); [tofe|].
  intros clock n. exact I.
Qed.

Lemma tofe_luxon_checkPrimitiveValue c :
  throwsOnlyFinderErrors (LuxonImpl._checkPrimitiveValue c).
Proof.
  unfold LuxonImpl._checkPrimitiveValue.
  pose proof (tofe_luxon_checkTimeZone (timeZone c)). tofe.
Qed.

Lemma tofe_luxon_isPeriodMomentValid p :
  throwsOnlyFinderErrors (LuxonImpl._isPeriodMomentValid p).
Proof. unfold LuxonImpl._isPeriodMomentValid. tofe. Qed.

Lemma tofe_luxon_fromObject p zone : throwsOnlyFinderErrors (LuxonImpl.fromObject p zone).
Proof.
  unfold LuxonImpl.fromObject. tofe.
Qed.

Lemma tofe_luxon_isUnavailablePeriodValid p :
  throwsOnlyFinderErrors (LuxonImpl._isUnavailablePeriodValid p).
Proof.
  unfold LuxonImpl._isUnavailablePeriodValid.
  pose proof (tofe_luxon_isPeriodMomentValid (startAt p)).
  pose proof (tofe_luxon_isPeriodMomentValid (endAt p)).
  pose proof (tofe_luxon_fromObject (startAt p) "UTC").
  pose proof (tofe_luxon_fromObject (endAt p) "UTC").
  tofe.
Qed.

Lemma tofe_luxon_checkUnavailablePeriods l :
  forall i, throwsOnlyFinderErrors (LuxonImpl.checkUnavailablePeriods l i).
Proof.
  induction l; intro i; simpl; tofe.
  - apply tofe_luxon_isUnavailablePeriodValid.
  - apply IHl.
Qed.

(** A validation that ends in [return true] returns [true] or throws a
    [TimeSlotsFinderError] with a reason. *)
Lemma returns_true_or_throws (c : M unit) clock n :
  throwsOnlyFinderErrors c ->
  fst (bind c (fun _ => ret true) clock n) = Returned true
  \/ exists reason, reason <> EmptyString
       /\ fst (bind c (fun _ => ret true) clock n) = Threw (TimeSlotsFinderError reason).
Proof.
  intro H. specialize (H clock n). unfold bind.
  destruct (c clock n) as [[[]|[reason|m|m|m]|] n']; simpl in *; auto; try contradiction.
  right. exists reason. auto.
Qed.

Lemma bind_assoc {A B C} (c : M A) (k : A -> M B) (h : B -> M C) :
  forall clock n, bind (bind c k) h clock n = bind c (fun a => bind (k a) h) clock n.
Proof.
  intros clock n. unfold bind. destruct (c clock n) as [[a|e|] n']; reflexivity.
Qed.

(** C9. [isConfigurationValid] never returns [false]: in both source
    files, on every configuration (and whatever the clock reads), it
    returns [true] or throws a [TimeSlotsFinderError] that carries a
    non-empty reason. *)
Theorem isConfigurationValid_true_or_throws :
  forall (configuration : TimeSlotsFinderConfiguration) (clock : Clock) (n : nat),
    (fst (DayjsImpl.isConfigurationValid configuration clock n) <> Returned false
     /\ (fst (DayjsImpl.isConfigurationValid configuration clock n) = Returned true
         \/ exists reason, reason <> EmptyString
              /\ fst (DayjsImpl.isConfigurationValid configuration clock n)
                 = Threw (TimeSlotsFinderError reason)))
    /\
    (fst (LuxonImpl.isConfigurationValid configuration clock n) <> Returned false
     /\ (fst (LuxonImpl.isConfigurationValid configuration clock n) = Returned true
         \/ exists reason, reason <> EmptyString
              /\ fst (LuxonImpl.isConfigurationValid configuration clock n)
                 = Threw (TimeSlotsFinderError reason))).
Proof.
  intros c clock n.
  assert (HD : fst (DayjsImpl.isConfigurationValid c clock n) = Returned true
               \/ exists reason, reason <> EmptyString
                    /\ fst (DayjsImpl.isConfigurationValid c clock n)
                       = Threw (TimeSlotsFinderError reason)).
  { unfold DayjsImpl.isConfigurationValid.
    rewrite <- bind_assoc, <- bind_assoc.
    apply returns_true_or_throws.
    pose proof (tofe_dayjs_checkPrimitiveValue c).
    pose proof (tofe_checkAvailablePeriods (availablePeriods c) 0).
    tofe. apply tofe_dayjs_checkUnavailablePeriods. }
  assert (HL : fst (LuxonImpl.isConfigurationValid c clock n) = Returned true
               \/ exists reason, reason <> EmptyString
                    /\ fst (LuxonImpl.isConfigurationValid c clock n)
                       = Threw (TimeSlotsFinderError reason)).
  { unfold LuxonImpl.isConfigurationValid.
    rewrite <- bind_assoc, <- bind_assoc.
    apply returns_true_or_throws.
    pose proof (tofe_luxon_checkPrimitiveValue c).
    pose proof (tofe_checkAvailablePeriods (availablePeriods c) 0).
    tofe. apply tofe_luxon_checkUnavailablePeriods. }
  split; (split; [|assumption]).
  - destruct HD as [E|(r & _ & E)]; rewrite E; discriminate.
  - destruct HL as [E|(r & _ & E)]; rewrite E; discriminate.
Qed.

(** ** Clock readings *)

Lemma local_ret {A} (a : A) : clockLocal (ret a).
Proof. intros c1 c2 n; simpl; split; auto. Qed.

Lemma local_throw {A} e : clockLocal (@throw A e).
Proof. intros c1 c2 n; simpl; split; auto. Qed.

Lemma local_outOfFuel {A} : clockLocal (@outOfFuel A).
Proof. intros c1 c2 n; simpl; split; auto. Qed.

Lemma local_readClock : clockLocal readClock.
Proof.
  intros c1 c2 n; simpl; split; [lia|].
  intro H. unfold readClock. rewrite (H n); auto.
Qed.

Lemma local_bind {A B} (c : M A) (k : A -> M B) :
  clockLocal c -> (forall a, clockLocal (k a)) -> clockLocal (bind c k).
Proof.
  intros Hc Hk c1 c2 n. unfold bind.
  destruct (Hc c1 c2 n) as [Hle Heq].
  destruct (c c1 n) as [[a|e|] n'] eqn:E; simpl in *.
  - destruct (Hk a c1 c2 n') as [Hle' Heq'].
    split; [lia|]. intro H.
    rewrite Heq by (intros k0 Hk0; apply H; lia).
    apply Heq'. intros k0 Hk0; apply H; lia.
  - split; auto. intro H. rewrite Heq; auto.
  - split; auto. intro H. rewrite Heq; auto.
Qed.

Lemma local_tryCatch {A} (c h : M A) :
  clockLocal c -> clockLocal h -> clockLocal (tryCatch c h).
Proof.
  intros Hc Hh c1 c2 n. unfold tryCatch.
  destruct (Hc c1 c2 n) as [Hle Heq].
  destruct (c c1 n) as [[a|e|] n'] eqn:E; simpl in *.
  - split; auto. intro H. rewrite Heq; auto.
  - destruct (Hh c1 c2 n') as [Hle' Heq'].
    split; [lia|]. intro H.
    rewrite Heq by (intros k0 Hk0; apply H; lia).
    apply Heq'. intros k0 Hk0; apply H; lia.
  - split; auto. intro H. rewrite Heq; auto.
Qed.

Ltac local :=
  repeat first
    [ assumption
    | match goal with H : _ |- clockLocal _ => apply H end
    | apply local_ret
    | apply local_throw
    | apply local_outOfFuel
    | apply local_readClock
    | apply local_tryCatch
    | apply local_bind; [|intro]
    | match goal with
      | |- clockLocal (if ?b then _ else _) => destruct b
      | |- clockLocal (match ?x with _ => _ end) => destruct x
      | |- clockLocal (let (_, _) := ?x in _) => destruct x
      end ].

Lemma local_dayjs_now : clockLocal dayjs_now.
Proof. unfold dayjs_now. local. Qed.

Lemma local_tz zone d : clockLocal (tz zone d).
Proof. unfold tz. local. Qed.

Lemma local_checkShifts l index : clockLocal (checkShifts l index).
Proof. induction l; simpl; local. Qed.

Lemma local_isAvailablePeriodValid p index : clockLocal (_isAvailablePeriodValid p index).
Proof.
  unfold _isAvailablePeriodValid. pose proof (local_checkShifts (shifts p) index). local.
Qed.

Lemma local_checkAvailablePeriods l : forall i, clockLocal (checkAvailablePeriods l i).
Proof.
  induction l; intro i; simpl; [local|].
  pose proof (local_isAvailablePeriodValid a). local.
Qed.

Lemma local_checkTimeZone zone : clockLocal (DayjsImpl._checkTimeZone zone).
Proof.
  unfold DayjsImpl._checkTimeZone.
  pose proof local_dayjs_now. pose proof (local_tz zone). local.
Qed.

Lemma local_checkPrimitiveValue c : clockLocal (DayjsImpl._checkPrimitiveValue c).
Proof.
  unfold DayjsImpl._checkPrimitiveValue.
  pose proof (local_checkTimeZone (timeZone c)). local.
Qed.

Lemma local_isPeriodMomentValid p : clockLocal (DayjsImpl._isPeriodMomentValid p).
Proof. unfold DayjsImpl._isPeriodMomentValid. pose proof local_dayjs_now. local. Qed.

Lemma local_fromObject p : clockLocal (DayjsImpl.dayjs_fromObject p).
Proof. unfold DayjsImpl.dayjs_fromObject. pose proof local_dayjs_now. local. Qed.

Lemma local_isUnavailablePeriodValid p : clockLocal (DayjsImpl._isUnavailablePeriodValid p).
Proof.
  unfold DayjsImpl._isUnavailablePeriodValid.
  pose proof (local_isPeriodMomentValid (startAt p)).
  pose proof (local_isPeriodMomentValid (endAt p)).
  pose proof (local_fromObject (startAt p)).
  pose proof (local_fromObject (endAt p)).
  local.
Qed.

Lemma local_checkUnavailablePeriods l :
  forall i, clockLocal (DayjsImpl.checkUnavailablePeriods l i).
Proof.
  induction l; intro i; simpl; [local|].
  pose proof (local_isUnavailablePeriodValid a). local.
Qed.

Lemma local_isConfigurationValid c : clockLocal (DayjsImpl.isConfigurationValid c).
Proof.
  unfold DayjsImpl.isConfigurationValid.
  pose proof (local_checkPrimitiveValue c).
  pose proof (local_checkAvailablePeriods (availablePeriods c) 0).
  pose proof local_checkUnavailablePeriods. local.
Qed.

Lemma local_checkSearchParameters c from to :
  clockLocal (DayjsImpl._checkSearchParameters c from to).
Proof.
  unfold DayjsImpl._checkSearchParameters.
  destruct (_ || _ || _); [local|].
  apply local_bind; [apply local_isConfigurationValid | intro; local].
Qed.

Lemma local_tzOfObject p zone : clockLocal (DayjsImpl.dayjs_tzOfObject p zone).
Proof.
  unfold DayjsImpl.dayjs_tzOfObject. pose proof (local_fromObject p). local.
Qed.

Lemma local_unavailablePeriodAsEvent p zone :
  clockLocal (DayjsImpl.unavailablePeriodAsEvent p zone).
Proof.
  unfold DayjsImpl.unavailablePeriodAsEvent, DayjsImpl.resolveUnavailablePeriod.
  pose proof (local_tzOfObject (startAt p) zone).
  pose proof (local_tzOfObject (endAt p) zone).
  local.
Qed.

Lemma local_getUnavailablePeriodAsEvents l zone :
  clockLocal (DayjsImpl._getUnavailablePeriodAsEvents l zone).
Proof.
  induction l; simpl; [local|].
  pose proof (local_unavailablePeriodAsEvent a zone). local.
Qed.

Lemma local_ofDate d zone : clockLocal (DayjsImpl.dayjs_ofDate d zone).
Proof.
  unfold DayjsImpl.dayjs_ofDate.
  pose proof (local_tz zone). destruct d; local.
Qed.

Lemma local_computeBoundaries from to c : clockLocal (DayjsImpl._computeBoundaries from to c).
Proof.
  unfold DayjsImpl._computeBoundaries.
  pose proof local_dayjs_now. pose proof (local_tz (timeZone c)).
  pose proof (local_ofDate from (timeZone c)). pose proof (local_ofDate to (timeZone c)).
  local.
Qed.

Lemma local_getAvailableTimeSlotsInCalendar fuel params :
  clockLocal (DayjsImpl.getAvailableTimeSlotsInCalendar fuel params).
Proof.
  unfold DayjsImpl.getAvailableTimeSlotsInCalendar.
  apply local_bind; [apply local_checkSearchParameters | intro usedConfig].
  apply local_bind; [apply local_getUnavailablePeriodAsEvents | intro eventList].
  apply local_bind; [apply local_computeBoundaries | intro boundaries].
  local.
Qed.

(** Counting the readings. *)

Lemma bind_returned {A B} (c : M A) (k : A -> M B) clock n b n' :
  bind c k clock n = (Returned b, n') ->
  exists a n1, c clock n = (Returned a, n1) /\ k a clock n1 = (Returned b, n').
Proof.
  unfold bind. destruct (c clock n) as [[a|e|] n1]; try discriminate. eauto.
Qed.



Lemma readsAtLeast_weaken {A} j k (c : M A) :
  (j <= k)%nat -> readsAtLeast k c -> readsAtLeast j c.
Proof. intros Hjk H clock n a n' E. specialize (H clock n a n' E). lia. Qed.









(** ** The sweep of one shift window *)

Lemma rem_step_bounds m step :
  0 <= m -> 1 <= step -> 0 <= Z.rem (step - Z.rem m step) step < step.
Proof.
  intros Hm Hs.
  assert (H1 : 0 <= Z.rem m step < step) by (apply Z.rem_bound_pos; lia).
  apply Z.rem_bound_pos; lia.
Qed.

Lemma minute_nonneg d : 0 <= Dj.minute d.
Proof.
  unfold Dj.minute, msPerHour, msPerMinute.
  apply Z.div_pos; [|lia]. apply Z.mod_pos_bound. lia.
Qed.

Lemma minute_as_mod d : Dj.minute d = (Dj.localMs d / 60000) mod 60.
Proof.
  unfold Dj.minute, msPerHour, msPerMinute.
  generalize (Dj.localMs d). intro L.
  Z.to_euclidean_division_equations. lia.
Qed.

Lemma nextSearchMoment_offset configuration c :
  utcOffset (DayjsImpl._nextSearchMoment c configuration) = utcOffset c.
Proof.
  unfold DayjsImpl._nextSearchMoment.
  destruct (negb (Dj.second c =? 0)); reflexivity.
Qed.

(** The moment the rounding starts from: the cursor, or the next whole
    minute when the cursor has seconds. *)
Lemma nextMoment_cases c :
  let nm := if negb (Dj.second c =? 0)
            then Dj.add_minute 1 (Dj.startOf_minute c) else c in
  utcOffset nm = utcOffset c
  /\ (Dj.localMs c mod 60000 / 1000 = 0 /\ valueOf nm = valueOf c
      \/ Dj.localMs c mod 60000 / 1000 <> 0
         /\ valueOf nm = valueOf c - Dj.localMs c mod 60000 + 60000).
Proof.
  cbv zeta. unfold Dj.second, msPerMinute, msPerSecond.
  destruct (Dj.localMs c mod 60000 / 1000 =? 0) eqn:E; simpl.
  - apply Z.eqb_eq in E. auto.
  - apply Z.eqb_neq in E. split; auto. right. split; auto.
    unfold Dj.withLocalMs, Dj.localMs, msPerMinute. cbn [valueOf utcOffset]. lia.
Qed.

(** The rounding moves the cursor back by less than a second (the
    milliseconds of a cursor on a whole minute are dropped) and forward
    by less than [step] minutes. *)
Lemma nextSearchMoment_bounds configuration c :
  1 <= orElse (slotStartMinuteStep configuration) 5 ->
  valueOf c - 999 <= valueOf (DayjsImpl._nextSearchMoment c configuration)
  /\ valueOf (DayjsImpl._nextSearchMoment c configuration)
     < valueOf c + orElse (slotStartMinuteStep configuration) 5 * msPerMinute.
Proof.
  intro Hstep. unfold DayjsImpl._nextSearchMoment.
  destruct (nextMoment_cases c) as [Hoff Hv].
  remember (if negb (Dj.second c =? 0)
            then Dj.add_minute 1 (Dj.startOf_minute c) else c) as nm eqn:Enm.
  clear Enm.
  remember (orElse (slotStartMinuteStep configuration) 5) as step eqn:Estep.
  remember (Z.rem (step - Z.rem (Dj.minute
              (Dj.add_minute (orElse (minAvailableTimeBeforeSlot configuration) 0) nm))
              step) step) as a eqn:Ea.
  assert (Ha : 0 <= a < step)
    by (subst a; apply rem_step_bounds; [apply minute_nonneg | assumption]).
  clear Ea Estep.
  unfold Dj.set_millisecond, Dj.millisecond, Dj.withLocalMs, Dj.add_minute, Dj.localMs in *.
  cbn [valueOf utcOffset] in *. rewrite Hoff.
  unfold msPerMinute, msPerSecond in *.
  destruct Hv as [[Hs Hv]|[Hs Hv]]; rewrite Hv.
  - clear Hs. Z.to_euclidean_division_equations. lia.
  - Z.to_euclidean_division_equations. lia.
Qed.

Lemma round_up_to_step q step :
  1 <= step -> (q + (step - q mod step) mod step) mod step = 0.
Proof.
  intro Hs.
  pose proof (Z.mod_pos_bound q step ltac:(lia)) as Hq.
  destruct (Z.eq_dec (q mod step) 0) as [E|E].
  - rewrite E, Z.sub_0_r, Z.mod_same, Z.add_0_r by lia. exact E.
  - rewrite (Z.mod_small (step - q mod step) step) by lia.
    replace (q + (step - q mod step)) with ((q / step + 1) * step).
    + apply Z.mod_mul. lia.
    + pose proof (Z.div_mod q step ltac:(lia)). lia.
Qed.

(** The slot start computed from a cursor is on a multiple of the step,
    when an hour is a whole number of steps. *)
Lemma nextSearchMoment_aligned configuration c :
  1 <= orElse (slotStartMinuteStep configuration) 5 ->
  60 mod orElse (slotStartMinuteStep configuration) 5 = 0 ->
  Dj.minute (Dj.add_minute (orElse (minAvailableTimeBeforeSlot configuration) 0)
               (DayjsImpl._nextSearchMoment c configuration))
  mod orElse (slotStartMinuteStep configuration) 5 = 0.
Proof.
  intros Hstep Hdiv. unfold DayjsImpl._nextSearchMoment.
  destruct (nextMoment_cases c) as [Hoff _].
  remember (if negb (Dj.second c =? 0)
            then Dj.add_minute 1 (Dj.startOf_minute c) else c) as nm eqn:Enm.
  clear Enm.
  remember (orElse (slotStartMinuteStep configuration) 5) as step eqn:Estep.
  remember (orElse (minAvailableTimeBeforeSlot configuration) 0) as before eqn:Ebefore.
  clear Estep Ebefore.
  rewrite !minute_as_mod.
  set (q := Dj.localMs (Dj.add_minute before nm) / 60000).
  assert (Hq60 : 0 <= q mod 60 < 60) by (apply Z.mod_pos_bound; lia).
  assert (Hqs : 0 <= (q mod 60) mod step < step) by (apply Z.mod_pos_bound; lia).
  rewrite (Z.rem_mod_nonneg (q mod 60) step) by lia.
  rewrite (Z.rem_mod_nonneg (step - (q mod 60) mod step) step) by lia.
  assert (Hdvd : (step | 60)) by (apply Z.mod_divide; lia).
  rewrite (Z.mod_mod_divide q 60 step Hdvd) in *.
  set (a := (step - q mod step) mod step).
  assert (Ha : Dj.localMs (Dj.add_minute before
                 (Dj.set_millisecond 0 (Dj.add_minute a nm))) / 60000 = q + a).
  { subst q. clearbody a.
    unfold Dj.set_millisecond, Dj.millisecond, Dj.withLocalMs, Dj.add_minute, Dj.localMs.
    cbn [valueOf utcOffset]. unfold msPerMinute, msPerSecond.
    Z.to_euclidean_division_equations. lia. }
  rewrite Ha.
  rewrite (Z.mod_mod_divide (q + a) 60 step Hdvd).
  apply round_up_to_step. assumption.
Qed.

Lemma pushNewSlot_slot configuration sm :
  snd (DayjsImpl._pushNewSlot sm configuration)
  = mkTimeSlot
      (valueOf sm + orElse (minAvailableTimeBeforeSlot configuration) 0 * msPerMinute)
      (valueOf sm + orElse (minAvailableTimeBeforeSlot configuration) 0 * msPerMinute
       + timeSlotDuration configuration * msPerMinute)
      (Dj.diff_minute
         (Dj.add_minute (timeSlotDuration configuration)
            (Dj.add_minute (orElse (minAvailableTimeBeforeSlot configuration) 0) sm))
         (Dj.add_minute (orElse (minAvailableTimeBeforeSlot configuration) 0) sm)).
Proof. reflexivity. Qed.

Lemma pushNewSlot_cursor configuration sm :
  utcOffset (fst (DayjsImpl._pushNewSlot sm configuration)) = utcOffset sm
  /\ valueOf (fst (DayjsImpl._pushNewSlot sm configuration))
     = valueOf sm
       + (orElse (minAvailableTimeBeforeSlot configuration) 0
          + timeSlotDuration configuration
          + Z.max (orElse (minAvailableTimeAfterSlot configuration) 0
                   - orElse (minAvailableTimeBeforeSlot configuration) 0) 0) * msPerMinute.
Proof.
  unfold DayjsImpl._pushNewSlot, Dj.add_minute. cbn [fst valueOf utcOffset].
  split; [reflexivity | lia].
Qed.

Section SearchLoopInvariant.

Variable configuration : TimeSlotsFinderConfiguration.
Variable cleanedList : list DayjsPeriod.
Variable searchEndMoment : Dayjs.
Variable Inv : Dayjs -> Prop.
Variable P : TimeSlot -> Prop.

Hypothesis Inv_events : forall e, In e cleanedList -> Inv (evEndAt e).
Hypothesis Inv_push :
  forall c, Inv c ->
    Inv (fst (DayjsImpl._pushNewSlot (DayjsImpl._nextSearchMoment c configuration)
                                     configuration)).
Hypothesis P_push :
  forall c, Inv c -> valueOf c <= valueOf searchEndMoment ->
    P (snd (DayjsImpl._pushNewSlot (DayjsImpl._nextSearchMoment c configuration)
                                   configuration)).

(** Every slot of the sweep is pushed from a cursor that passed the loop
    test, and every cursor is the start, the end of a blocking event, or
    the cursor left by a slot. *)
Lemma searchLoop_Forall :
  forall fuel searchMoment eventIndex slots,
    Inv searchMoment ->
    DayjsImpl.searchLoop fuel configuration cleanedList searchEndMoment
                         searchMoment eventIndex = Some slots ->
    Forall P slots.
Proof.
  induction fuel as [|fuel IH]; intros sm idx slots Hinv E; [discriminate|].
  cbn [DayjsImpl.searchLoop] in E.
  destruct (Dj.isSameOrBefore sm searchEndMoment) eqn:Hle;
    [|inversion E; constructor].
  apply Z.leb_le in Hle.
  assert (Hpush :
    forall r,
      (let (newSearchMoment, timeSlot) :=
         DayjsImpl._pushNewSlot (DayjsImpl._nextSearchMoment sm configuration)
                                configuration in
       option_map (cons timeSlot)
         (DayjsImpl.searchLoop fuel configuration cleanedList searchEndMoment
                               newSearchMoment idx)) = Some r ->
      Forall P r).
  { intros r Hr.
    pose proof (Inv_push sm Hinv) as Hi. pose proof (P_push sm Hinv Hle) as Hp.
    destruct (DayjsImpl._pushNewSlot (DayjsImpl._nextSearchMoment sm configuration)
                                     configuration) as [nsm ts].
    cbn [fst snd] in *.
    destruct (DayjsImpl.searchLoop fuel configuration cleanedList searchEndMoment nsm idx)
      as [rest|] eqn:Er; [|discriminate].
    inversion Hr; subst. constructor; auto. eapply IH; eauto. }
  destruct (if 0 <=? idx then nth_error cleanedList (Z.to_nat idx) else None)
    as [focused|] eqn:Ef.
  - destruct (Dj.isBefore (evStartAt focused)
                (Dj.add_minute (DayjsImpl._getMinTimeWindowNeeded configuration)
                   (DayjsImpl._nextSearchMoment sm configuration))).
    + eapply IH; [|exact E]. apply Inv_events.
      destruct (0 <=? idx); [|discriminate].
      eapply nth_error_In; eauto.
    + apply Hpush; assumption.
  - apply Hpush; assumption.
Qed.

End SearchLoopInvariant.

Section SearchLoopTermination.

Variable configuration : TimeSlotsFinderConfiguration.
Variable cleanedList : list DayjsPeriod.
Variable searchEndMoment : Dayjs.
Variable lowest : Z.

Hypothesis duration_pos : 1 <= timeSlotDuration configuration.
Hypothesis before_nonneg : 0 <= orElse (minAvailableTimeBeforeSlot configuration) 0.
Hypothesis step_pos : 1 <= orElse (slotStartMinuteStep configuration) 5.
Hypothesis events_end_later :
  forall e, In e cleanedList -> lowest <= valueOf (evEndAt e).

Lemma remainingSlots_bound sm :
  lowest <= valueOf sm ->
  0 <= remainingSlots searchEndMoment sm <= slotsPerRun searchEndMoment lowest.
Proof.
  intro H. unfold remainingSlots, slotsPerRun.
  destruct (valueOf sm <=? valueOf searchEndMoment) eqn:E; [|lia].
  apply Z.leb_le in E.
  assert ((valueOf searchEndMoment - valueOf sm) / 59001
          <= (valueOf searchEndMoment - lowest) / 59001)
    by (apply Z.div_le_mono; lia).
  assert (0 <= (valueOf searchEndMoment - valueOf sm) / 59001)
    by (apply Z.div_pos; lia).
  lia.
Qed.

Lemma searchLoop_terminates :
  forall fuel searchMoment eventIndex,
    lowest <= valueOf searchMoment ->
    remainingEvents cleanedList eventIndex * (slotsPerRun searchEndMoment lowest + 1)
    + remainingSlots searchEndMoment searchMoment
      < Z.of_nat fuel ->
    exists slots,
      DayjsImpl.searchLoop fuel configuration cleanedList searchEndMoment
                           searchMoment eventIndex = Some slots.
Proof.
  induction fuel as [|fuel IH]; intros sm idx Hlow Hfuel.
  - exfalso.
    pose proof (remainingSlots_bound sm Hlow).
    assert (0 <= remainingEvents cleanedList idx)
      by (unfold remainingEvents; destruct (0 <=? idx); lia).
    assert (0 <= slotsPerRun searchEndMoment lowest + 1) by (unfold slotsPerRun; lia).
    assert (0 <= remainingEvents cleanedList idx * (slotsPerRun searchEndMoment lowest + 1))
      by (apply Z.mul_nonneg_nonneg; lia).
    simpl in Hfuel. lia.
  - cbn [DayjsImpl.searchLoop].
    destruct (Dj.isSameOrBefore sm searchEndMoment) eqn:Hle; [|eauto].
    unfold Dj.isSameOrBefore in Hle.
    assert (Hpush :
      exists r,
        (let (newSearchMoment, timeSlot) :=
           DayjsImpl._pushNewSlot (DayjsImpl._nextSearchMoment sm configuration)
                                  configuration in
         option_map (cons timeSlot)
           (DayjsImpl.searchLoop fuel configuration cleanedList searchEndMoment
                                 newSearchMoment idx)) = Some r).
    { destruct (pushNewSlot_cursor configuration
                  (DayjsImpl._nextSearchMoment sm configuration)) as [_ Hv].
      destruct (nextSearchMoment_bounds configuration sm step_pos) as [Hlo _].
      destruct (DayjsImpl._pushNewSlot (DayjsImpl._nextSearchMoment sm configuration)
                                       configuration) as [nsm ts].
      cbn [fst] in Hv. unfold msPerMinute in Hv.
      assert (Hadv : valueOf sm + 59001 <= valueOf nsm) by lia.
      destruct (IH nsm idx) as [rest Hrest]; [lia| |rewrite Hrest; simpl; eauto].
      assert (remainingSlots searchEndMoment nsm + 1 <= remainingSlots searchEndMoment sm).
      { unfold remainingSlots. rewrite Hle.
        destruct (valueOf nsm <=? valueOf searchEndMoment) eqn:E.
        - apply Z.leb_le in E, Hle.
          assert ((valueOf searchEndMoment - valueOf nsm) / 59001 + 1
                  <= (valueOf searchEndMoment - valueOf sm) / 59001).
          { replace ((valueOf searchEndMoment - valueOf nsm) / 59001 + 1)
              with ((valueOf searchEndMoment - valueOf nsm + 1 * 59001) / 59001)
              by (rewrite Z.div_add; lia).
            apply Z.div_le_mono; lia. }
          lia.
        - apply Z.leb_le in Hle.
          assert (0 <= (valueOf searchEndMoment - valueOf sm) / 59001)
            by (apply Z.div_pos; lia).
          lia. }
      lia. }
    destruct (if 0 <=? idx then nth_error cleanedList (Z.to_nat idx) else None)
      as [focused|] eqn:Ef; [|exact Hpush].
    destruct (Dj.isBefore (evStartAt focused)
                (Dj.add_minute (DayjsImpl._getMinTimeWindowNeeded configuration)
                   (DayjsImpl._nextSearchMoment sm configuration))); [|exact Hpush].
    destruct (0 <=? idx) eqn:Hidx; [|discriminate].
    apply Z.leb_le in Hidx.
    assert (Hin : In focused cleanedList) by (eapply nth_error_In; eauto).
    assert (Hlen : (Z.to_nat idx < List.length cleanedList)%nat)
      by (apply nth_error_Some; rewrite Ef; discriminate).
    apply IH; [apply events_end_later; assumption|].
    pose proof (remainingSlots_bound (evEndAt focused) (events_end_later _ Hin)) as Hb.
    assert (Hsm : 1 <= remainingSlots searchEndMoment sm).
    { unfold remainingSlots. rewrite Hle. apply Z.leb_le in Hle.
      assert (0 <= (valueOf searchEndMoment - valueOf sm) / 59001)
        by (apply Z.div_pos; lia).
      lia. }
    assert (Hrem : remainingEvents cleanedList (idx + 1) = remainingEvents cleanedList idx - 1).
    { unfold remainingEvents.
      replace (0 <=? idx + 1) with true by (symmetry; apply Z.leb_le; lia).
      replace (0 <=? idx) with true by (symmetry; apply Z.leb_le; lia).
      lia. }
    rewrite Hrem, Z.mul_sub_distr_r. lia.
Qed.

End SearchLoopTermination.

(** ** Preparing the blocking events keeps a part of them *)

Lemma insertPeriod_In e p l : In e (DayjsImpl.insertPeriod p l) -> e = p \/ In e l.
Proof.
  induction l as [|y l IH]; simpl.
  - intros [H|[]]; auto.
  - destruct (Dj.isAfter (evStartAt p) (evStartAt y)); simpl.
    + intros [H|H]; auto. destruct (IH H); auto.
    + intros [H|[H|H]]; auto.
Qed.

Lemma insertPeriod_length p l :
  List.length (DayjsImpl.insertPeriod p l) = S (List.length l).
Proof.
  induction l as [|y l IH]; simpl; auto.
  destruct (Dj.isAfter (evStartAt p) (evStartAt y)); simpl; auto.
Qed.

Lemma sortPeriods_acc l :
  forall acc,
    (forall e, In e (fold_left (fun sorted pivot => DayjsImpl.insertPeriod pivot sorted) l acc)
               -> In e l \/ In e acc)
    /\ List.length (fold_left (fun sorted pivot => DayjsImpl.insertPeriod pivot sorted) l acc)
       = (List.length l + List.length acc)%nat.
Proof.
  induction l as [|p l IH]; intro acc; simpl.
  - auto.
  - destruct (IH (DayjsImpl.insertPeriod p acc)) as [Hin Hlen]. split.
    + intros e He. destruct (Hin e He) as [H|H]; auto.
      destruct (insertPeriod_In _ _ _ H); auto.
    + rewrite Hlen, insertPeriod_length. lia.
Qed.

Lemma prepareEvents_In periods from to e :
  In e (DayjsImpl._prepareEvents periods from to) ->
  In e periods /\ valueOf from < valueOf (evEndAt e).
Proof.
  unfold DayjsImpl._prepareEvents, DayjsImpl._sortPeriods, DayjsImpl._filterPeriods.
  intro H. apply filter_In in H. destruct H as [H _].
  destruct (sortPeriods_acc
              (filter (fun period => Dj.isBefore (evStartAt period) to
                                     && Dj.isAfter (evEndAt period) from) periods) [])
    as [Hin _].
  destruct (Hin e H) as [H1|[]].
  apply filter_In in H1. destruct H1 as [H1 H2].
  apply andb_true_iff in H2. destruct H2 as [_ H2].
  apply Z.ltb_lt in H2. auto.
Qed.

Lemma filter_length_bound {A} (f : A -> bool) l :
  (List.length (filter f l) <= List.length l)%nat.
Proof. induction l; simpl; [lia|]. destruct (f a); simpl; lia. Qed.

Lemma prepareEvents_length periods from to :
  (List.length (DayjsImpl._prepareEvents periods from to) <= List.length periods)%nat.
Proof.
  unfold DayjsImpl._prepareEvents, DayjsImpl._sortPeriods.
  eapply Nat.le_trans; [apply filter_length_bound|].
  destruct (sortPeriods_acc (DayjsImpl._filterPeriods periods from to) []) as [_ Hlen].
  rewrite Hlen. simpl. unfold DayjsImpl._filterPeriods.
  pose proof (filter_length_bound
                (fun period => Dj.isBefore (evStartAt period) to
                               && Dj.isAfter (evEndAt period) from) periods).
  lia.
Qed.

(** The sweep of a shift window returns, with [searchFuel] units of fuel,
    for a configuration that passed the validation of its primitive
    values. *)
Lemma getAvailableTimeSlotsForShift_returns configuration eventList from to :
  1 <= timeSlotDuration configuration ->
  0 <= orElse (minAvailableTimeBeforeSlot configuration) 0 ->
  1 <= orElse (slotStartMinuteStep configuration) 5 ->
  exists slots,
    DayjsImpl._getAvailableTimeSlotsForShift (searchFuel eventList from to)
      configuration eventList from to = Some slots.
Proof.
  intros Hdur Hbefore Hstep. unfold DayjsImpl._getAvailableTimeSlotsForShift.
  set (before := orElse (minAvailableTimeBeforeSlot configuration) 0) in *.
  set (cleaned := DayjsImpl._prepareEvents eventList (Dj.subtract_minute before from)
                    (Dj.add_minute (timeSlotDuration configuration + before) to)).
  set (searchEnd := Dj.subtract_minute (timeSlotDuration configuration + before) to).
  set (idx := DayjsImpl.findIndex _ cleaned 0).
  apply (searchLoop_terminates configuration cleaned searchEnd
           (valueOf (Dj.subtract_minute before from)) Hdur Hbefore Hstep).
  - intros e He. apply prepareEvents_In in He. lia.
  - lia.
  - pose proof (prepareEvents_length eventList (Dj.subtract_minute before from)
                  (Dj.add_minute (timeSlotDuration configuration + before) to)) as Hlen.
    fold cleaned in Hlen.
    pose proof (remainingSlots_bound searchEnd (valueOf (Dj.subtract_minute before from))
                  (Dj.subtract_minute before from) (Z.le_refl _)) as Hslots.
    assert (Hev : 0 <= remainingEvents cleaned idx <= Z.of_nat (List.length eventList)).
    { unfold remainingEvents.
      destruct (0 <=? idx) eqn:E; [apply Z.leb_le in E|]; lia. }
    assert (Hrun : 1 <= slotsPerRun searchEnd (valueOf (Dj.subtract_minute before from))
                   <= Z.max 0 ((valueOf to - valueOf from) / 59001) + 1).
    { unfold slotsPerRun. split; [lia|].
      assert ((valueOf searchEnd - valueOf (Dj.subtract_minute before from)) / 59001
              <= (valueOf to - valueOf from) / 59001).
      { apply Z.div_le_mono; [lia|].
        unfold searchEnd, Dj.subtract_minute, msPerMinute. cbn [valueOf]. lia. }
      lia. }
    unfold searchFuel.
    set (K := Z.max 0 ((valueOf to - valueOf from) / 59001)) in *.
    set (R := remainingEvents cleaned idx) in *.
    set (S0 := slotsPerRun searchEnd (valueOf (Dj.subtract_minute before from))) in *.
    set (n := Z.of_nat (List.length eventList)) in *.
    assert (HK : 0 <= K) by (unfold K; lia).
    assert (R * (S0 + 1) <= n * (K + 2)) by (apply Z.mul_le_mono_nonneg; lia).
    rewrite Z2Nat.id by nia.
    nia.
Qed.





(** ** The search window test of the dayjs implementation *)

Lemma nt_ret {A} e (a : A) : neverThrows e (ret a).
Proof. intros clock n; discriminate. Qed.

Lemma nt_readClock e : neverThrows e readClock.
Proof. intros clock n; discriminate. Qed.

Lemma nt_throw {A} e e' : e' <> e -> neverThrows e (@throw A e').
Proof. intros H clock n E. inversion E. contradiction. Qed.

Lemma nt_bind {A B} e (c : M A) (k : A -> M B) :
  neverThrows e c -> (forall a, neverThrows e (k a)) -> neverThrows e (bind c k).
Proof.
  intros Hc Hk clock n. unfold bind. specialize (Hc clock n).
  destruct (c clock n) as [[a|e0|] n']; simpl in *; try discriminate.
  - apply Hk.
  - intro E. inversion E. subst. apply Hc. reflexivity.
Qed.

Ltac nt :=
  repeat first
    [ assumption
    | match goal with H : _ |- neverThrows _ _ => apply H end
    | apply nt_ret
    | apply nt_readClock
    | apply nt_throw; unfold invalidBoundaries; cbn; discriminate
    | apply nt_bind; [|intro]
    | match goal with
      | |- neverThrows _ (if ?b then _ else _) => destruct b
      | |- neverThrows _ (match ?x with _ => _ end) => destruct x
      end ].

Lemma nt_checkShifts l index : neverThrows invalidBoundaries (checkShifts l index).
Proof. induction l; simpl; nt. Qed.

Lemma nt_checkAvailablePeriods l :
  forall i, neverThrows invalidBoundaries (checkAvailablePeriods l i).
Proof.
  induction l; intro i; simpl; [nt|].
  unfold _isAvailablePeriodValid. pose proof (nt_checkShifts (shifts a) i). nt.
Qed.

Lemma nt_checkTimeZone zone : neverThrows invalidBoundaries (DayjsImpl._checkTimeZone zone).
Proof.
  unfold DayjsImpl._checkTimeZone. destruct (String.eqb zone EmptyString); [nt|].
  intros clock n. unfold tryCatch, bind, dayjs_now, readClock, tz, ret, throw; simpl.
  destruct (zoneOffset zone); simpl; unfold invalidBoundaries; discriminate.
Qed.

Lemma nt_checkUnavailablePeriods l :
  forall i, neverThrows invalidBoundaries (DayjsImpl.checkUnavailablePeriods l i).
Proof.
  induction l; intro i; simpl; [nt|].
  unfold DayjsImpl._isUnavailablePeriodValid, DayjsImpl._isPeriodMomentValid,
    DayjsImpl.dayjs_fromObject, dayjs_now.
  nt.
Qed.

Lemma nt_isConfigurationValid c :
  neverThrows invalidBoundaries (DayjsImpl.isConfigurationValid c).
Proof.
  unfold DayjsImpl.isConfigurationValid, DayjsImpl._checkPrimitiveValue.
  pose proof (nt_checkTimeZone (timeZone c)).
  pose proof (nt_checkAvailablePeriods (availablePeriods c) 0).
  pose proof nt_checkUnavailablePeriods.
  nt.
Qed.

(** The dayjs [_checkSearchParameters] throws "Invalid boundaries for the
    search" exactly when a bound is absent or [from] is strictly later than
    [to]; an invalid date (NaN) compares false and passes. *)
Lemma dayjs_refuses_window_iff configuration from to clock :
  run (DayjsImpl._checkSearchParameters configuration from to) clock
    = Threw invalidBoundaries
  <-> (from = DateNull \/ to = DateNull
       \/ exists f t, from = DateAt f /\ to = DateAt t /\ t < f).
Proof.
  unfold run, DayjsImpl._checkSearchParameters. split.
  - intro H.
    destruct from as [| |f], to as [| |t]; auto; simpl in H.
    + exfalso. revert H. apply nt_bind; [apply nt_isConfigurationValid|intro; nt].
    + exfalso. revert H. apply nt_bind; [apply nt_isConfigurationValid|intro; nt].
    + exfalso. revert H. apply nt_bind; [apply nt_isConfigurationValid|intro; nt].
    + destruct (t <? f) eqn:E.
      * apply Z.ltb_lt in E. right; right. eauto.
      * exfalso. revert H. apply nt_bind; [apply nt_isConfigurationValid|intro; nt].
  - intros [H|[H|(f & t & Hf & Ht & Hlt)]]; subst.
    + reflexivity.
    + destruct from; reflexivity.
    + simpl. apply Z.ltb_lt in Hlt. rewrite Hlt. reflexivity.
Qed.

(** ** Calendar facts, and the year step of a yearly period (dayjs) *)

Ltac zdiv := Z.to_euclidean_division_equations; lia.

Lemma civil_inv z :
  let '(y, m, d) := civilFromDays z in
  daysFromCivil y m d = z /\ 1 <= m <= 12 /\ 1 <= d <= 31.
Proof.
  unfold civilFromDays, daysFromCivil. cbv zeta.
  remember (z + 719468) as z' eqn:Ez.
  remember (z' / 146097) as era eqn:Eera.
  remember (z' - era * 146097) as doe eqn:Edoe.
  remember ((doe - doe / 1460 + doe / 36524 - doe / 146096) / 365) as yoe eqn:Eyoe.
  remember (doe - (365 * yoe + yoe / 4 - yoe / 100)) as doy eqn:Edoy.
  remember ((5 * doy + 2) / 153) as mp eqn:Emp.
  assert (Hdoe : 0 <= doe < 146097) by (subst doe era; zdiv).
  assert (Hyoe : 0 <= yoe <= 399) by (subst yoe; clear - Hdoe; zdiv).
  assert (Hdoy : 0 <= doy <= 365) by (subst doy yoe; clear - Hdoe; zdiv).
  assert (Hmp : 0 <= mp <= 11) by (subst mp; clear - Hdoy; zdiv).
  assert (Hd : 1 <= doy - (153 * mp + 2) / 5 + 1 <= 31) by (subst mp; clear - Hdoy; zdiv).
  destruct (mp <? 10) eqn:E; [apply Z.ltb_lt in E|apply Z.ltb_ge in E].
  - replace (mp + 3 <=? 2) with false by (symmetry; apply Z.leb_gt; lia).
    replace (2 <? mp + 3) with true by (symmetry; apply Z.ltb_lt; lia).
    replace (mp + 3 - 3) with mp by lia.
    assert (Hera : (yoe + era * 400) / 400 = era) by (clear - Hyoe; zdiv).
    rewrite Hera.
    replace (yoe + era * 400 - era * 400) with yoe by lia.
    split; [|split; lia]. lia.
  - replace (mp - 9 <=? 2) with true by (symmetry; apply Z.leb_le; lia).
    replace (2 <? mp - 9) with false by (symmetry; apply Z.ltb_ge; lia).
    replace (yoe + era * 400 + 1 - 1) with (yoe + era * 400) by lia.
    replace (mp - 9 + 9) with mp by lia.
    assert (Hera : (yoe + era * 400) / 400 = era) by (clear - Hyoe; zdiv).
    rewrite Hera.
    replace (yoe + era * 400 - era * 400) with yoe by lia.
    split; [|split; lia]. lia.
Qed.



Lemma civil_year_bounds z :
  let '(y, m, d) := civilFromDays z in
  daysFromCivil y 1 1 <= z < daysFromCivil (y + 1) 1 1.
Proof.
  unfold civilFromDays, daysFromCivil. cbv zeta.
  replace (1 <=? 2) with true by reflexivity. replace (2 <? 1) with false by reflexivity.
  remember (z + 719468) as z' eqn:Ez.
  remember (z' / 146097) as era eqn:Eera.
  remember (z' - era * 146097) as doe eqn:Edoe.
  remember ((doe - doe / 1460 + doe / 36524 - doe / 146096) / 365) as yoe eqn:Eyoe.
  remember (doe - (365 * yoe + yoe / 4 - yoe / 100)) as doy eqn:Edoy.
  remember ((5 * doy + 2) / 153) as mp eqn:Emp.
  assert (Hdoe : 0 <= doe < 146097) by (subst doe era; zdiv).
  assert (Hyoe : 0 <= yoe <= 399) by (subst yoe; clear - Hdoe; zdiv).
  assert (Hdoy : 0 <= doy <= 365) by (subst doy yoe; clear - Hdoe; zdiv).
  assert (Hmp : 0 <= mp <= 11) by (subst mp; clear - Hdoy; zdiv).
  assert (Hz : z = era * 146097 + doe - 719468) by lia.
  assert (Hera : (yoe + era * 400) / 400 = era) by (clear - Hyoe; zdiv).
  destruct (mp <? 10) eqn:E; [apply Z.ltb_lt in E|apply Z.ltb_ge in E].
  - replace (mp + 3 <=? 2) with false by (symmetry; apply Z.leb_gt; lia).
    replace (yoe + era * 400 + 1 - 1) with (yoe + era * 400) by lia.
    rewrite Hera.
    replace (yoe + era * 400 - era * 400) with yoe by lia.
    assert (Hdoy' : doy <= 305) by (subst mp; clear - E Hdoy; zdiv).
    split.
    + (* start of year y: y' = y - 1 *)
      rewrite Hz. clear Hz Ez Eera Edoe Emp E Hmp. subst doy. clear Eyoe.
      zdiv.
    + rewrite Hz. subst doy. cbn. lia.
  - replace (mp - 9 <=? 2) with true by (symmetry; apply Z.leb_le; lia).
    replace (yoe + era * 400 + 1 - 1) with (yoe + era * 400) by lia.
    replace (yoe + era * 400 + 1 + 1 - 1) with (yoe + 1 + era * 400) by lia.
    rewrite Hera.
    replace (yoe + era * 400 - era * 400) with yoe by lia.
    assert (Hdoy' : 306 <= doy) by (subst mp; clear - E Hdoy; zdiv).
    split.
    + rewrite Hz. subst doy. cbn. lia.
    + rewrite Hz. clear Hz Ez Eera Emp E Hmp Hera. subst doy. subst yoe. clear Edoe.
      zdiv.
Qed.
Lemma newYear_step y : daysFromCivil y 1 1 + 365 <= daysFromCivil (y + 1) 1 1.
Proof.
  unfold daysFromCivil. replace (1 <=? 2) with true by reflexivity.
  replace (2 <? 1) with false by reflexivity. cbv zeta.
  replace (y + 1 - 1) with y by lia.
  zdiv.
Qed.

Lemma daysInMonthOf_cases y m :
  daysInMonthOf y m <= 31
  /\ (m = 1 ->
      daysInMonthOf y m = 28
      \/ daysInMonthOf y m = 29 /\ (y mod 4 = 0 /\ y mod 100 <> 0 \/ y mod 400 = 0)).
Proof.
  unfold daysInMonthOf, isLeapYear.
  destruct (m =? 1) eqn:E1.
  - destruct (y mod 4 =? 0) eqn:E4; destruct (y mod 100 =? 0) eqn:E100;
      destruct (y mod 400 =? 0) eqn:E400; simpl; split; try lia; intros _;
      rewrite ?Z.eqb_eq, ?Z.eqb_neq in *; auto.
  - apply Z.eqb_neq in E1. split; [|lia].
    destruct ((m =? 3) || (m =? 5) || (m =? 8) || (m =? 10)); lia.
Qed.

Lemma date_in_year y m d :
  1 <= m <= 12 -> 1 <= d <= daysInMonthOf y (m - 1) ->
  daysFromCivil y 1 1 <= daysFromCivil y m d < daysFromCivil (y + 1) 1 1.
Proof.
  intros Hm Hd.
  destruct (daysInMonthOf_cases y (m - 1)) as [H31 Hfeb].
  unfold daysFromCivil. replace (1 <=? 2) with true by reflexivity.
  replace (2 <? 1) with false by reflexivity. cbv zeta.
  replace (y + 1 - 1) with y by lia.
  replace ((153 * (1 + 9) + 2) / 5 + 1 - 1) with 306 by reflexivity.
  destruct (m <=? 2) eqn:E; [apply Z.leb_le in E|apply Z.leb_gt in E].
  - replace (2 <? m) with false by (symmetry; apply Z.ltb_ge; lia).
    assert (Cases : m = 1 \/ m = 2) by lia. destruct Cases; subst m.
    + replace ((153 * (1 + 9) + 2) / 5) with 306 by reflexivity.
      clear Hfeb. zdiv.
    + replace ((153 * (2 + 9) + 2) / 5) with 337 by reflexivity.
      destruct (Hfeb eq_refl) as [H28|[H29 Hleap]].
      * zdiv.
      * zdiv.
  - replace (2 <? m) with true by (symmetry; apply Z.ltb_lt; lia).
    clear Hfeb. zdiv.
Qed.

Lemma newYear_mono y1 y2 : y1 <= y2 -> daysFromCivil y1 1 1 <= daysFromCivil y2 1 1.
Proof.
  intro H. replace y2 with (y1 + Z.of_nat (Z.to_nat (y2 - y1))) by lia.
  induction (Z.to_nat (y2 - y1)) as [|k IH].
  - rewrite Z.add_0_r. lia.
  - pose proof (newYear_step (y1 + Z.of_nat k)).
    replace (y1 + Z.of_nat (S k)) with (y1 + Z.of_nat k + 1) by lia. lia.
Qed.

Lemma date_after_newYear y m d :
  1 <= m <= 12 -> 1 <= d -> daysFromCivil y 1 1 <= daysFromCivil y m d.
Proof.
  intros Hm Hd.
  unfold daysFromCivil. replace (1 <=? 2) with true by reflexivity.
  replace (2 <? 1) with false by reflexivity. cbv zeta.
  replace ((153 * (1 + 9) + 2) / 5 + 1 - 1) with 306 by reflexivity.
  destruct (m <=? 2) eqn:E; [apply Z.leb_le in E|apply Z.leb_gt in E].
  - replace (2 <? m) with false by (symmetry; apply Z.ltb_ge; lia). zdiv.
  - replace (2 <? m) with true by (symmetry; apply Z.ltb_lt; lia). zdiv.
Qed.

Lemma year_of_day z Y :
  daysFromCivil Y 1 1 <= z < daysFromCivil (Y + 1) 1 1 ->
  fst (fst (civilFromDays z)) = Y.
Proof.
  intro H. pose proof (civil_year_bounds z) as Hb.
  destruct (civilFromDays z) as [[y m] d]. simpl.
  destruct (Z.lt_trichotomy y Y) as [Hlt|[Heq|Hgt]]; auto; exfalso.
  - pose proof (newYear_mono (y + 1) Y ltac:(lia)). lia.
  - pose proof (newYear_mono (Y + 1) y ltac:(lia)). lia.
Qed.

Lemma localMs_withLocalMs d l : Dj.localMs (Dj.withLocalMs d l) = l.
Proof. unfold Dj.localMs, Dj.withLocalMs. cbn [valueOf utcOffset]. lia. Qed.

Lemma localMs_before_newYear s Y :
  Dj.year s = Y -> Dj.localMs s < newYear (Y + 1).
Proof.
  unfold Dj.year, newYear. intro Hs.
  pose proof (civil_year_bounds (Dj.localMs s / msPerDay)) as Hb.
  destruct (civilFromDays (Dj.localMs s / msPerDay)) as [[y m] d].
  cbn [fst] in Hs. subst y. destruct Hb as [_ Hb].
  generalize dependent (daysFromCivil (Y + 1) 1 1). intros N Hb.
  generalize dependent (Dj.localMs s). intros L Hb.
  unfold msPerDay in *. zdiv.
Qed.

Lemma daysInMonthOf_min y m : 28 <= daysInMonthOf y m.
Proof.
  unfold daysInMonthOf. destruct (m =? 1); [destruct (isLeapYear y); lia|].
  destruct ((m =? 3) || (m =? 5) || (m =? 8) || (m =? 10)); lia.
Qed.

Lemma localMs_add_year_after_newYear e Y :
  Dj.year e = Y -> newYear (Y + 1) <= Dj.localMs (Dj.add_year 1 e).
Proof.
  unfold Dj.add_year, Dj.year, Dj.month, Dj.date, newYear. intro He.
  rewrite localMs_withLocalMs.
  pose proof (civil_inv (Dj.localMs e / msPerDay)) as Hi.
  destruct (civilFromDays (Dj.localMs e / msPerDay)) as [[y m] d].
  cbn [fst snd] in *. subst y. destruct Hi as (_ & Hm & Hd).
  pose proof (daysInMonthOf_min (Y + 1) (m - 1)) as Hdim.
  replace (m - 1 + 1) with m by lia.
  assert (Hge : daysFromCivil (Y + 1) 1 1
                <= daysFromCivil (Y + 1) m (Z.min d (daysInMonthOf (Y + 1) (m - 1))))
    by (apply date_after_newYear; lia).
  generalize dependent (daysFromCivil (Y + 1) m (Z.min d (daysInMonthOf (Y + 1) (m - 1)))).
  intros D HD.
  generalize dependent (daysFromCivil (Y + 1) 1 1). intros N HN.
  assert (0 <= Dj.localMs e mod msPerDay)
    by (apply Z.mod_pos_bound; unfold msPerDay; lia).
  generalize dependent (Dj.localMs e mod msPerDay). intros r Hr.
  unfold msPerDay. lia.
Qed.

Lemma add_year_offset n e : utcOffset (Dj.add_year n e) = utcOffset e.
Proof. unfold Dj.add_year, Dj.withLocalMs. cbn [utcOffset]. reflexivity. Qed.

Lemma valueOf_lt_of_localMs a b :
  utcOffset a = utcOffset b -> Dj.localMs a < Dj.localMs b -> valueOf a < valueOf b.
Proof. unfold Dj.localMs. intros H. rewrite H. lia. Qed.

Lemma add_year_crosses s e Y :
  utcOffset s = utcOffset e -> Dj.year s = Y -> Dj.year e = Y ->
  Dj.localMs s < newYear (Y + 1) <= Dj.localMs (Dj.add_year 1 e)
  /\ valueOf s < valueOf (Dj.add_year 1 e).
Proof.
  intros Hoff Hs He.
  pose proof (localMs_before_newYear s Y Hs) as H1.
  pose proof (localMs_add_year_after_newYear e Y He) as H2.
  split; [split; assumption|].
  apply valueOf_lt_of_localMs.
  - rewrite add_year_offset. exact Hoff.
  - eapply Z.lt_le_trans; eassumption.
Qed.

Lemma daysFromCivil_day y m d : daysFromCivil y m 1 + (d - 1) = daysFromCivil y m d.
Proof. unfold daysFromCivil. cbv zeta. lia. Qed.

Lemma makeDate_in_year Y M d h mi :
  ~ (0 <= Y <= 99) -> 0 <= M <= 11 ->
  makeDate Y M d h mi
  = daysFromCivil Y (M + 1) d * msPerDay + h * msPerHour + mi * msPerMinute.
Proof.
  intros HY HM. unfold makeDate.
  replace ((0 <=? Y) && (Y <=? 99)) with false.
  - rewrite (Z.div_small M 12), (Z.mod_small M 12), Z.add_0_r, daysFromCivil_day by lia.
    reflexivity.
  - symmetry. apply andb_false_iff.
    destruct (Z.le_gt_cases 0 Y); [right; apply Z.leb_gt; lia | left; apply Z.leb_gt; lia].
Qed.

Lemma tzOfObject_yearly o zone off Y clock n :
  zoneOffset zone = Some off -> year o = None -> momentInRange Y o ->
  Dj.year (mkDayjs (clock n) 0) = Y -> ~ (0 <= Y <= 99) ->
  exists d,
    DayjsImpl.dayjs_tzOfObject o zone clock n = (Returned d, S (S n))
    /\ utcOffset d = off
    /\ Dj.localMs d
       = daysFromCivil Y (month o + 1) (day o) * msPerDay
         + orElse (hour o) 0 * msPerHour + orElse (minute o) 0 * msPerMinute.
Proof.
  intros Hzone Hyear (HM & Hd & Hh & Hmi) Hnow HY.
  unfold DayjsImpl.dayjs_tzOfObject, DayjsImpl.dayjs_fromObject, dayjs_now, bind, readClock, ret.
  rewrite Hyear, Hzone. cbn [truthy negb andb].
  replace (day o =? 0) with false by (symmetry; apply Z.eqb_neq; lia).
  replace (0 <=? month o) with true by (symmetry; apply Z.leb_le; lia).
  cbn [negb]. rewrite Hnow.
  eexists. split; [reflexivity|]. split; [reflexivity|].
  rewrite localMs_withLocalMs. cbn [valueOf].
  apply makeDate_in_year; assumption.
Qed.

Lemma day_of_local D t : 0 <= t < msPerDay -> (D * msPerDay + t) / msPerDay = D.
Proof. unfold msPerDay. intro H. zdiv. Qed.

Lemma time_of_day_bound h mi :
  0 <= h <= 23 -> 0 <= mi <= 59 -> 0 <= h * msPerHour + mi * msPerMinute < msPerDay.
Proof. unfold msPerHour, msPerMinute, msPerDay. lia. Qed.

Lemma year_of_valid_date x Y m d :
  1 <= m <= 12 -> 1 <= d <= daysInMonthOf Y (m - 1) ->
  Dj.localMs x / msPerDay = daysFromCivil Y m d -> Dj.year x = Y.
Proof.
  intros Hm Hd Hx. unfold Dj.year. rewrite Hx.
  apply year_of_day. apply date_in_year; assumption.
Qed.

Lemma startOf_day_local x :
  utcOffset (Dj.startOf_day x) = utcOffset x
  /\ Dj.localMs (Dj.startOf_day x) / msPerDay = Dj.localMs x / msPerDay.
Proof.
  split; [reflexivity|]. unfold Dj.startOf_day. rewrite localMs_withLocalMs.
  generalize (Dj.localMs x). intro L. unfold msPerDay. zdiv.
Qed.

Lemma endOf_day_local x :
  utcOffset (Dj.endOf_day x) = utcOffset x
  /\ Dj.localMs (Dj.endOf_day x) / msPerDay = Dj.localMs x / msPerDay.
Proof.
  split; [reflexivity|]. unfold Dj.endOf_day. rewrite localMs_withLocalMs.
  generalize (Dj.localMs x). intro L. unfold msPerDay. zdiv.
Qed.

(** The dayjs implementation on a yearly period whose moments are valid
    for the year [Y] that the clock reads: both ends are resolved in the
    year [Y]; when the resolved end precedes the resolved start, the event
    ends at the resolved end moved one year on, which is after the start,
    with the new year between them. *)
Lemma dayjs_moves_end_to_next_year p zone off Y clock n :
  zoneOffset zone = Some off ->
  year (startAt p) = None -> year (endAt p) = None ->
  momentInRange Y (startAt p) -> momentInRange Y (endAt p) ->
  Dj.year (mkDayjs (clock n) 0) = Y -> Dj.year (mkDayjs (clock (S (S n))) 0) = Y ->
  ~ (0 <= Y <= 99) ->
  exists s e,
    fst (DayjsImpl.resolveUnavailablePeriod p zone clock n) = Returned (s, e)
    /\ Dj.year s = Y /\ Dj.year e = Y
    /\ (valueOf e < valueOf s ->
        fst (DayjsImpl.unavailablePeriodAsEvent p zone clock n)
          = Returned (mkEvent s (Dj.add_year 1 e))
        /\ valueOf s < valueOf (Dj.add_year 1 e)
        /\ Dj.localMs s < newYear (Y + 1) <= Dj.localMs (Dj.add_year 1 e)).
Proof.
  intros Hzone Hys Hye Hrs Hre Hn1 Hn2 HY.
  destruct (tzOfObject_yearly (startAt p) zone off Y clock n Hzone Hys Hrs Hn1 HY)
    as (s0 & Es & Hos & Hls).
  destruct (tzOfObject_yearly (endAt p) zone off Y clock (S (S n)) Hzone Hye Hre Hn2 HY)
    as (e0 & Ee & Hoe & Hle).
  destruct Hrs as (HMs & Hds & Hhs & Hms). destruct Hre as (HMe & Hde & Hhe & Hme).
  assert (Hs0 : Dj.localMs s0 / msPerDay
                = daysFromCivil Y (month (startAt p) + 1) (day (startAt p))).
  { rewrite Hls, <- Z.add_assoc. apply day_of_local. apply time_of_day_bound; assumption. }
  assert (He0 : Dj.localMs e0 / msPerDay
                = daysFromCivil Y (month (endAt p) + 1) (day (endAt p))).
  { rewrite Hle, <- Z.add_assoc. apply day_of_local. apply time_of_day_bound; assumption. }
  set (s := match hour (startAt p) with None => Dj.startOf_day s0 | Some _ => s0 end).
  set (e := match hour (endAt p) with None => Dj.endOf_day e0 | Some _ => e0 end).
  assert (Hs : utcOffset s = off /\ Dj.localMs s / msPerDay = Dj.localMs s0 / msPerDay).
  { unfold s. destruct (hour (startAt p)); [auto|].
    destruct (startOf_day_local s0) as [H1 H2]. rewrite H1, H2. auto. }
  assert (He : utcOffset e = off /\ Dj.localMs e / msPerDay = Dj.localMs e0 / msPerDay).
  { unfold e. destruct (hour (endAt p)); [auto|].
    destruct (endOf_day_local e0) as [H1 H2]. rewrite H1, H2. auto. }
  destruct Hs as [Hso Hsl]. destruct He as [Heo Hel].
  assert (Hsy : Dj.year s = Y).
  { apply (year_of_valid_date s Y (month (startAt p) + 1) (day (startAt p))).
    - lia.
    - replace (month (startAt p) + 1 - 1) with (month (startAt p)) by lia. assumption.
    - rewrite Hsl. exact Hs0. }
  assert (Hey : Dj.year e = Y).
  { apply (year_of_valid_date e Y (month (endAt p) + 1) (day (endAt p))).
    - lia.
    - replace (month (endAt p) + 1 - 1) with (month (endAt p)) by lia. assumption.
    - rewrite Hel. exact He0. }
  assert (Eres : DayjsImpl.resolveUnavailablePeriod p zone clock n
                 = (Returned (s, e), S (S (S (S n))))).
  { unfold DayjsImpl.resolveUnavailablePeriod, bind. rewrite Es, Ee. reflexivity. }
  exists s, e. split; [rewrite Eres; reflexivity|]. split; [exact Hsy|]. split; [exact Hey|].
  intro Hlt.
  destruct (add_year_crosses s e Y) as [Hcross Hval]; [congruence|assumption|assumption|].
  split; [|split; assumption].
  unfold DayjsImpl.unavailablePeriodAsEvent, bind. rewrite Eres.
  unfold Dj.isBefore. replace (valueOf e <? valueOf s) with true
    by (symmetry; apply Z.ltb_lt; exact Hlt).
  reflexivity.
Qed.

(** ** The search as a whole: what a returned list of slots satisfies *)

Lemma checkTimeZone_returned zone clock n u n' :
  DayjsImpl._checkTimeZone zone clock n = (Returned u, n') ->
  exists off, zoneOffset zone = Some off.
Proof.
  unfold DayjsImpl._checkTimeZone.
  destruct (String.eqb zone EmptyString); [discriminate|].
  unfold tryCatch, bind, dayjs_now, readClock, tz, ret, throw.
  destruct (zoneOffset zone) as [off|]; [eauto|discriminate].
Qed.

Lemma checkPrimitiveValue_returned c clock n b n' :
  DayjsImpl._checkPrimitiveValue c clock n = (Returned b, n') ->
  1 <= timeSlotDuration c
  /\ 1 <= orElse (slotStartMinuteStep c) 5 <= 30
  /\ 0 <= orElse (minAvailableTimeBeforeSlot c) 0
  /\ exists off, zoneOffset (timeZone c) = Some off.
Proof.
  unfold DayjsImpl._checkPrimitiveValue.
  destruct (timeSlotDuration c <? 1) eqn:E1; [discriminate|].
  destruct (negb (DayjsImpl._nullOrBetween 1 30 (slotStartMinuteStep c))) eqn:E2;
    [discriminate|].
  destruct (negb (DayjsImpl._nullOrGreaterThanOrEqualTo 0 (minAvailableTimeBeforeSlot c)))
    eqn:E3; [discriminate|].
  destruct (negb (DayjsImpl._nullOrGreaterThanOrEqualTo 0 (minAvailableTimeAfterSlot c)));
    [discriminate|].
  destruct (negb (DayjsImpl._nullOrGreaterThanOrEqualTo 0 (minTimeBeforeFirstSlot c)));
    [discriminate|].
  destruct (negb (DayjsImpl._nullOrGreaterThanOrEqualTo 1 (maxDaysBeforeLastSlot c)));
    [discriminate|].
  intro H. apply bind_returned in H. destruct H as (u & n1 & Hz & _).
  apply checkTimeZone_returned in Hz.
  apply Z.ltb_ge in E1. apply negb_false_iff in E2, E3.
  unfold DayjsImpl._nullOrBetween in E2. unfold DayjsImpl._nullOrGreaterThanOrEqualTo in E3.
  repeat split; try assumption; try lia.
  - destruct (slotStartMinuteStep c); simpl; [|lia].
    apply andb_true_iff in E2. destruct E2 as [E2 _]. apply Z.leb_le in E2. lia.
  - destruct (slotStartMinuteStep c); simpl; [|lia].
    apply andb_true_iff in E2. destruct E2 as [_ E2]. apply Z.leb_le in E2. lia.
  - destruct (minAvailableTimeBeforeSlot c); simpl; [|lia]. apply Z.leb_le in E3. lia.
Qed.

(** The configuration that the search uses: the caller's, with merged
    shifts; it passed the validation. *)
Lemma checkSearchParameters_returned c from to clock n usedConfig n' :
  DayjsImpl._checkSearchParameters c from to clock n = (Returned usedConfig, n') ->
  slotStartMinuteStep usedConfig = slotStartMinuteStep c
  /\ minAvailableTimeBeforeSlot usedConfig = minAvailableTimeBeforeSlot c
  /\ timeZone usedConfig = timeZone c
  /\ unavailablePeriods usedConfig = unavailablePeriods c
  /\ 1 <= timeSlotDuration usedConfig
  /\ 1 <= orElse (slotStartMinuteStep usedConfig) 5 <= 30
  /\ 0 <= orElse (minAvailableTimeBeforeSlot usedConfig) 0
  /\ exists off, zoneOffset (timeZone usedConfig) = Some off.
Proof.
  unfold DayjsImpl._checkSearchParameters.
  destruct (_ || _ || _); [discriminate|].
  intro H. apply bind_returned in H. destruct H as (b & n1 & Hv & Hr).
  inversion Hr; subst; clear Hr. cbn [slotStartMinuteStep minAvailableTimeBeforeSlot
    timeZone unavailablePeriods timeSlotDuration].
  unfold DayjsImpl.isConfigurationValid in Hv.
  apply bind_returned in Hv. destruct Hv as (b1 & n2 & Hp & _).
  apply checkPrimitiveValue_returned in Hp.
  cbn [slotStartMinuteStep minAvailableTimeBeforeSlot timeZone timeSlotDuration] in Hp.
  intuition.
Qed.

Lemma tzOfObject_offset o zone off clock n d n' :
  zoneOffset zone = Some off ->
  DayjsImpl.dayjs_tzOfObject o zone clock n = (Returned d, n') -> utcOffset d = off.
Proof.
  intros Hz H. unfold DayjsImpl.dayjs_tzOfObject in H.
  apply bind_returned in H. destruct H as (d0 & n1 & _ & H).
  rewrite Hz in H. inversion H. reflexivity.
Qed.

Lemma unavailablePeriodAsEvent_offset p zone off clock n ev n' :
  zoneOffset zone = Some off ->
  DayjsImpl.unavailablePeriodAsEvent p zone clock n = (Returned ev, n') ->
  utcOffset (evEndAt ev) = off.
Proof.
  intros Hz H. unfold DayjsImpl.unavailablePeriodAsEvent in H.
  apply bind_returned in H. destruct H as ([s e] & n1 & Hres & H).
  unfold DayjsImpl.resolveUnavailablePeriod in Hres.
  apply bind_returned in Hres. destruct Hres as (s0 & n2 & Hs0 & Hres).
  apply bind_returned in Hres. destruct Hres as (e0 & n3 & He0 & Hres).
  apply (tzOfObject_offset _ _ _ _ _ _ _ Hz) in He0.
  inversion Hres; subst s e; clear Hres.
  inversion H; subst ev; clear H. cbn [evEndAt].
  assert (He1 : utcOffset (match hour (endAt p) with
                           | Some _ => e0 | None => Dj.endOf_day e0 end) = off)
    by (destruct (hour (endAt p)); assumption).
  destruct (Dj.isBefore _ _); [rewrite add_year_offset|]; exact He1.
Qed.

Lemma getUnavailablePeriodAsEvents_offset l zone off :
  zoneOffset zone = Some off ->
  forall clock n events n',
    DayjsImpl._getUnavailablePeriodAsEvents l zone clock n = (Returned events, n') ->
    Forall (fun e => utcOffset (evEndAt e) = off) events.
Proof.
  intro Hz. induction l as [|p l IH]; intros clock n events n' H; simpl in H.
  - inversion H. constructor.
  - apply bind_returned in H. destruct H as (e & n1 & He & H).
    apply bind_returned in H. destruct H as (es & n2 & Hes & H).
    inversion H; subst. constructor.
    + eapply unavailablePeriodAsEvent_offset; eauto.
    + eapply IH; eauto.
Qed.

Lemma tz_returned zone d clock n d' n' :
  tz zone d clock n = (Returned d', n') ->
  zoneOffset zone = Some (utcOffset d') /\ valueOf d' = valueOf d.
Proof.
  unfold tz. destruct (zoneOffset zone); [|discriminate].
  intro H. inversion H. auto.
Qed.

Lemma computeBoundaries_offset from to c off clock n firstFrom lastTo n' :
  zoneOffset (timeZone c) = Some off ->
  DayjsImpl._computeBoundaries from to c clock n = (Returned (Some firstFrom, lastTo), n') ->
  utcOffset firstFrom = off.
Proof.
  intros Hz H. unfold DayjsImpl._computeBoundaries in H.
  apply bind_returned in H. destruct H as (limit & n1 & _ & H).
  apply bind_returned in H. destruct H as (fromMoment & n2 & Hf & H).
  apply bind_returned in H. destruct H as (now & n3 & _ & H).
  apply bind_returned in H. destruct H as (now' & n4 & Hnow & H).
  apply bind_returned in H. destruct H as (toMoment & n5 & _ & H).
  apply tz_returned in Hnow. destruct Hnow as [Hnow _].
  assert (Hnow' : utcOffset now' = off) by congruence.
  inversion H as [[Hfirst Hlast]]; clear H.
  destruct fromMoment as [f|]; [|discriminate]. inversion Hfirst; subst firstFrom.
  assert (Hfo : utcOffset f = off).
  { unfold DayjsImpl.dayjs_ofDate in Hf. destruct from.
    - apply bind_returned in Hf. destruct Hf as (? & ? & _ & Hf). inversion Hf.
    - apply bind_returned in Hf. destruct Hf as (? & ? & _ & Hf). inversion Hf.
    - apply bind_returned in Hf. destruct Hf as (d & ? & Hd & Hf).
      inversion Hf; subst. apply tz_returned in Hd. destruct Hd as [Hd _]. congruence. }
  unfold Dj.max. destruct (Dj.isAfter _ f); [exact Hnow'|exact Hfo].
Qed.

(** Slots of a sweep, whatever the fuel it was given. *)
Lemma shift_slots_start_on_step configuration eventList from to fuel slots :
  1 <= orElse (slotStartMinuteStep configuration) 5 ->
  60 mod orElse (slotStartMinuteStep configuration) 5 = 0 ->
  Forall (fun e => utcOffset (evEndAt e) = utcOffset from) eventList ->
  DayjsImpl._getAvailableTimeSlotsForShift fuel configuration eventList from to
    = Some slots ->
  Forall (startsOnStep (utcOffset from) (orElse (slotStartMinuteStep configuration) 5))
         slots.
Proof.
  intros Hstep Hdiv Hzone Hslots.
  unfold DayjsImpl._getAvailableTimeSlotsForShift in Hslots.
  eapply (searchLoop_Forall configuration _ _ (fun c => utcOffset c = utcOffset from));
    [| | | |exact Hslots]; cbv beta.
  - intros e He. apply prepareEvents_In in He. destruct He as [He _].
    rewrite Forall_forall in Hzone. auto.
  - intros c Hc.
    destruct (pushNewSlot_cursor configuration
                (DayjsImpl._nextSearchMoment c configuration)) as [Hoff _].
    rewrite Hoff, nextSearchMoment_offset. exact Hc.
  - intros c Hc _. rewrite pushNewSlot_slot. unfold startsOnStep. cbn [slotStartAt].
    pose proof (nextSearchMoment_aligned configuration c Hstep Hdiv) as Hal.
    unfold Dj.add_minute in Hal.
    rewrite nextSearchMoment_offset, Hc in Hal. exact Hal.
  - reflexivity.
Qed.

Lemma getMomentsFromShift_offset fromMoment shift startAt endAt :
  DayjsImpl._getMomentsFromShift fromMoment shift = (Some startAt, endAt) ->
  utcOffset startAt = utcOffset fromMoment.
Proof.
  unfold DayjsImpl._getMomentsFromShift. intro H. inversion H as [[Hs He]]. clear H He.
  destruct (parseInt (slice_0_2 (startTime shift))); [|discriminate].
  destruct (parseInt (slice_from 3 (startTime shift))); [|discriminate].
  inversion Hs. reflexivity.
Qed.

Section WholeSearch.

Variable usedConfig : TimeSlotsFinderConfiguration.
Variable eventList : list DayjsPeriod.
Variable off : Z.
Variable P : TimeSlot -> Prop.
Variables firstFromMoment lastToMoment : Dayjs.

Hypothesis firstFrom_offset : utcOffset firstFromMoment = off.
Hypothesis shift_slots :
  forall fuel from to slots,
    utcOffset from = off ->
    DayjsImpl._getAvailableTimeSlotsForShift fuel usedConfig eventList from to = Some slots ->
    Forall P slots.

Lemma forEachShift_Forall fuel fromMoment :
  utcOffset fromMoment = off ->
  forall l slots,
    DayjsImpl.forEachShift fuel usedConfig eventList firstFromMoment lastToMoment
                           fromMoment l = Some slots ->
    Forall P slots.
Proof.
  intro Hfm. induction l as [|shift l IH]; intros slots H;
    cbn [DayjsImpl.forEachShift] in H; cbv zeta in H.
  - inversion H. constructor.
  - match type of H with
    | (match ?h with Some _ => _ | None => _ end) = _ =>
        destruct h as [here|] eqn:Eh; [|discriminate]
    end.
    destruct (DayjsImpl.forEachShift fuel usedConfig eventList firstFromMoment lastToMoment
                fromMoment l) as [rest|]; [|discriminate].
    specialize (IH rest eq_refl).
    inversion H. apply Forall_app. split; [|assumption].
    destruct (DayjsImpl._getMomentsFromShift fromMoment shift) as [[startAt|] [endAt|]] eqn:Em;
      try (inversion Eh; constructor).
    assert (Hpf : utcOffset (Dj.max firstFromMoment startAt) = off).
    { apply getMomentsFromShift_offset in Em.
      unfold Dj.max. destruct (Dj.isAfter startAt firstFromMoment); congruence. }
    destruct (negb (Dj.isSameOrBefore (Dj.max firstFromMoment startAt)
                      (Dj.min lastToMoment endAt))).
    + inversion Eh. constructor.
    + eapply shift_slots; eauto.
Qed.

Lemma dayLoop_Forall shiftFuel :
  forall fuel fromMoment slots,
    utcOffset fromMoment = off ->
    DayjsImpl.dayLoop fuel usedConfig eventList firstFromMoment lastToMoment
                      fromMoment shiftFuel = Some slots ->
    Forall P slots.
Proof.
  induction fuel as [|fuel IH]; intros fromMoment slots Hfm H; [discriminate|].
  cbn [DayjsImpl.dayLoop] in H.
  destruct (Dj.isBefore fromMoment lastToMoment); [|inversion H; constructor].
  match type of H with
  | (match ?h with Some _ => _ | None => _ end) = _ =>
      destruct h as [today|] eqn:Et; [|discriminate]
  end.
  destruct (DayjsImpl.dayLoop fuel usedConfig eventList firstFromMoment lastToMoment
              (Dj.startOf_day (Dj.add_day 1 fromMoment)) shiftFuel) as [rest|] eqn:Er;
    [|discriminate].
  assert (Hrest : Forall P rest) by (eapply IH; [|exact Er]; exact Hfm).
  inversion H. apply Forall_app. split; [|assumption].
  destruct (DayjsImpl._getWeekDayConfigForMoment usedConfig fromMoment) as [weekDayConfig|].
  - eapply forEachShift_Forall; eauto.
  - inversion Et. constructor.
Qed.

End WholeSearch.

(** Every slot of a list that the dayjs [getAvailableTimeSlotsInCalendar]
    returns starts, in the configured zone, on a minute that is a multiple
    of the step, when an hour is a whole number of steps. *)
Lemma calendar_slots_start_on_step fuel params clock slots :
  60 mod orElse (slotStartMinuteStep (configuration params)) 5 = 0 ->
  run (DayjsImpl.getAvailableTimeSlotsInCalendar fuel params) clock = Returned slots ->
  exists off,
    zoneOffset (timeZone (configuration params)) = Some off
    /\ Forall (startsOnStep off (orElse (slotStartMinuteStep (configuration params)) 5))
              slots.
Proof.
  intros Hdiv H. unfold run in H.
  destruct (DayjsImpl.getAvailableTimeSlotsInCalendar fuel params clock 0%nat)
    as [o n'] eqn:E. cbn [fst] in H. subst o.
  unfold DayjsImpl.getAvailableTimeSlotsInCalendar in E.
  apply bind_returned in E. destruct E as (usedConfig & n1 & Hcfg & E).
  apply bind_returned in E. destruct E as (events & n2 & Hev & E).
  apply bind_returned in E. destruct E as ([firstFrom lastTo] & n3 & Hb & E).
  apply checkSearchParameters_returned in Hcfg.
  destruct Hcfg as (Hstep & Hbefore & Hzone & Hun & Hdur & Hs & Hbf & off & Hoff).
  exists off. rewrite <- Hzone, <- Hstep. split; [exact Hoff|].
  rewrite <- Hstep in Hdiv.
  destruct firstFrom as [firstFrom|]; [|inversion E; constructor].
  destruct lastTo as [lastTo|]; [|inversion E; constructor].
  destruct (DayjsImpl.dayLoop fuel usedConfig events firstFrom lastTo firstFrom fuel)
    as [timeSlots|] eqn:Ed; [|discriminate].
  inversion E; subst timeSlots.
  pose proof (computeBoundaries_offset _ _ _ _ _ _ _ _ _ Hoff Hb) as Hfo.
  pose proof (getUnavailablePeriodAsEvents_offset _ _ _ Hoff _ _ _ _ Hev) as Heo.
  eapply (dayLoop_Forall usedConfig events off _ firstFrom lastTo Hfo); [|exact Hfo|exact Ed].
  intros f from to sl Hfrom Hsl. rewrite <- Hfrom.
  apply (shift_slots_start_on_step usedConfig events from to f sl);
    [lia | exact Hdiv | | exact Hsl].
  eapply Forall_impl; [|exact Heo]. intros e He. cbv beta in *. congruence.
Qed.

(** C4, as the code has it.  When an hour is a whole number of steps, every
    slot that the sweep of a shift window creates (the only place where the
    search creates slots) starts on a minute that is a multiple of
    [slotStartMinuteStep] (5 by default), read at the UTC offset of the
    window: the minute of the start itself, which contains the time
    required before the slot.  The blocking events are taken at the same
    offset as the window; the sweep returns for a duration of a minute or
    more, a time before the slot that is not negative and a step of 1 or
    more. *)
Theorem slots_start_on_a_multiple_of_the_step :
  forall (configuration : TimeSlotsFinderConfiguration)
         (eventList : list DayjsPeriod) (from to : Dayjs),
    1 <= timeSlotDuration configuration ->
    0 <= orElse (minAvailableTimeBeforeSlot configuration) 0 ->
    1 <= orElse (slotStartMinuteStep configuration) 5 ->
    60 mod orElse (slotStartMinuteStep configuration) 5 = 0 ->
    Forall (fun e => utcOffset (evEndAt e) = utcOffset from) eventList ->
    exists slots,
      DayjsImpl._getAvailableTimeSlotsForShift (searchFuel eventList from to)
        configuration eventList from to = Some slots
      /\ Forall (startsOnStep (utcOffset from)
                   (orElse (slotStartMinuteStep configuration) 5)) slots.
Proof.
  intros configuration eventList from to Hdur Hbefore Hstep Hdiv Hzone.
  destruct (getAvailableTimeSlotsForShift_returns configuration eventList from to
              Hdur Hbefore Hstep) as [slots Hslots].
  exists slots. split; [exact Hslots|].
  eapply shift_slots_start_on_step; eauto.
Qed.

(** The theorem on the window 15:05:12.592-16:00 with a step of 5 and two
    minutes required before a slot. *)
Lemma slots_start_on_a_multiple_of_the_step_witness :
  exists slots,
    DayjsImpl._getAvailableTimeSlotsForShift
      (searchFuel [] shiftFrom_15h05 shiftTo_16h_thursday)
      config_before2 [] shiftFrom_15h05 shiftTo_16h_thursday = Some slots
    /\ Forall (startsOnStep 0 5) slots.
Proof.
  apply (slots_start_on_a_multiple_of_the_step
           config_before2 [] shiftFrom_15h05 shiftTo_16h_thursday);
    simpl; try lia; try reflexivity. constructor.
Defined.

(** C4 as the specification states it fails: with two minutes required before a
    slot and a step of 5, the first slot of that window starts at 15:10,
    and (10 - 2) mod 5 is 3. *)
Lemma start_minus_before_not_on_step :
  exists slots s,
    DayjsImpl._getAvailableTimeSlotsForShift
      (searchFuel [] shiftFrom_15h05 shiftTo_16h_thursday)
      config_before2 [] shiftFrom_15h05 shiftTo_16h_thursday = Some slots
    /\ In s slots
    /\ Dj.minute (mkDayjs (slotStartAt s) 0) = 10
    /\ (Dj.minute (mkDayjs (slotStartAt s) 0)
        - orElse (minAvailableTimeBeforeSlot config_before2) 0)
       mod orElse (slotStartMinuteStep config_before2) 5 <> 0.
Proof.
  eexists. eexists.
  split; [vm_compute; reflexivity|].
  split; [left; reflexivity|].
  split; [vm_compute; reflexivity|].
  vm_compute. discriminate.
Qed.

(** ** Fuel: a result does not depend on the fuel that was enough for it *)

Lemma searchLoop_more_fuel configuration cleanedList searchEndMoment :
  forall fuel fuel' searchMoment eventIndex slots,
    (fuel <= fuel')%nat ->
    DayjsImpl.searchLoop fuel configuration cleanedList searchEndMoment
                         searchMoment eventIndex = Some slots ->
    DayjsImpl.searchLoop fuel' configuration cleanedList searchEndMoment
                         searchMoment eventIndex = Some slots.
Proof.
  induction fuel as [|fuel IH]; intros fuel' sm idx slots Hle H; [discriminate|].
  destruct fuel' as [|fuel']; [lia|].
  cbn [DayjsImpl.searchLoop] in *.
  destruct (Dj.isSameOrBefore sm searchEndMoment); [|exact H].
  assert (Hpush :
    forall r,
      (let (newSearchMoment, timeSlot) :=
         DayjsImpl._pushNewSlot (DayjsImpl._nextSearchMoment sm configuration)
                                configuration in
       option_map (cons timeSlot)
         (DayjsImpl.searchLoop fuel configuration cleanedList searchEndMoment
                               newSearchMoment idx)) = Some r ->
      (let (newSearchMoment, timeSlot) :=
         DayjsImpl._pushNewSlot (DayjsImpl._nextSearchMoment sm configuration)
                                configuration in
       option_map (cons timeSlot)
         (DayjsImpl.searchLoop fuel' configuration cleanedList searchEndMoment
                               newSearchMoment idx)) = Some r).
  { intros r Hr.
    destruct (DayjsImpl._pushNewSlot (DayjsImpl._nextSearchMoment sm configuration)
                                     configuration) as [nsm ts].
    destruct (DayjsImpl.searchLoop fuel configuration cleanedList searchEndMoment nsm idx)
      as [rest|] eqn:Er; [|discriminate].
    rewrite (IH fuel' nsm idx rest ltac:(lia) Er). exact Hr. }
  destruct (if 0 <=? idx then nth_error cleanedList (Z.to_nat idx) else None)
    as [focused|]; [|apply Hpush; exact H].
  destruct (Dj.isBefore (evStartAt focused) _); [|apply Hpush; exact H].
  apply (IH fuel'); [lia|exact H].
Qed.

Lemma forEachShift_more_fuel usedConfig eventList firstFromMoment lastToMoment fromMoment :
  forall fuel fuel' l slots,
    (fuel <= fuel')%nat ->
    DayjsImpl.forEachShift fuel usedConfig eventList firstFromMoment lastToMoment
                           fromMoment l = Some slots ->
    DayjsImpl.forEachShift fuel' usedConfig eventList firstFromMoment lastToMoment
                           fromMoment l = Some slots.
Proof.
  intros fuel fuel' l. induction l as [|shift l IH]; intros slots Hle H;
    cbn [DayjsImpl.forEachShift] in *; cbv zeta in *; [exact H|].
  match type of H with
  | (match ?h with Some _ => _ | None => _ end) = _ =>
      destruct h as [here|] eqn:Eh; [|discriminate]
  end.
  destruct (DayjsImpl.forEachShift fuel usedConfig eventList firstFromMoment lastToMoment
              fromMoment l) as [rest|]; [|discriminate].
  rewrite (IH rest Hle eq_refl).
  assert (Eh' :
    match DayjsImpl._getMomentsFromShift fromMoment shift with
    | (Some startAt, Some endAt) =>
        if negb (Dj.isSameOrBefore (Dj.max firstFromMoment startAt)
                   (Dj.min lastToMoment endAt))
        then Some []
        else DayjsImpl._getAvailableTimeSlotsForShift fuel' usedConfig eventList
               (Dj.max firstFromMoment startAt) (Dj.min lastToMoment endAt)
    | _ => Some []
    end = Some here).
  { destruct (DayjsImpl._getMomentsFromShift fromMoment shift) as [[startAt|] [endAt|]];
      try exact Eh.
    destruct (negb _); [exact Eh|].
    unfold DayjsImpl._getAvailableTimeSlotsForShift in *.
    eapply searchLoop_more_fuel; eauto. }
  rewrite Eh'. exact H.
Qed.

Lemma dayLoop_more_fuel usedConfig eventList firstFromMoment lastToMoment :
  forall fuel fuel' shiftFuel shiftFuel' fromMoment slots,
    (fuel <= fuel')%nat -> (shiftFuel <= shiftFuel')%nat ->
    DayjsImpl.dayLoop fuel usedConfig eventList firstFromMoment lastToMoment
                      fromMoment shiftFuel = Some slots ->
    DayjsImpl.dayLoop fuel' usedConfig eventList firstFromMoment lastToMoment
                      fromMoment shiftFuel' = Some slots.
Proof.
  induction fuel as [|fuel IH]; intros fuel' sf sf' fromMoment slots Hle Hsf H;
    [discriminate|].
  destruct fuel' as [|fuel']; [lia|].
  cbn [DayjsImpl.dayLoop] in *.
  destruct (Dj.isBefore fromMoment lastToMoment); [|exact H].
  match type of H with
  | (match ?h with Some _ => _ | None => _ end) = _ =>
      destruct h as [today|] eqn:Et; [|discriminate]
  end.
  destruct (DayjsImpl.dayLoop fuel usedConfig eventList firstFromMoment lastToMoment
              (Dj.startOf_day (Dj.add_day 1 fromMoment)) sf) as [rest|] eqn:Er;
    [|discriminate].
  rewrite (IH fuel' sf sf' _ rest ltac:(lia) Hsf Er).
  assert (Et' :
    match DayjsImpl._getWeekDayConfigForMoment usedConfig fromMoment with
    | Some weekDayConfig =>
        DayjsImpl.forEachShift sf' usedConfig eventList firstFromMoment lastToMoment
                               fromMoment (shifts weekDayConfig)
    | None => Some []
    end = Some today).
  { destruct (DayjsImpl._getWeekDayConfigForMoment usedConfig fromMoment); [|exact Et].
    eapply forEachShift_more_fuel; eauto. }
  rewrite Et'. exact H.
Qed.

(** A list of slots returned with some fuel is returned with any larger
    amount of fuel. *)
Lemma getAvailableTimeSlotsInCalendar_more_fuel fuel fuel' params clock slots :
  (fuel <= fuel')%nat ->
  run (DayjsImpl.getAvailableTimeSlotsInCalendar fuel params) clock = Returned slots ->
  run (DayjsImpl.getAvailableTimeSlotsInCalendar fuel' params) clock = Returned slots.
Proof.
  unfold run, DayjsImpl.getAvailableTimeSlotsInCalendar, bind. intros Hle H.
  destruct (DayjsImpl._checkSearchParameters (configuration params) (from params)
              (to params) clock 0%nat) as [[usedConfig|e|] n1]; try exact H.
  destruct (DayjsImpl._getUnavailablePeriodAsEvents _ _ clock n1) as [[events|e|] n2];
    try exact H.
  destruct (DayjsImpl._computeBoundaries _ _ usedConfig clock n2)
    as [[[[firstFrom|] [lastTo|]]|e|] n3]; try exact H.
  destruct (DayjsImpl.dayLoop fuel usedConfig events firstFrom lastTo firstFrom fuel)
    as [timeSlots|] eqn:Ed; [|discriminate].
  rewrite (dayLoop_more_fuel usedConfig events firstFrom lastTo fuel fuel' fuel fuel'
             firstFrom timeSlots Hle Hle Ed).
  exact H.
Qed.

(** ** ShiftMerger: what the merged list is *)

Lemma startLe_trans a b c : startLe a b -> startLe b c -> startLe a c.
Proof. unfold startLe. apply localeCompare_le_trans. Qed.

Lemma localeCompare_lt_le_trans a b c :
  localeCompare a b < 0 -> localeCompare b c <= 0 -> localeCompare a c < 0.
Proof.
  intros H1 H2.
  assert (E2 : localeCompare b c < 0 \/ localeCompare b c = 0) by lia.
  destruct E2 as [E2|E2].
  - apply localeCompare_lt_iff in H1, E2. apply localeCompare_lt_iff.
    eapply String_as_OT.lt_trans; eauto.
  - apply localeCompare_eq_iff in E2. subst. assumption.
Qed.

Lemma localeCompare_le_lt_trans a b c :
  localeCompare a b <= 0 -> localeCompare b c < 0 -> localeCompare a c < 0.
Proof.
  intros H1 H2.
  assert (E1 : localeCompare a b < 0 \/ localeCompare a b = 0) by lia.
  destruct E1 as [E1|E1].
  - apply localeCompare_lt_iff in E1, H2. apply localeCompare_lt_iff.
    eapply String_as_OT.lt_trans; eauto.
  - apply localeCompare_eq_iff in E1. subst. assumption.
Qed.

Lemma localeCompare_refl a : localeCompare a a = 0.
Proof. apply localeCompare_eq_iff. reflexivity. Qed.

Lemma Merged_head_le x l : Merged (x :: l) -> Forall (startLe x) l.
Proof.
  revert x. induction l as [|y l IH]; intros x H; [constructor|].
  inversion H as [| |? ? ? Hle Hgap Hm]; subst.
  constructor; [assumption|].
  eapply Forall_impl; [|apply (IH y Hm)].
  intros z Hz. eapply startLe_trans; eauto.
Qed.

Lemma Merged_pairwise l : Merged l -> StronglySorted endsBefore l.
Proof.
  induction l as [|x l IH]; intro H; [constructor|].
  constructor; [apply IH; eapply Merged_tail; eauto|].
  destruct l as [|y l]; [constructor|].
  inversion H as [| |? ? ? Hle Hgap Hm]; subst.
  constructor; [split; assumption|].
  eapply Forall_impl; [|apply (Merged_head_le y l Hm)].
  intros z Hz. split; [eapply startLe_trans; eauto|].
  eapply localeCompare_lt_le_trans; eauto.
Qed.

(** X1. The list returned by [_mergeOverlappingShifts] is in the order of
    the start times, and of any two of its shifts the earlier one ends
    strictly before the later one starts: no two shifts of the result
    overlap or touch.  This holds for every input, valid shifts or not. *)
Theorem merged_shifts_are_ordered_and_apart :
  forall shifts : list Shift,
    StronglySorted endsBefore (_mergeOverlappingShifts shifts).
Proof.
  intro shifts. apply Merged_pairwise.
  rewrite mergeOverlappingShifts_eq.
  pose proof (sortShifts_sorted shifts) as Hs.
  destruct (sortShifts shifts) as [|x r]; simpl; [constructor|].
  inversion Hs; subst. apply mergeRun_Merged; assumption.
Qed.

Lemma insertShift_In s x l : In s (insertShift x l) <-> s = x \/ In s l.
Proof.
  induction l as [|y l IH]; simpl.
  - intuition.
  - destruct (localeCompare (startTime y) (startTime x) <? 0); simpl; rewrite ?IH;
      intuition.
Qed.

Lemma sortShifts_In s l : In s (sortShifts l) <-> In s l.
Proof.
  induction l as [|x l IH]; simpl; [reflexivity|].
  rewrite insertShift_In, IH. intuition.
Qed.

(** One step of the pass: the pending shift, extended or not, covers what
    it and the absorbed shift cover. *)
Lemma absorb_covers cur nxt t :
  startLe cur nxt ->
  0 <= localeCompare (endTime cur) (startTime nxt) ->
  covers (if localeCompare (endTime cur) (endTime nxt) <? 0
          then mkShift (startTime cur) (endTime nxt) else cur) t
  <-> covers cur t \/ covers nxt t.
Proof.
  unfold startLe, covers. intros Hle Hov.
  assert (Hov' : localeCompare (startTime nxt) (endTime cur) <= 0)
    by (rewrite localeCompare_antisym; lia).
  destruct (localeCompare (endTime cur) (endTime nxt) <? 0) eqn:E; simpl.
  - apply Z.ltb_lt in E. split.
    + intros [H1 H2].
      destruct (Z_le_gt_dec (localeCompare t (endTime cur)) 0) as [Hc|Hc]; [left; auto|].
      right. split; [|assumption].
      assert (Hc' : localeCompare (endTime cur) t <= 0)
        by (rewrite localeCompare_antisym; lia).
      eapply localeCompare_le_trans; eauto.
    + intros [[H1 H2]|[H1 H2]].
      * split; [assumption|].
        eapply localeCompare_le_trans; [exact H2|lia].
      * split; [|assumption]. eapply localeCompare_le_trans; eauto.
  - apply Z.ltb_ge in E. split; [auto|].
    intros [H|[H1 H2]]; [assumption|].
    assert (E' : localeCompare (endTime nxt) (endTime cur) <= 0)
      by (rewrite localeCompare_antisym; lia).
    split; eapply localeCompare_le_trans; eauto.
Qed.

Lemma mergeRun_covers t rest :
  forall cur,
    Forall (startLe cur) rest ->
    StronglySorted startLe rest ->
    (exists s, In s (mergeRun cur rest) /\ covers s t)
    <-> (exists s, In s (cur :: rest) /\ covers s t).
Proof.
  induction rest as [|nxt rest IH]; intros cur Hcur Hs; simpl; [reflexivity|].
  inversion Hcur as [|? ? Hn Hr]; subst. inversion Hs as [|? ? Hs' Hall]; subst.
  destruct (0 <=? localeCompare (endTime cur) (startTime nxt)) eqn:E.
  - apply Z.leb_le in E.
    set (cur' := if localeCompare (endTime cur) (endTime nxt) <? 0
                 then mkShift (startTime cur) (endTime nxt) else cur).
    assert (Hcur' : Forall (startLe cur') rest).
    { eapply Forall_impl; [|exact Hr]. unfold startLe, cur'. intros z Hz.
      destruct (localeCompare (endTime cur) (endTime nxt) <? 0); exact Hz. }
    rewrite (IH cur' Hcur' Hs'). simpl.
    pose proof (absorb_covers cur nxt t Hn E) as Hab. fold cur' in Hab.
    split.
    + intros (s & [Hin|Hin] & Hc).
      * subst s. apply Hab in Hc. destruct Hc as [Hc|Hc]; eauto.
      * eauto.
    + intros (s & [Hin|[Hin|Hin]] & Hc).
      * subst s. exists cur'. split; [auto|]. apply Hab. auto.
      * subst s. exists cur'. split; [auto|]. apply Hab. auto.
      * eauto.
  - simpl. split.
    + intros (s & [Hin|Hin] & Hc); [eauto|].
      destruct (proj1 (IH nxt Hall Hs') (ex_intro _ s (conj Hin Hc)))
        as (s' & Hin' & Hc').
      exists s'. split; [right; exact Hin'|exact Hc'].
    + intros (s & [Hin|Hin] & Hc); [eauto|].
      destruct (proj2 (IH nxt Hall Hs') (ex_intro _ s (conj Hin Hc)))
        as (s' & Hin' & Hc').
      exists s'. split; [right; exact Hin'|exact Hc'].
Qed.

(** X2. Merging neither loses nor adds a time of day: a time lies within
    some shift of the list given to [_mergeOverlappingShifts] exactly when
    it lies within some shift of the list returned. *)
Theorem merged_shifts_cover_the_same_times :
  forall (shifts : list Shift) (t : string),
    (exists s, In s (_mergeOverlappingShifts shifts) /\ covers s t)
    <-> (exists s, In s shifts /\ covers s t).
Proof.
  intros shifts t. rewrite mergeOverlappingShifts_eq.
  pose proof (sortShifts_sorted shifts) as Hs.
  assert (Hin : forall s, In s (sortShifts shifts) <-> In s shifts)
    by (intro s; apply sortShifts_In).
  destruct (sortShifts shifts) as [|x r]; simpl.
  - split; intros (s & H & Hc); [contradiction|]. apply Hin in H. contradiction.
  - inversion Hs; subst.
    rewrite (mergeRun_covers t r x); [|assumption|assumption].
    split; intros (s & H & Hc); exists s; (split; [apply Hin; exact H|exact Hc]).
Qed.

Lemma mergeRun_length_le rest :
  forall cur, (List.length (mergeRun cur rest) <= S (List.length rest))%nat.
Proof.
  induction rest as [|nxt rest IH]; intro cur; simpl; [lia|].
  destruct (0 <=? localeCompare (endTime cur) (startTime nxt)).
  - match goal with |- (List.length (mergeRun ?c rest) <= _)%nat =>
      specialize (IH c) end. lia.
  - simpl. specialize (IH nxt). lia.
Qed.

Lemma mergeRun_full_length rest :
  forall cur,
    Forall (startLe cur) rest ->
    StronglySorted startLe rest ->
    List.length (mergeRun cur rest) = S (List.length rest) ->
    Merged (cur :: rest).
Proof.
  induction rest as [|nxt rest IH]; intros cur Hcur Hs Hlen; [constructor|].
  inversion Hcur as [|? ? Hn Hr]; subst. inversion Hs as [|? ? Hs' Hall]; subst.
  simpl in Hlen.
  destruct (0 <=? localeCompare (endTime cur) (startTime nxt)) eqn:E.
  - exfalso.
    match type of Hlen with List.length (mergeRun ?c rest) = _ =>
      pose proof (mergeRun_length_le rest c) end. lia.
  - apply Z.leb_gt in E. simpl in Hlen.
    constructor; [assumption|assumption|]. apply IH; auto.
Qed.

(** The test [_mergeOverlappingShifts(shifts).length !== shifts.length] of
    [_isAvailablePeriodValid]: the lengths agree exactly when, in the order
    of their start times, every shift ends strictly before the next one
    starts. *)
Lemma merge_keeps_length_iff shifts :
  List.length (_mergeOverlappingShifts shifts) = List.length shifts
  <-> Merged (sortShifts shifts).
Proof.
  rewrite mergeOverlappingShifts_eq.
  pose proof (sortShifts_sorted shifts) as Hs.
  pose proof (sortShifts_length shifts) as Hl.
  destruct (sortShifts shifts) as [|x r]; simpl in *.
  - split; [constructor|auto].
  - inversion Hs; subst. split.
    + intro H. apply mergeRun_full_length; auto. congruence.
    + intro H. rewrite mergeRun_Merged_id by assumption. simpl. congruence.
Qed.

(** ** [_isShiftValid]: the accepted shifts *)

Lemma isDigit_bounds c : isDigit c = true -> 0 <= digitValue c <= 9.
Proof.
  unfold isDigit, digitValue. cbv zeta. rewrite andb_true_iff, !N.leb_le. lia.
Qed.

Lemma isDigit_not_colon c : isDigit c = true -> (N_of_ascii c =? 58)%N = false.
Proof.
  unfold isDigit. cbv zeta. rewrite andb_true_iff, !N.leb_le, N.eqb_neq. lia.
Qed.

Lemma digitChar_digitValue c : isDigit c = true -> digitChar (digitValue c) = c.
Proof.
  intro H. unfold isDigit in H. cbv zeta in H.
  rewrite andb_true_iff, !N.leb_le in H.
  unfold digitChar, digitValue.
  replace (Z.to_N (48 + (Z.of_N (N_of_ascii c) - 48))) with (N_of_ascii c) by lia.
  apply ascii_N_embedding.
Qed.

Lemma N_of_digitChar d : 0 <= d <= 9 -> N_of_ascii (digitChar d) = Z.to_N (48 + d).
Proof. intro H. unfold digitChar. apply N_ascii_embedding. lia. Qed.

Lemma isDigit_digitChar d : 0 <= d <= 9 -> isDigit (digitChar d) = true.
Proof.
  intro H. unfold isDigit. cbv zeta. rewrite (N_of_digitChar d H).
  rewrite andb_true_iff, !N.leb_le. lia.
Qed.

Lemma digitValue_digitChar d : 0 <= d <= 9 -> digitValue (digitChar d) = d.
Proof. intro H. unfold digitValue. rewrite (N_of_digitChar d H). lia. Qed.

Lemma matchesHHmm_inv s :
  matchesHHmm s = true ->
  exists a b c d,
    s = timeString a b c d
    /\ isDigit a = true /\ isDigit b = true /\ isDigit c = true /\ isDigit d = true.
Proof.
  destruct s as [|a [|b [|k [|c [|d [|x s]]]]]]; try discriminate.
  simpl. rewrite !andb_true_iff, N.eqb_eq. intros [[[[Ha Hb] Hk] Hc] Hd].
  exists a, b, c, d. repeat split; try assumption.
  unfold timeString. rewrite <- (ascii_N_embedding k), Hk. reflexivity.
Qed.

Lemma matchesHHmm_timeString a b c d :
  isDigit a = true -> isDigit b = true -> isDigit c = true -> isDigit d = true ->
  matchesHHmm (timeString a b c d) = true.
Proof.
  intros Ha Hb Hc Hd. unfold timeString, matchesHHmm.
  rewrite Ha, Hb, Hc, Hd. reflexivity.
Qed.

(** [time.split(":").map(Number)] on such a string. *)
Lemma split_numbers a b c d :
  isDigit a = true -> isDigit b = true -> isDigit c = true -> isDigit d = true ->
  map Number (map Some (splitColon (timeString a b c d) EmptyString))
  = [Some (digitValue a * 10 + digitValue b); Some (digitValue c * 10 + digitValue d)].
Proof.
  intros Ha Hb Hc Hd. unfold timeString. cbn [splitColon].
  rewrite (isDigit_not_colon a Ha), (isDigit_not_colon b Hb),
          (isDigit_not_colon c Hc), (isDigit_not_colon d Hd).
  replace (N_of_ascii ":" =? 58)%N with true by reflexivity.
  cbn [String.append map Number allDigits list_ascii_of_string forallb parseDigits].
  rewrite Ha, Hb, Hc, Hd. reflexivity.
Qed.

(** [parseInt(time.slice(0, 2), 10)] and [parseInt(time.slice(3), 10)] on
    such a string. *)
Lemma parse_numbers a b c d :
  isDigit a = true -> isDigit b = true -> isDigit c = true -> isDigit d = true ->
  parseInt (slice_0_2 (timeString a b c d)) = Some (digitValue a * 10 + digitValue b)
  /\ parseInt (slice_from 3 (timeString a b c d))
     = Some (digitValue c * 10 + digitValue d).
Proof.
  intros Ha Hb Hc Hd. unfold timeString, slice_0_2, slice_from, parseInt.
  cbn [String.substring String.length Nat.sub parseDigits].
  rewrite Ha, Hb, Hc, Hd. split; reflexivity.
Qed.

Lemma ascii_compare_digits a b :
  Ascii.compare a b = (digitValue a ?= digitValue b).
Proof.
  unfold Ascii.compare, digitValue.
  destruct (N.compare_spec (N_of_ascii a) (N_of_ascii b)) as [E|E|E]; symmetry.
  - apply Z.compare_eq_iff. lia.
  - apply Z.compare_lt_iff. lia.
  - apply Z.compare_gt_iff. lia.
Qed.

(** On strings of the shape [ab:cd] the order of [localeCompare] is the
    order of the times of day. *)
Lemma localeCompare_times a b c d a' b' c' d' :
  0 <= digitValue b <= 9 -> 0 <= digitValue c <= 9 -> 0 <= digitValue d <= 9 ->
  0 <= digitValue b' <= 9 -> 0 <= digitValue c' <= 9 -> 0 <= digitValue d' <= 9 ->
  (0 <? localeCompare (timeString a b c d) (timeString a' b' c' d')) = true
  <-> (digitValue a' * 10 + digitValue b') * 100 + (digitValue c' * 10 + digitValue d')
      < (digitValue a * 10 + digitValue b) * 100 + (digitValue c * 10 + digitValue d).
Proof.
  intros Hb Hc Hd Hb' Hc' Hd'.
  unfold localeCompare, timeString. cbn [String.compare].
  rewrite !ascii_compare_digits.
  replace (digitValue ":" ?= digitValue ":") with Eq by reflexivity.
  generalize dependent (digitValue a). generalize dependent (digitValue b).
  generalize dependent (digitValue c). generalize dependent (digitValue d).
  generalize dependent (digitValue a'). generalize dependent (digitValue b').
  generalize dependent (digitValue c'). generalize dependent (digitValue d').
  intros z1 Hz1 z2 Hz2 z3 Hz3 z4 z5 Hz5 z6 Hz6 z7 Hz7 z8.
  destruct (Z.compare_spec z8 z4); [|cbn; rewrite ?Z.ltb_lt, ?Z.ltb_ge; split; lia ..].
  destruct (Z.compare_spec z7 z3);
    [|cbn; rewrite ?Z.ltb_lt, ?Z.ltb_ge; split; try lia; discriminate ..].
  destruct (Z.compare_spec z6 z2);
    [|cbn; rewrite ?Z.ltb_lt, ?Z.ltb_ge; split; try lia; discriminate ..].
  destruct (Z.compare_spec z5 z1);
    cbn; rewrite ?Z.ltb_lt, ?Z.ltb_ge; split; try lia; discriminate.
Qed.

Lemma timeString_hhmm a b c d :
  isDigit a = true -> isDigit b = true -> isDigit c = true -> isDigit d = true ->
  timeString a b c d
  = hhmm (digitValue a * 10 + digitValue b) (digitValue c * 10 + digitValue d).
Proof.
  intros Ha Hb Hc Hd.
  pose proof (isDigit_bounds a Ha). pose proof (isDigit_bounds b Hb).
  pose proof (isDigit_bounds c Hc). pose proof (isDigit_bounds d Hd).
  unfold hhmm, twoDigits, timeString. cbn [String.append].
  replace ((digitValue a * 10 + digitValue b) / 10) with (digitValue a) by zdiv.
  replace ((digitValue a * 10 + digitValue b) mod 10) with (digitValue b) by zdiv.
  replace ((digitValue c * 10 + digitValue d) / 10) with (digitValue c) by zdiv.
  replace ((digitValue c * 10 + digitValue d) mod 10) with (digitValue d) by zdiv.
  rewrite !digitChar_digitValue by assumption. reflexivity.
Qed.

Lemma hhmm_timeString h m :
  0 <= h <= 99 -> 0 <= m <= 99 ->
  hhmm h m = timeString (digitChar (h / 10)) (digitChar (h mod 10))
                        (digitChar (m / 10)) (digitChar (m mod 10))
  /\ isDigit (digitChar (h / 10)) = true /\ isDigit (digitChar (h mod 10)) = true
  /\ isDigit (digitChar (m / 10)) = true /\ isDigit (digitChar (m mod 10)) = true
  /\ digitValue (digitChar (h / 10)) * 10 + digitValue (digitChar (h mod 10)) = h
  /\ digitValue (digitChar (m / 10)) * 10 + digitValue (digitChar (m mod 10)) = m.
Proof.
  intros Hh Hm.
  assert (H1 : 0 <= h / 10 <= 9) by zdiv. assert (H2 : 0 <= h mod 10 <= 9) by zdiv.
  assert (H3 : 0 <= m / 10 <= 9) by zdiv. assert (H4 : 0 <= m mod 10 <= 9) by zdiv.
  split; [reflexivity|].
  rewrite !isDigit_digitChar, !digitValue_digitChar by assumption.
  repeat split; zdiv.
Qed.

(** The verdict of [_isShiftValid] on two strings of the shape [ab:cd]. *)
Lemma isShiftValid_timeStrings a b c d a' b' c' d' :
  isDigit a = true -> isDigit b = true -> isDigit c = true -> isDigit d = true ->
  isDigit a' = true -> isDigit b' = true -> isDigit c' = true -> isDigit d' = true ->
  _isShiftValid (mkShift (timeString a b c d) (timeString a' b' c' d')) = true
  <-> digitValue a * 10 + digitValue b <= 23 /\ digitValue c * 10 + digitValue d <= 59
      /\ digitValue a' * 10 + digitValue b' <= 23
      /\ digitValue c' * 10 + digitValue d' <= 59
      /\ (digitValue a * 10 + digitValue b) * 60 + (digitValue c * 10 + digitValue d)
         < (digitValue a' * 10 + digitValue b') * 60
           + (digitValue c' * 10 + digitValue d').
Proof.
  intros Ha Hb Hc Hd Ha' Hb' Hc' Hd'.
  unfold _isShiftValid. cbn [startTime endTime]. cbv zeta.
  rewrite !split_numbers, !matchesHHmm_timeString by assumption.
  cbn [nth numBetween].
  pose proof (isDigit_bounds a Ha). pose proof (isDigit_bounds b Hb).
  pose proof (isDigit_bounds c Hc). pose proof (isDigit_bounds d Hd).
  pose proof (isDigit_bounds a' Ha'). pose proof (isDigit_bounds b' Hb').
  pose proof (isDigit_bounds c' Hc'). pose proof (isDigit_bounds d' Hd').
  rewrite !andb_true_iff, !Z.leb_le.
  rewrite (localeCompare_times a' b' c' d' a b c d) by assumption.
  lia.
Qed.

(** X4. [_isShiftValid] accepts exactly the shifts whose two times are
    written [HH:mm], with an hour up to 23 and a minute up to 59, and whose
    end is later in the day than the start: on such strings the order of
    [localeCompare] is the order of the times. *)
Theorem isShiftValid_iff_times_in_order :
  forall shift : Shift,
    _isShiftValid shift = true
    <-> exists h1 m1 h2 m2,
          0 <= h1 <= 23 /\ 0 <= m1 <= 59 /\ 0 <= h2 <= 23 /\ 0 <= m2 <= 59
          /\ shift = mkShift (hhmm h1 m1) (hhmm h2 m2)
          /\ h1 * 60 + m1 < h2 * 60 + m2.
Proof.
  intros [st en]. split.
  - intro H.
    assert (Hm : matchesHHmm st = true /\ matchesHHmm en = true).
    { unfold _isShiftValid in H. cbn [startTime endTime] in H. cbv zeta in H.
      rewrite !andb_true_iff in H. tauto. }
    destruct Hm as [Hst Hen].
    destruct (matchesHHmm_inv st Hst) as (a & b & c & d & -> & Ha & Hb & Hc & Hd).
    destruct (matchesHHmm_inv en Hen) as (a' & b' & c' & d' & -> & Ha' & Hb' & Hc' & Hd').
    apply isShiftValid_timeStrings in H; try assumption.
    pose proof (isDigit_bounds a Ha). pose proof (isDigit_bounds b Hb).
    pose proof (isDigit_bounds c Hc). pose proof (isDigit_bounds d Hd).
    pose proof (isDigit_bounds a' Ha'). pose proof (isDigit_bounds b' Hb').
    pose proof (isDigit_bounds c' Hc'). pose proof (isDigit_bounds d' Hd').
    exists (digitValue a * 10 + digitValue b), (digitValue c * 10 + digitValue d),
           (digitValue a' * 10 + digitValue b'), (digitValue c' * 10 + digitValue d').
    rewrite <- !timeString_hhmm by assumption.
    repeat split; try lia.
  - intros (h1 & m1 & h2 & m2 & Hh1 & Hm1 & Hh2 & Hm2 & -> & Hlt).
    destruct (hhmm_timeString h1 m1) as (-> & Da & Db & Dc & Dd & Eh1 & Em1); [lia|lia|].
    destruct (hhmm_timeString h2 m2) as (-> & Da' & Db' & Dc' & Dd' & Eh2 & Em2);
      [lia|lia|].
    apply isShiftValid_timeStrings; try assumption.
    rewrite Eh1, Em1, Eh2, Em2. lia.
Qed.

(** ** [_isAvailablePeriodValid]: the accepted weekly periods *)

Lemma checkShifts_outcome l index clock n :
  snd (checkShifts l index clock n) = n
  /\ (fst (checkShifts l index clock n) = Returned tt
      <-> Forall (fun shift => _isShiftValid shift = true) l).
Proof.
  induction l as [|s l IH]; cbn [checkShifts].
  - split; [reflexivity|]. split; [constructor|reflexivity].
  - destruct (_isShiftValid s) eqn:E; cbn [negb].
    + destruct IH as [IH1 IH2]. split; [exact IH1|].
      rewrite IH2. split; [intro H; constructor; assumption|].
      intro H. inversion H; assumption.
    + split; [reflexivity|]. split; [discriminate|].
      intro H. inversion H; congruence.
Qed.

Lemma pairwise_Merged l : StronglySorted endsBefore l -> Merged l.
Proof.
  induction l as [|x l IH]; intro H; [constructor|].
  inversion H as [|? ? Hs Hall]; subst.
  destruct l as [|y l]; [constructor|].
  inversion Hall as [|? ? [Hle Hgap] _]; subst.
  constructor; auto.
Qed.

(** X3. [_isAvailablePeriodValid] returns [true] exactly for a period
    whose weekday is within 1 .. 7, whose shifts are all accepted by
    [_isShiftValid] and, taken in the order of their start times, are
    apart: each one ends strictly before the next one starts.  Shifts that
    merely touch (one ends when the next starts) are refused like
    overlapping ones. *)
Theorem available_period_accepted_iff :
  forall (availablePeriod : AvailablePeriod) (index : nat) (clock : Clock) (n : nat),
    fst (_isAvailablePeriodValid availablePeriod index clock n) = Returned true
    <-> 1 <= isoWeekDay availablePeriod <= 7
        /\ Forall (fun shift => _isShiftValid shift = true) (shifts availablePeriod)
        /\ StronglySorted endsBefore (sortShifts (shifts availablePeriod)).
Proof.
  intros p index clock n. unfold _isAvailablePeriodValid.
  destruct ((isoWeekDay p <? 1) || (7 <? isoWeekDay p)) eqn:Ew.
  - rewrite orb_true_iff, !Z.ltb_lt in Ew.
    split; [discriminate|]. intros [H _]. lia.
  - rewrite orb_false_iff, !Z.ltb_ge in Ew.
    destruct (checkShifts_outcome (shifts p) index clock n) as [Hn Hs].
    unfold bind.
    destruct (checkShifts (shifts p) index clock n) as [[[]|e|] n'] eqn:Ec;
      cbn [fst snd] in Hn, Hs.
    + assert (Hv : Forall (fun shift => _isShiftValid shift = true) (shifts p))
        by (apply Hs; reflexivity).
      destruct (List.length (_mergeOverlappingShifts (shifts p))
                =? List.length (shifts p))%nat eqn:El; cbn [negb fst].
      * apply Nat.eqb_eq, merge_keeps_length_iff in El.
        split; [intros _|reflexivity].
        split; [lia|]. split; [assumption|]. apply Merged_pairwise. assumption.
      * apply Nat.eqb_neq in El.
        split; [discriminate|]. intros (_ & _ & Hm).
        exfalso. apply El. apply merge_keeps_length_iff, pairwise_Merged. assumption.
    + cbn [fst]. split; [discriminate|]. intros (_ & Hv & _).
      apply Hs in Hv. discriminate.
    + cbn [fst]. split; [discriminate|]. intros (_ & Hv & _).
      apply Hs in Hv. discriminate.
Qed.

(** ** The moments of a shift on a day *)

Lemma valid_shift_times shift :
  _isShiftValid shift = true ->
  exists h1 m1 h2 m2,
    0 <= h1 <= 23 /\ 0 <= m1 <= 59 /\ 0 <= h2 <= 23 /\ 0 <= m2 <= 59
    /\ h1 * 60 + m1 < h2 * 60 + m2
    /\ shift = mkShift (hhmm h1 m1) (hhmm h2 m2)
    /\ matchesHHmm (startTime shift) = true /\ matchesHHmm (endTime shift) = true
    /\ parseInt (slice_0_2 (startTime shift)) = Some h1
    /\ parseInt (slice_from 3 (startTime shift)) = Some m1
    /\ parseInt (slice_0_2 (endTime shift)) = Some h2
    /\ parseInt (slice_from 3 (endTime shift)) = Some m2.
Proof.
  destruct shift as [st en]. intro H.
  assert (Hm : matchesHHmm st = true /\ matchesHHmm en = true).
  { unfold _isShiftValid in H. cbn [startTime endTime] in H. cbv zeta in H.
    rewrite !andb_true_iff in H. tauto. }
  destruct Hm as [Hst Hen]. cbn [startTime endTime].
  destruct (matchesHHmm_inv st Hst) as (a & b & c & d & -> & Ha & Hb & Hc & Hd).
  destruct (matchesHHmm_inv en Hen) as (a' & b' & c' & d' & -> & Ha' & Hb' & Hc' & Hd').
  apply isShiftValid_timeStrings in H; try assumption.
  pose proof (isDigit_bounds a Ha). pose proof (isDigit_bounds b Hb).
  pose proof (isDigit_bounds c Hc). pose proof (isDigit_bounds d Hd).
  pose proof (isDigit_bounds a' Ha'). pose proof (isDigit_bounds b' Hb').
  pose proof (isDigit_bounds c' Hc'). pose proof (isDigit_bounds d' Hd').
  destruct (parse_numbers a b c d Ha Hb Hc Hd) as [P1 P2].
  destruct (parse_numbers a' b' c' d' Ha' Hb' Hc' Hd') as [P3 P4].
  exists (digitValue a * 10 + digitValue b), (digitValue c * 10 + digitValue d),
         (digitValue a' * 10 + digitValue b'), (digitValue c' * 10 + digitValue d').
  rewrite <- !timeString_hhmm by assumption.
  repeat split; try lia; assumption.
Qed.

(** [d.hour(h).minute(m)] on the wall clock: the day, the seconds and the
    milliseconds of [d] are kept. *)
Lemma set_hour_minute d h m :
  0 <= h <= 23 -> 0 <= m <= 59 ->
  Dj.set_minute m (Dj.set_hour h d)
  = onDayOf d h m (Dj.localMs d mod msPerMinute).
Proof.
  intros Hh Hm. unfold onDayOf, Dj.set_minute, Dj.set_hour, Dj.minute, Dj.hour.
  rewrite !localMs_withLocalMs.
  unfold Dj.withLocalMs. cbn [utcOffset]. f_equal. f_equal.
  generalize (Dj.localMs d). intro L.
  unfold msPerDay, msPerHour, msPerMinute. zdiv.
Qed.

Lemma onDayOf_lt d h1 m1 h2 m2 rest :
  h1 * 60 + m1 < h2 * 60 + m2 ->
  valueOf (onDayOf d h1 m1 rest) < valueOf (onDayOf d h2 m2 rest).
Proof.
  intro H. unfold onDayOf, Dj.withLocalMs, msPerHour, msPerMinute. cbn [valueOf]. lia.
Qed.

(** X5. For a shift accepted by [_isShiftValid], the dayjs
    [_getMomentsFromShift] gives the two times of the shift on the day of
    [fromMoment], in its zone, the start before the end; the seconds and
    milliseconds of [fromMoment] are carried over to both. *)
Theorem dayjs_moments_of_a_valid_shift :
  forall (fromMoment : Dayjs) (shift : Shift),
    _isShiftValid shift = true ->
    exists h1 m1 h2 m2,
      shift = mkShift (hhmm h1 m1) (hhmm h2 m2)
      /\ DayjsImpl._getMomentsFromShift fromMoment shift
         = (Some (onDayOf fromMoment h1 m1 (Dj.localMs fromMoment mod msPerMinute)),
            Some (onDayOf fromMoment h2 m2 (Dj.localMs fromMoment mod msPerMinute)))
      /\ valueOf (onDayOf fromMoment h1 m1 (Dj.localMs fromMoment mod msPerMinute))
         < valueOf (onDayOf fromMoment h2 m2 (Dj.localMs fromMoment mod msPerMinute)).
Proof.
  intros fromMoment shift H.
  destruct (valid_shift_times shift H)
    as (h1 & m1 & h2 & m2 & Hh1 & Hm1 & Hh2 & Hm2 & Hlt & E & _ & _ & P1 & P2 & P3 & P4).
  exists h1, m1, h2, m2. split; [exact E|]. split.
  - unfold DayjsImpl._getMomentsFromShift. rewrite P1, P2, P3, P4.
    rewrite !set_hour_minute by assumption. reflexivity.
  - apply onDayOf_lt. exact Hlt.
Qed.

Lemma dayjs_moments_of_a_valid_shift_witness :
  exists h1 m1 h2 m2,
    mkShift "12:00" "22:00" = mkShift (hhmm h1 m1) (hhmm h2 m2)
    /\ DayjsImpl._getMomentsFromShift
         (mkDayjs (atUTC 2020 10 15 15 3 12 592) 0) (mkShift "12:00" "22:00")
       = (Some (onDayOf (mkDayjs (atUTC 2020 10 15 15 3 12 592) 0) h1 m1
                  (Dj.localMs (mkDayjs (atUTC 2020 10 15 15 3 12 592) 0) mod msPerMinute)),
          Some (onDayOf (mkDayjs (atUTC 2020 10 15 15 3 12 592) 0) h2 m2
                  (Dj.localMs (mkDayjs (atUTC 2020 10 15 15 3 12 592) 0) mod msPerMinute)))
    /\ valueOf (onDayOf (mkDayjs (atUTC 2020 10 15 15 3 12 592) 0) h1 m1
                  (Dj.localMs (mkDayjs (atUTC 2020 10 15 15 3 12 592) 0) mod msPerMinute))
       < valueOf (onDayOf (mkDayjs (atUTC 2020 10 15 15 3 12 592) 0) h2 m2
                    (Dj.localMs (mkDayjs (atUTC 2020 10 15 15 3 12 592) 0) mod msPerMinute)).
Proof.
  apply (dayjs_moments_of_a_valid_shift
           (mkDayjs (atUTC 2020 10 15 15 3 12 592) 0) (mkShift "12:00" "22:00")).
  vm_compute. reflexivity.
Defined.

Lemma fromISO_valid time h m clock n :
  matchesHHmm time = true ->
  parseInt (slice_0_2 time) = Some h -> parseInt (slice_from 3 time) = Some m ->
  h <= 23 -> m <= 59 ->
  LuxonImpl.fromISO_hourMinute time clock n = (Returned (h, m), S n).
Proof.
  intros Hm Ph Pm Hh Hmi. unfold LuxonImpl.fromISO_hourMinute, bind, readClock.
  rewrite Hm, Ph, Pm.
  replace (h <=? 23) with true by (symmetry; apply Z.leb_le; assumption).
  replace (m <=? 59) with true by (symmetry; apply Z.leb_le; assumption).
  reflexivity.
Qed.

Lemma set_hms_onDayOf h m d : LuxonImpl.set_hms h m d = onDayOf d h m 0.
Proof.
  unfold LuxonImpl.set_hms, onDayOf. f_equal. lia.
Qed.

(** X6. For a shift accepted by [_isShiftValid], the luxon
    [_getMomentsFromShift] reads the clock twice and gives the two times
    of the shift on the day of [fromMoment], in its zone, the start before
    the end, with seconds and milliseconds reset to zero. *)
Theorem luxon_moments_of_a_valid_shift :
  forall (fromMoment : Dayjs) (shift : Shift) (clock : Clock) (n : nat),
    _isShiftValid shift = true ->
    exists h1 m1 h2 m2,
      shift = mkShift (hhmm h1 m1) (hhmm h2 m2)
      /\ LuxonImpl._getMomentsFromShift fromMoment shift clock n
         = (Returned (onDayOf fromMoment h1 m1 0, onDayOf fromMoment h2 m2 0), S (S n))
      /\ valueOf (onDayOf fromMoment h1 m1 0) < valueOf (onDayOf fromMoment h2 m2 0)
      /\ Dj.second (onDayOf fromMoment h1 m1 0) = 0
      /\ Dj.millisecond (onDayOf fromMoment h1 m1 0) = 0.
Proof.
  intros fromMoment shift clock n H.
  destruct (valid_shift_times shift H)
    as (h1 & m1 & h2 & m2 & Hh1 & Hm1 & Hh2 & Hm2 & Hlt & E & M1 & M2 & P1 & P2 & P3 & P4).
  exists h1, m1, h2, m2. split; [exact E|]. split; [|split; [|split]].
  - unfold LuxonImpl._getMomentsFromShift, bind.
    rewrite (fromISO_valid (startTime shift) h1 m1 clock n M1 P1 P2) by lia.
    rewrite (fromISO_valid (endTime shift) h2 m2 clock (S n) M2 P3 P4) by lia.
    unfold ret. cbn [fst snd]. rewrite !set_hms_onDayOf. reflexivity.
  - apply onDayOf_lt. exact Hlt.
  - unfold Dj.second, onDayOf. rewrite localMs_withLocalMs.
    generalize (Dj.localMs fromMoment). intro L.
    unfold msPerDay, msPerHour, msPerMinute, msPerSecond. zdiv.
  - unfold Dj.millisecond, onDayOf. rewrite localMs_withLocalMs.
    generalize (Dj.localMs fromMoment). intro L.
    unfold msPerDay, msPerHour, msPerMinute, msPerSecond. zdiv.
Qed.

Lemma luxon_moments_of_a_valid_shift_witness :
  exists h1 m1 h2 m2,
    mkShift "12:00" "22:00" = mkShift (hhmm h1 m1) (hhmm h2 m2)
    /\ LuxonImpl._getMomentsFromShift
         (mkDayjs (atUTC 2020 10 15 15 3 12 592) 0) (mkShift "12:00" "22:00") clock_step 0%nat
       = (Returned (onDayOf (mkDayjs (atUTC 2020 10 15 15 3 12 592) 0) h1 m1 0,
                    onDayOf (mkDayjs (atUTC 2020 10 15 15 3 12 592) 0) h2 m2 0), 2%nat)
    /\ valueOf (onDayOf (mkDayjs (atUTC 2020 10 15 15 3 12 592) 0) h1 m1 0)
       < valueOf (onDayOf (mkDayjs (atUTC 2020 10 15 15 3 12 592) 0) h2 m2 0)
    /\ Dj.second (onDayOf (mkDayjs (atUTC 2020 10 15 15 3 12 592) 0) h1 m1 0) = 0
    /\ Dj.millisecond (onDayOf (mkDayjs (atUTC 2020 10 15 15 3 12 592) 0) h1 m1 0) = 0.
Proof.
  apply (luxon_moments_of_a_valid_shift
           (mkDayjs (atUTC 2020 10 15 15 3 12 592) 0) (mkShift "12:00" "22:00")
           clock_step 0%nat).
  vm_compute. reflexivity.
Defined.

(** ** [_nextSearchMoment] in closed form *)

Lemma withLocalMs_twice d l l' :
  Dj.withLocalMs (Dj.withLocalMs d l) l' = Dj.withLocalMs d l'.
Proof. reflexivity. Qed.

Lemma roundingBase_whole l : roundingBase l mod msPerMinute = 0.
Proof.
  unfold roundingBase, msPerMinute, msPerSecond.
  destruct (l mod 60000 <? 1000); zdiv.
Qed.

Lemma roundingBase_bounds l :
  l - 999 <= roundingBase l <= l + 59999
  /\ (l mod msPerMinute / msPerSecond <> 0 -> l < roundingBase l).
Proof.
  unfold roundingBase, msPerMinute, msPerSecond.
  destruct (l mod 60000 <? 1000) eqn:E.
  - apply Z.ltb_lt in E. split; zdiv.
  - apply Z.ltb_ge in E. split; zdiv.
Qed.

Lemma roundingBase_of_whole l : l mod msPerMinute = 0 -> roundingBase l = l.
Proof.
  unfold roundingBase, msPerMinute, msPerSecond. intro H. rewrite H.
  replace (0 <? 1000) with true by reflexivity. lia.
Qed.

Lemma roundingBase_least l t :
  l <= t -> t mod msPerMinute = 0 -> roundingBase l <= t.
Proof.
  unfold roundingBase, msPerMinute, msPerSecond. intros Hle Ht.
  destruct (l mod 60000 <? 1000) eqn:E.
  - zdiv.
  - apply Z.ltb_ge in E. zdiv.
Qed.

(** The result of [_nextSearchMoment]: the rounding base of the cursor,
    plus the minutes missing to the next multiple of the step. *)
Lemma nextSearchMoment_formula configuration c :
  DayjsImpl._nextSearchMoment c configuration
  = Dj.withLocalMs c
      (roundingBase (Dj.localMs c)
       + Z.rem (orElse (slotStartMinuteStep configuration) 5
                - Z.rem ((roundingBase (Dj.localMs c) / msPerMinute
                          + orElse (minAvailableTimeBeforeSlot configuration) 0) mod 60)
                        (orElse (slotStartMinuteStep configuration) 5))
               (orElse (slotStartMinuteStep configuration) 5)
         * msPerMinute).
Proof.
  unfold DayjsImpl._nextSearchMoment.
  remember (orElse (slotStartMinuteStep configuration) 5) as step eqn:Estep.
  remember (orElse (minAvailableTimeBeforeSlot configuration) 0) as before eqn:Eb.
  clear Estep Eb.
  assert (Hmin : forall nm,
             Dj.localMs nm / msPerMinute = roundingBase (Dj.localMs c) / msPerMinute ->
             Dj.minute (Dj.add_minute before nm)
             = (roundingBase (Dj.localMs c) / msPerMinute + before) mod 60).
  { intros nm Hnm. rewrite minute_as_mod. f_equal. rewrite <- Hnm.
    unfold Dj.add_minute, Dj.localMs, msPerMinute. cbn [valueOf utcOffset].
    generalize (valueOf nm), (utcOffset nm). intros v o. zdiv. }
  unfold Dj.second.
  destruct (Dj.localMs c mod msPerMinute / msPerSecond =? 0) eqn:E; cbn [negb].
  - apply Z.eqb_eq in E.
    assert (Hb : roundingBase (Dj.localMs c)
                 = Dj.localMs c - Dj.localMs c mod msPerSecond
                 /\ Dj.localMs c / msPerMinute
                    = roundingBase (Dj.localMs c) / msPerMinute).
    { unfold roundingBase. revert E. generalize (Dj.localMs c). intros L E.
      unfold msPerMinute, msPerSecond in *.
      replace (L mod 60000 <? 1000) with true by (symmetry; apply Z.ltb_lt; zdiv).
      split; zdiv. }
    destruct Hb as [Hb Hq]. rewrite (Hmin c Hq).
    generalize (Z.rem (step - Z.rem ((roundingBase (Dj.localMs c) / msPerMinute + before)
                                     mod 60) step) step).
    intro a. rewrite Hb.
    unfold Dj.set_millisecond, Dj.millisecond, Dj.withLocalMs, Dj.add_minute, Dj.localMs.
    cbn [valueOf utcOffset]. f_equal.
    generalize (valueOf c), (utcOffset c). revert a. clear. intros a v o.
    unfold msPerMinute, msPerSecond. zdiv.
  - apply Z.eqb_neq in E.
    assert (Hb : roundingBase (Dj.localMs c)
                 = Dj.localMs c - Dj.localMs c mod msPerMinute + msPerMinute).
    { unfold roundingBase. revert E. generalize (Dj.localMs c). intros L E.
      unfold msPerMinute, msPerSecond in *.
      replace (L mod 60000 <? 1000) with false by (symmetry; apply Z.ltb_ge; zdiv).
      reflexivity. }
    assert (Hq : Dj.localMs (Dj.add_minute 1 (Dj.startOf_minute c)) / msPerMinute
                 = roundingBase (Dj.localMs c) / msPerMinute).
    { rewrite Hb. unfold Dj.add_minute, Dj.startOf_minute, Dj.withLocalMs, Dj.localMs.
      cbn [valueOf utcOffset]. f_equal. lia. }
    rewrite (Hmin _ Hq).
    generalize (Z.rem (step - Z.rem ((roundingBase (Dj.localMs c) / msPerMinute + before)
                                     mod 60) step) step).
    intro a. rewrite Hb.
    unfold Dj.set_millisecond, Dj.millisecond, Dj.startOf_minute, Dj.withLocalMs,
      Dj.add_minute, Dj.localMs.
    cbn [valueOf utcOffset]. f_equal.
    generalize (valueOf c), (utcOffset c). revert a. clear. intros a v o.
    unfold msPerMinute, msPerSecond. zdiv.
Qed.

Lemma gap_as_mod q step :
  1 <= step -> 60 mod step = 0 ->
  Z.rem (step - Z.rem (q mod 60) step) step = (- q) mod step.
Proof.
  intros Hs Hd.
  assert (Hdvd : (step | 60)) by (apply Z.mod_divide; lia).
  pose proof (Z.mod_pos_bound q 60 ltac:(lia)) as H60.
  rewrite (Z.rem_mod_nonneg (q mod 60) step) by lia.
  rewrite (Z.mod_mod_divide q 60 step Hdvd).
  pose proof (Z.mod_pos_bound q step ltac:(lia)) as Hq.
  rewrite (Z.rem_mod_nonneg (step - q mod step) step) by lia.
  replace (step - q mod step) with (- q + (q / step + 1) * step).
  - apply Z.mod_add. lia.
  - pose proof (Z.div_mod q step ltac:(lia)). lia.
Qed.

Lemma gap_closes q step : 1 <= step -> (q + (- q) mod step) mod step = 0.
Proof.
  intro Hs. rewrite Z.add_mod_idemp_r by lia.
  replace (q + - q) with 0 by lia. apply Z.mod_0_l. lia.
Qed.

Lemma gap_least q j step :
  1 <= step -> 0 <= j -> (q + j) mod step = 0 -> (- q) mod step <= j.
Proof.
  intros Hs Hj H.
  pose proof (Z.div_mod (q + j) step ltac:(lia)) as E. rewrite H in E.
  replace (- q) with (j + (- ((q + j) / step)) * step) by lia.
  rewrite Z.mod_add by lia. apply Z.mod_le; lia.
Qed.

Lemma minute_of_whole before b :
  Dj.minute (Dj.add_minute before (Dj.withLocalMs (mkDayjs 0 0) (b * msPerMinute)))
  = (b + before) mod 60.
Proof.
  rewrite minute_as_mod. f_equal.
  unfold Dj.add_minute, Dj.withLocalMs, Dj.localMs, msPerMinute. cbn [valueOf utcOffset].
  zdiv.
Qed.

Lemma minute_add_local before d :
  Dj.minute (Dj.add_minute before d) = (Dj.localMs d / msPerMinute + before) mod 60.
Proof.
  rewrite minute_as_mod. f_equal.
  unfold Dj.add_minute, Dj.localMs, msPerMinute. cbn [valueOf utcOffset].
  generalize (valueOf d), (utcOffset d). clear. intros v o. zdiv.
Qed.

Lemma whole_minute_iff l :
  l mod msPerMinute = 0
  <-> l mod msPerMinute / msPerSecond = 0 /\ l mod msPerSecond = 0.
Proof. unfold msPerMinute, msPerSecond. split; intro H; zdiv. Qed.

(** The facts about the result of the rounding, on wall-clock readings:
    [l] is the cursor, [r] the result, [t] another candidate. *)
Lemma rounding_facts step before l :
  1 <= step -> 60 mod step = 0 ->
  let r := roundingBase l
           + (- (roundingBase l / msPerMinute + before)) mod step * msPerMinute in
  r mod msPerMinute = 0
  /\ r / msPerMinute = roundingBase l / msPerMinute
                       + (- (roundingBase l / msPerMinute + before)) mod step
  /\ ((r / msPerMinute + before) mod 60) mod step = 0
  /\ l - 999 <= r
  /\ (l mod msPerMinute / msPerSecond <> 0 -> l < r)
  /\ forall t, l <= t -> t mod msPerMinute = 0 ->
               ((t / msPerMinute + before) mod 60) mod step = 0 -> r <= t.
Proof.
  intros Hs Hd r.
  assert (Hdvd : (step | 60)) by (apply Z.mod_divide; lia).
  pose proof (roundingBase_whole l) as Hw.
  destruct (roundingBase_bounds l) as [Hb Hsec].
  pose proof (roundingBase_least l) as Hleast.
  subst r. revert Hw Hb Hsec Hleast. generalize (roundingBase l). intros B Hw Hb Hsec Hleast.
  pose proof (Z.mod_pos_bound (- (B / msPerMinute + before)) step ltac:(lia)) as Ha.
  pose proof (gap_closes (B / msPerMinute + before) step Hs) as Hc.
  pose proof (fun j => gap_least (B / msPerMinute + before) j step Hs) as Hl.
  revert Ha Hc Hl. generalize ((- (B / msPerMinute + before)) mod step). intros a Ha Hc Hl.
  assert (Hq : (B + a * msPerMinute) / msPerMinute = B / msPerMinute + a).
  { clear - Hw. unfold msPerMinute in *. zdiv. }
  split; [clear - Hw; unfold msPerMinute in *; zdiv|].
  split; [exact Hq|].
  split.
  { rewrite Hq, (Z.mod_mod_divide _ 60 step Hdvd).
    replace (B / msPerMinute + a + before) with (B / msPerMinute + before + a) by lia.
    exact Hc. }
  split; [unfold msPerMinute; lia|].
  split; [intro H; specialize (Hsec H); unfold msPerMinute; lia|].
  intros t Hlt Ht Hal.
  specialize (Hleast t Hlt Ht).
  rewrite (Z.mod_mod_divide _ 60 step Hdvd) in Hal.
  assert (Hj : 0 <= t / msPerMinute - B / msPerMinute).
  { clear - Hleast Hw Ht. unfold msPerMinute in *. zdiv. }
  specialize (Hl (t / msPerMinute - B / msPerMinute) Hj).
  replace (B / msPerMinute + before + (t / msPerMinute - B / msPerMinute))
    with (t / msPerMinute + before) in Hl by lia.
  specialize (Hl Hal).
  clear - Hl Hw Ht. unfold msPerMinute in *. zdiv.
Qed.

(** X7. With a step that divides the hour, [_nextSearchMoment] gives the
    first whole minute, at or after the cursor, from which a slot starts
    on a multiple of the step; only a cursor within the first second of a
    minute is put back to that minute.  Rounding a rounded cursor changes
    nothing. *)
Theorem nextSearchMoment_is_the_first_aligned_minute :
  forall (configuration : TimeSlotsFinderConfiguration) (c : Dayjs),
    1 <= orElse (slotStartMinuteStep configuration) 5 ->
    60 mod orElse (slotStartMinuteStep configuration) 5 = 0 ->
    firstAlignedMinute (orElse (slotStartMinuteStep configuration) 5)
                       (orElse (minAvailableTimeBeforeSlot configuration) 0)
                       c (DayjsImpl._nextSearchMoment c configuration)
    /\ DayjsImpl._nextSearchMoment (DayjsImpl._nextSearchMoment c configuration)
                                   configuration
       = DayjsImpl._nextSearchMoment c configuration.
Proof.
  intros configuration c Hs Hd.
  rewrite !nextSearchMoment_formula.
  remember (orElse (slotStartMinuteStep configuration) 5) as step eqn:Estep.
  remember (orElse (minAvailableTimeBeforeSlot configuration) 0) as before eqn:Eb.
  clear Estep Eb configuration.
  rewrite localMs_withLocalMs, withLocalMs_twice.
  rewrite !gap_as_mod by assumption.
  destruct (rounding_facts step before (Dj.localMs c) Hs Hd)
    as (Hw & Hq & Hal & Hlow & Hsec & Hleast).
  remember (roundingBase (Dj.localMs c)
            + (- (roundingBase (Dj.localMs c) / msPerMinute + before)) mod step
              * msPerMinute) as r eqn:Er.
  clear Er. split.
  - unfold firstAlignedMinute.
    split; [reflexivity|].
    split; [unfold Dj.second; rewrite localMs_withLocalMs; apply whole_minute_iff, Hw|].
    split; [unfold Dj.millisecond; rewrite localMs_withLocalMs;
            apply whole_minute_iff, Hw|].
    split; [rewrite minute_add_local, localMs_withLocalMs; exact Hal|].
    split; [unfold Dj.withLocalMs, Dj.localMs in *; cbn [valueOf]; lia|].
    split.
    + intro H. specialize (Hsec H).
      unfold Dj.withLocalMs, Dj.localMs in *. cbn [valueOf]. lia.
    + intros t Ho Hle Hts Htm Hta.
      rewrite minute_add_local in Hta.
      assert (Htw : Dj.localMs t mod msPerMinute = 0)
        by (apply whole_minute_iff; split; assumption).
      assert (Hlt : Dj.localMs c <= Dj.localMs t)
        by (unfold Dj.localMs; rewrite Ho; lia).
      specialize (Hleast (Dj.localMs t) Hlt Htw Hta).
      unfold Dj.withLocalMs, Dj.localMs in *. cbn [valueOf]. rewrite <- Ho. lia.
  - rewrite (roundingBase_of_whole r Hw).
    replace ((- (r / msPerMinute + before)) mod step) with 0.
    + f_equal. lia.
    + symmetry.
      assert (Hdvd : (step | 60)) by (apply Z.mod_divide; lia).
      rewrite (Z.mod_mod_divide _ 60 step Hdvd) in Hal.
      apply Z.mod_divide; [lia|]. apply Z.divide_opp_r. apply Z.mod_divide; [lia|].
      exact Hal.
Qed.

Lemma nextSearchMoment_is_the_first_aligned_minute_witness :
  1 <= orElse (slotStartMinuteStep config_before2) 5
  /\ 60 mod orElse (slotStartMinuteStep config_before2) 5 = 0
  /\ firstAlignedMinute 5 2 (mkDayjs (atUTC 2020 10 15 15 3 12 592) 0)
       (DayjsImpl._nextSearchMoment (mkDayjs (atUTC 2020 10 15 15 3 12 592) 0)
                                    config_before2)
  /\ DayjsImpl._nextSearchMoment
       (DayjsImpl._nextSearchMoment (mkDayjs (atUTC 2020 10 15 15 3 12 592) 0)
                                    config_before2) config_before2
     = DayjsImpl._nextSearchMoment (mkDayjs (atUTC 2020 10 15 15 3 12 592) 0)
                                   config_before2.
Proof.
  split; [vm_compute; discriminate|]. split; [reflexivity|].
  apply (nextSearchMoment_is_the_first_aligned_minute config_before2
           (mkDayjs (atUTC 2020 10 15 15 3 12 592) 0)).
  - vm_compute. discriminate.
  - reflexivity.
Defined.

(** ** [_prepareEvents]: the prepared list *)

Lemma insertPeriod_In_iff e p l : In e (DayjsImpl.insertPeriod p l) <-> e = p \/ In e l.
Proof.
  induction l as [|y l IH]; simpl.
  - intuition.
  - destruct (Dj.isAfter (evStartAt p) (evStartAt y)); simpl; rewrite ?IH; intuition.
Qed.

Lemma insertPeriod_Forall p y l :
  startsNoLater y p -> Forall (startsNoLater y) l ->
  Forall (startsNoLater y) (DayjsImpl.insertPeriod p l).
Proof.
  intros Hp Hl. induction l as [|z l IH]; simpl.
  - auto.
  - inversion Hl; subst. destruct (Dj.isAfter (evStartAt p) (evStartAt z)); auto.
Qed.

Lemma insertPeriod_sorted p l :
  StronglySorted startsNoLater l -> StronglySorted startsNoLater (DayjsImpl.insertPeriod p l).
Proof.
  induction 1 as [|y l Hl IH Hy]; simpl.
  - repeat constructor.
  - unfold Dj.isAfter. destruct (valueOf (evStartAt y) <? valueOf (evStartAt p)) eqn:E.
    + apply Z.ltb_lt in E. constructor; auto.
      apply insertPeriod_Forall; auto. unfold startsNoLater. lia.
    + apply Z.ltb_ge in E. constructor; [constructor; auto|].
      constructor; [exact E|].
      eapply Forall_impl; [|exact Hy]. unfold startsNoLater. intros z Hz. lia.
Qed.

Lemma sortPeriods_fold l :
  forall acc,
    StronglySorted startsNoLater acc ->
    StronglySorted startsNoLater
      (fold_left (fun sorted pivot => DayjsImpl.insertPeriod pivot sorted) l acc)
    /\ forall e, In e (fold_left (fun sorted pivot => DayjsImpl.insertPeriod pivot sorted)
                                 l acc)
                 <-> In e l \/ In e acc.
Proof.
  induction l as [|p l IH]; intros acc Hacc; simpl.
  - split; [assumption|]. intuition.
  - destruct (IH (DayjsImpl.insertPeriod p acc) (insertPeriod_sorted p acc Hacc))
      as [Hs Hin].
    split; [exact Hs|]. intro e. rewrite Hin, insertPeriod_In_iff. intuition.
Qed.

Lemma sortPeriods_sorted l :
  StronglySorted startsNoLater (DayjsImpl._sortPeriods l)
  /\ forall e, In e (DayjsImpl._sortPeriods l) <-> In e l.
Proof.
  unfold DayjsImpl._sortPeriods.
  destruct (sortPeriods_fold l [] (SSorted_nil _)) as [Hs Hin].
  split; [exact Hs|]. intro e. rewrite Hin. simpl. intuition.
Qed.

(** What [_findEmcompassingEvent] finds is an event of the list that starts
    no later and ends strictly later. *)
Lemma findEmcompassingEvent_sound l e :
  DayjsImpl._findEmcompassingEvent l e = true ->
  exists c, In c l
            /\ valueOf (evStartAt c) <= valueOf (evStartAt e)
            /\ valueOf (evEndAt e) < valueOf (evEndAt c).
Proof.
  induction l as [|c l IH]; simpl; [discriminate|].
  unfold Dj.isSameOrBefore, Dj.isAfter.
  destruct ((valueOf (evStartAt c) <=? valueOf (evStartAt e))
            && (valueOf (evEndAt e) <? valueOf (evEndAt c))) eqn:E.
  - intros _. apply andb_true_iff in E. rewrite Z.leb_le, Z.ltb_lt in E.
    exists c. tauto.
  - destruct (valueOf (evStartAt e) <? valueOf (evStartAt c)); [discriminate|].
    intro H. destruct (IH H) as (c' & Hin & Hc'). exists c'. tauto.
Qed.

(** On a list in the order of the start times, it finds one whenever there
    is one. *)
Lemma findEmcompassingEvent_complete l e :
  StronglySorted startsNoLater l ->
  forall c, In c l ->
            valueOf (evStartAt c) <= valueOf (evStartAt e) ->
            valueOf (evEndAt e) < valueOf (evEndAt c) ->
            DayjsImpl._findEmcompassingEvent l e = true.
Proof.
  induction 1 as [|x l Hl IH Hx]; intros c Hin Hs He; [contradiction|].
  simpl. unfold Dj.isSameOrBefore, Dj.isAfter.
  destruct ((valueOf (evStartAt x) <=? valueOf (evStartAt e))
            && (valueOf (evEndAt e) <? valueOf (evEndAt x))) eqn:E; [reflexivity|].
  destruct Hin as [Hin|Hin].
  - subst x. exfalso. apply andb_false_iff in E.
    rewrite Z.leb_gt, Z.ltb_ge in E. lia.
  - destruct (valueOf (evStartAt e) <? valueOf (evStartAt x)) eqn:E2.
    + exfalso. apply Z.ltb_lt in E2.
      rewrite Forall_forall in Hx. specialize (Hx c Hin). unfold startsNoLater in Hx. lia.
    + apply (IH c); assumption.
Qed.

Lemma filter_StronglySorted {A} (R : A -> A -> Prop) (f : A -> bool) l :
  StronglySorted R l -> StronglySorted R (filter f l).
Proof.
  induction 1 as [|x l Hl IH Hx]; simpl; [constructor|].
  destruct (f x); [|assumption].
  constructor; [assumption|].
  rewrite Forall_forall in *. intros y Hy. apply filter_In in Hy. apply Hx. tauto.
Qed.

Lemma StronglySorted_strengthen {A} (R R' : A -> A -> Prop) (P : A -> Prop) l :
  (forall a b, P a -> P b -> R a b -> R' a b) ->
  Forall P l -> StronglySorted R l -> StronglySorted R' l.
Proof.
  intros HR HP Hs. induction Hs as [|x l Hl IH Hx]; [constructor|].
  inversion HP as [|? ? Px Pl]; subst.
  constructor; [apply IH; assumption|].
  rewrite Forall_forall in *. intros y Hy. apply HR; auto.
Qed.

Lemma prepareEvents_In_iff periods from to e :
  In e (DayjsImpl._prepareEvents periods from to)
  <-> In e periods /\ withinWindow from to e
      /\ DayjsImpl._findEmcompassingEvent
           (DayjsImpl._sortPeriods (DayjsImpl._filterPeriods periods from to)) e = false.
Proof.
  unfold DayjsImpl._prepareEvents. rewrite filter_In.
  destruct (sortPeriods_sorted (DayjsImpl._filterPeriods periods from to)) as [_ Hin].
  rewrite Hin. unfold DayjsImpl._filterPeriods. rewrite filter_In.
  unfold withinWindow, Dj.isBefore, Dj.isAfter.
  rewrite andb_true_iff, !Z.ltb_lt, negb_true_iff. tauto.
Qed.

Lemma prepareEvents_ordered periods from to :
  StronglySorted notLaterThan (DayjsImpl._prepareEvents periods from to).
Proof.
  destruct (sortPeriods_sorted (DayjsImpl._filterPeriods periods from to)) as [Hs Hin].
  apply (StronglySorted_strengthen startsNoLater notLaterThan
           (fun e => In e (DayjsImpl._sortPeriods
                             (DayjsImpl._filterPeriods periods from to))
                     /\ DayjsImpl._findEmcompassingEvent
                          (DayjsImpl._sortPeriods
                             (DayjsImpl._filterPeriods periods from to)) e = false)).
  - intros a b [Ha _] [_ Hb] Hab. split; [exact Hab|].
    destruct (Z_le_gt_dec (valueOf (evEndAt a)) (valueOf (evEndAt b))) as [H|H];
      [exact H|].
    exfalso.
    rewrite (findEmcompassingEvent_complete _ b Hs a Ha Hab) in Hb by lia.
    discriminate.
  - apply Forall_forall. intros e He. unfold DayjsImpl._prepareEvents in He.
    apply filter_In in He. rewrite negb_true_iff in He. exact He.
  - unfold DayjsImpl._prepareEvents. apply filter_StronglySorted. exact Hs.
Qed.

(** X8. The list that [_prepareEvents] returns holds events of the list
    it is given, each of which intersects the window; it is in the order
    of the start times, and in that order the end times never decrease. *)
Theorem prepared_events_are_in_order :
  forall (periods : list DayjsPeriod) (from to : Dayjs),
    StronglySorted notLaterThan (DayjsImpl._prepareEvents periods from to)
    /\ Forall (fun e => In e periods /\ withinWindow from to e)
              (DayjsImpl._prepareEvents periods from to).
Proof.
  intros periods from to. split.
  - apply prepareEvents_ordered.
  - apply Forall_forall. intros e He. apply prepareEvents_In_iff in He.
    destruct He as (H1 & H2 & _). split; assumption.
Qed.

(** Among the events of a list that block [t] there is one that ends last. *)
Lemma last_blocking_event t l :
  (exists e, In e l /\ blocks e t) ->
  exists e, In e l /\ blocks e t
            /\ forall c, In c l -> blocks c t -> valueOf (evEndAt c) <= valueOf (evEndAt e).
Proof.
  induction l as [|x l IH]; intros (e & Hin & Hb); [contradiction|].
  assert (Hl : (exists e', In e' l /\ blocks e' t) \/ ~ (exists e', In e' l /\ blocks e' t)).
  { clear. induction l as [|y l IH].
    - right. intros (e' & [] & _).
    - destruct IH as [(e' & H1 & H2)|IH]; [left; exists e'; simpl; auto|].
      unfold blocks in *.
      destruct (Z_le_gt_dec (valueOf (evStartAt y)) t) as [H1|H1];
        [destruct (Z_lt_ge_dec t (valueOf (evEndAt y))) as [H2|H2]|].
      + left. exists y. simpl. auto.
      + right. intros (e' & [E|Hin] & Hb); [subst; lia|]. apply IH. eauto.
      + right. intros (e' & [E|Hin] & Hb); [subst; lia|]. apply IH. eauto. }
  destruct Hl as [Hl|Hl].
  - destruct (IH Hl) as (m & Hm & Hbm & Hmax).
    assert (Hx : blocks x t \/ ~ blocks x t) by (unfold blocks; lia).
    destruct Hx as [Hx|Hx].
    + destruct (Z_le_gt_dec (valueOf (evEndAt x)) (valueOf (evEndAt m))) as [H|H].
      * exists m. split; [right; exact Hm|]. split; [exact Hbm|].
        intros c [E|Hc] Hbc; [subst; exact H|auto].
      * exists x. split; [left; reflexivity|]. split; [exact Hx|].
        intros c [E|Hc] Hbc; [subst; lia|]. specialize (Hmax c Hc Hbc). lia.
    + exists m. split; [right; exact Hm|]. split; [exact Hbm|].
      intros c [E|Hc] Hbc; [subst; contradiction|auto].
  - destruct Hin as [E|Hin]; [subst x|exfalso; apply Hl; eauto].
    exists e. split; [left; reflexivity|]. split; [exact Hb|].
    intros c [E|Hc] Hbc; [subst; lia|]. exfalso. apply Hl. eauto.
Qed.

Lemma prepareEvents_keeps_blocked periods from to t e :
  In e periods -> withinWindow from to e -> blocks e t ->
  exists m, In m (DayjsImpl._prepareEvents periods from to) /\ blocks m t.
Proof.
  intros He Hw Hb.
  destruct (sortPeriods_sorted (DayjsImpl._filterPeriods periods from to)) as [_ Hin].
  assert (Hf : forall x, In x (DayjsImpl._filterPeriods periods from to)
                         <-> In x periods /\ withinWindow from to x).
  { intro x. unfold DayjsImpl._filterPeriods. rewrite filter_In.
    unfold withinWindow, Dj.isBefore, Dj.isAfter.
    rewrite andb_true_iff, !Z.ltb_lt. tauto. }
  destruct (last_blocking_event t
              (DayjsImpl._sortPeriods (DayjsImpl._filterPeriods periods from to)))
    as (m & Hm & Hbm & Hmax).
  { exists e. split; [|exact Hb]. apply Hin, Hf. tauto. }
  exists m. split; [|exact Hbm].
  apply prepareEvents_In_iff.
  pose proof (proj1 (Hf m) (proj1 (Hin m) Hm)) as [Hmp Hmw].
  split; [exact Hmp|]. split; [exact Hmw|].
  destruct (DayjsImpl._findEmcompassingEvent
              (DayjsImpl._sortPeriods (DayjsImpl._filterPeriods periods from to)) m)
    eqn:E; [|reflexivity].
  exfalso. apply findEmcompassingEvent_sound in E.
  destruct E as (c & Hc & Hcs & Hce).
  assert (Hbc : blocks c t) by (unfold blocks in *; lia).
  specialize (Hmax c Hc Hbc). lia.
Qed.

(** X9. Leaving out the encompassed events loses no blocked instant: an
    instant lies within an event of the prepared list exactly when it lies
    within an event of the given list that intersects the window. *)
Theorem prepared_events_block_the_same_instants :
  forall (periods : list DayjsPeriod) (from to : Dayjs) (t : Z),
    (exists e, In e (DayjsImpl._prepareEvents periods from to) /\ blocks e t)
    <-> (exists e, In e periods /\ withinWindow from to e /\ blocks e t).
Proof.
  intros periods from to t. split.
  - intros (e & He & Hb). apply prepareEvents_In_iff in He. exists e. tauto.
  - intros (e & He & Hw & Hb). eapply prepareEvents_keeps_blocked; eauto.
Qed.

(** ** The sweep of one shift window: order, distance, events *)

Lemma roundingBase_shift v k :
  roundingBase (v + k * msPerMinute) = roundingBase v + k * msPerMinute.
Proof.
  unfold roundingBase, msPerMinute, msPerSecond.
  replace ((v + k * 60000) mod 60000) with (v mod 60000) by (symmetry; apply Z.mod_add; lia).
  destruct (v mod 60000 <? 1000); lia.
Qed.

Lemma roundingBase_floor v : v - v mod msPerMinute <= roundingBase v.
Proof. unfold roundingBase, msPerMinute, msPerSecond. destruct (_ <? _); lia. Qed.

Lemma floor_mono u v :
  u <= v -> u - u mod msPerMinute <= v - v mod msPerMinute.
Proof. unfold msPerMinute. intro H. zdiv. Qed.

(** The value of the rounded cursor. *)
Lemma nextSearchMoment_value configuration c :
  1 <= orElse (slotStartMinuteStep configuration) 5 ->
  exists a,
    0 <= a < orElse (slotStartMinuteStep configuration) 5
    /\ valueOf (DayjsImpl._nextSearchMoment c configuration)
       = roundingBase (valueOf c) + a * msPerMinute.
Proof.
  intro Hs. rewrite nextSearchMoment_formula.
  match goal with
  | |- context [Z.rem (?s - Z.rem ?m ?s) ?s] =>
      exists (Z.rem (s - Z.rem m s) s); split;
      [apply rem_step_bounds; [apply Z.mod_pos_bound; lia|exact Hs]|]
  end.
  unfold Dj.withLocalMs, Dj.localMs. cbn [valueOf].
  rewrite roundingBase_shift. lia.
Qed.

Lemma StronglySorted_nth {A} (R : A -> A -> Prop) l :
  StronglySorted R l ->
  forall i j a b, (i < j)%nat -> nth_error l i = Some a -> nth_error l j = Some b -> R a b.
Proof.
  induction 1 as [|x l Hl IH Hx]; intros i j a b Hij Ha Hb.
  - destruct i; discriminate.
  - destruct j as [|j]; [lia|]. simpl in Hb.
    destruct i as [|i]; simpl in Ha.
    + inversion Ha; subst. rewrite Forall_forall in Hx. apply Hx.
      eapply nth_error_In; eauto.
    + apply (IH i j); auto. lia.
Qed.

Lemma findIndex_spec {A} (p : A -> bool) l :
  forall i, 0 <= i ->
    (DayjsImpl.findIndex p l i = -1 /\ forall x, In x l -> p x = false)
    \/ exists k x,
         DayjsImpl.findIndex p l i = i + Z.of_nat k
         /\ nth_error l k = Some x /\ p x = true
         /\ forall j y, (j < k)%nat -> nth_error l j = Some y -> p y = false.
Proof.
  induction l as [|x l IH]; intros i Hi; simpl.
  - left. split; [reflexivity|]. intros x [].
  - destruct (p x) eqn:E.
    + right. exists 0%nat, x. simpl.
      repeat split; auto; try lia; try (intros j y Hj; lia).
    + destruct (IH (i + 1) ltac:(lia)) as [[H1 H2]|(k & y & H1 & H2 & H3 & H4)].
      * left. split; [exact H1|]. intros z [Hz|Hz]; [subst; exact E|auto].
      * right. exists (S k), y. simpl.
        split; [lia|]. split; [exact H2|]. split; [exact H3|].
        intros j z Hj Hz. destruct j as [|j]; simpl in Hz.
        -- inversion Hz; subst. exact E.
        -- apply (H4 j); auto. lia.
Qed.

Section Sweep.

Variable configuration : TimeSlotsFinderConfiguration.
Variable cleanedList : list DayjsPeriod.
Variable searchEndMoment : Dayjs.

Hypothesis duration_pos : 1 <= timeSlotDuration configuration.
Hypothesis before_nonneg : 0 <= orElse (minAvailableTimeBeforeSlot configuration) 0.
Hypothesis after_nonneg : 0 <= orElse (minAvailableTimeAfterSlot configuration) 0.
Hypothesis step_pos : 1 <= orElse (slotStartMinuteStep configuration) 5.
Hypothesis events_sorted : StronglySorted notLaterThan cleanedList.
Hypothesis events_wellformed :
  forall e, In e cleanedList -> valueOf (evStartAt e) <= valueOf (evEndAt e).

Lemma sweepPost_lower c c' slots :
  valueOf c <= valueOf c' -> sweepPost configuration cleanedList searchEndMoment c' slots ->
  sweepPost configuration cleanedList searchEndMoment c slots.
Proof.
  intros Hle (H1 & H2 & H3 & H4). split; [|tauto].
  eapply Forall_impl; [|exact H1]. intros s Hs. cbv beta in *.
  pose proof (floor_mono (valueOf c) (valueOf c') Hle). lia.
Qed.

Lemma sweep_invariant :
  forall fuel searchMoment eventIndex slots,
    eventsAhead cleanedList searchMoment eventIndex ->
    eventsBehind cleanedList searchMoment eventIndex ->
    DayjsImpl.searchLoop fuel configuration cleanedList searchEndMoment
                         searchMoment eventIndex = Some slots ->
    sweepPost configuration cleanedList searchEndMoment searchMoment slots.
Proof.
  induction fuel as [|fuel IH]; intros c idx slots Hahead Hbehind E; [discriminate|].
  cbn [DayjsImpl.searchLoop] in E.
  destruct (Dj.isSameOrBefore c searchEndMoment) eqn:Hle.
  2:{ inversion E. repeat split; constructor. }
  apply Z.leb_le in Hle.
  destruct (nextSearchMoment_value configuration c step_pos) as (a & Ha & Hr).
  pose proof (roundingBase_whole (valueOf c)) as Hw.
  pose proof (roundingBase_floor (valueOf c)) as Hfl.
  assert (Hmod : 0 <= valueOf c mod msPerMinute)
    by (apply Z.mod_pos_bound; unfold msPerMinute; lia).
  destruct (roundingBase_bounds (valueOf c)) as [Hrb _].
  remember (DayjsImpl._nextSearchMoment c configuration) as r eqn:Er.
  assert (Hpush :
    eventsAhead cleanedList (fst (DayjsImpl._pushNewSlot r configuration)) idx ->
    (forall e, In e cleanedList ->
               clearOf (orElse (minAvailableTimeBeforeSlot configuration) 0)
                       (orElse (minAvailableTimeAfterSlot configuration) 0)
                       (snd (DayjsImpl._pushNewSlot r configuration)) e) ->
    forall res,
      (let (newSearchMoment, timeSlot) := DayjsImpl._pushNewSlot r configuration in
       option_map (cons timeSlot)
         (DayjsImpl.searchLoop fuel configuration cleanedList searchEndMoment
                               newSearchMoment idx)) = Some res ->
      sweepPost configuration cleanedList searchEndMoment c res).
  { intros Hah Hclear res Hres.
    destruct (pushNewSlot_cursor configuration r) as [_ Hv].
    pose proof (pushNewSlot_slot configuration r) as Hslot.
    destruct (DayjsImpl._pushNewSlot r configuration) as [nsm ts].
    cbn [fst snd] in *.
    destruct (DayjsImpl.searchLoop fuel configuration cleanedList searchEndMoment nsm idx)
      as [rest|] eqn:Erest; [|discriminate].
    inversion Hres; subst res; clear Hres.
    assert (Hcc' : valueOf c <= valueOf nsm).
    { rewrite Hv, Hr. unfold msPerMinute in *. nia. }
    assert (Hbe : eventsBehind cleanedList nsm idx).
    { intros k e Hk He. specialize (Hbehind k e Hk He). lia. }
    destruct (IH nsm idx rest Hah Hbe Erest) as (R1 & R2 & R3 & R4).
    assert (Hnw : valueOf nsm mod msPerMinute = 0).
    { rewrite Hv, Hr. unfold msPerMinute in *.
      rewrite <- Z.add_assoc, <- Z.mul_add_distr_r.
      rewrite Z.mod_add by lia. exact Hw. }
    rewrite Hnw, Z.sub_0_r in R1.
    assert (Hts : slotStartAt ts
                  = valueOf r
                    + orElse (minAvailableTimeBeforeSlot configuration) 0 * msPerMinute
                  /\ slotEndAt ts
                     = slotStartAt ts + timeSlotDuration configuration * msPerMinute).
    { rewrite Hslot. cbn [slotStartAt slotEndAt]. split; reflexivity. }
    destruct Hts as [Hs He].
    split; [|split; [|split]].
    - constructor; [rewrite Hs, Hr; unfold msPerMinute in *; nia|].
      eapply Forall_impl; [|exact R1]. intros s Hs'. cbv beta in *. lia.
    - constructor; [exact R2|].
      eapply Forall_impl; [|exact R1]. intros s Hs'. cbv beta in *.
      unfold apart. rewrite He, Hs. rewrite Hv in Hs'. unfold msPerMinute in *. nia.
    - constructor; [exact Hclear|exact R3].
    - constructor; [|exact R4]. split; [exact He|].
      rewrite Hs, Hr. unfold msPerMinute in *. nia. }
  destruct (if 0 <=? idx then nth_error cleanedList (Z.to_nat idx) else None)
    as [focused|] eqn:Ef.
  - destruct (0 <=? idx) eqn:Hidx; [|discriminate]. apply Z.leb_le in Hidx.
    assert (Hin : In focused cleanedList) by (eapply nth_error_In; eauto).
    assert (Hlater : forall k e, (Z.to_nat idx <= k)%nat -> nth_error cleanedList k = Some e ->
                                 notLaterThan focused e).
    { intros k e Hk He. destruct (Nat.eq_dec k (Z.to_nat idx)) as [->|Hne].
      - rewrite Ef in He. inversion He. unfold notLaterThan. lia.
      - apply (StronglySorted_nth notLaterThan cleanedList events_sorted
                 (Z.to_nat idx) k); auto. lia. }
    destruct (Dj.isBefore (evStartAt focused)
                (Dj.add_minute (DayjsImpl._getMinTimeWindowNeeded configuration) r))
      eqn:Eb.
    + apply (sweepPost_lower c (evEndAt focused)).
      { apply (Hahead Hidx (Z.to_nat idx) focused); [lia|exact Ef]. }
      apply (IH (evEndAt focused) (idx + 1) slots); [| |exact E].
      * intros _ k e Hk He.
        replace (Z.to_nat (idx + 1)) with (S (Z.to_nat idx)) in Hk by lia.
        destruct (Hlater k e ltac:(lia) He) as [_ H]. exact H.
      * intros k e Hk He.
        replace (Z.to_nat (idx + 1)) with (S (Z.to_nat idx)) in Hk by lia.
        destruct (Nat.eq_dec k (Z.to_nat idx)) as [->|Hne].
        -- rewrite Ef in He. inversion He. lia.
        -- assert (H1 : valueOf (evEndAt e) <= valueOf c)
             by (apply (Hbehind k e); [right; lia|exact He]).
           assert (H2 : valueOf c <= valueOf (evEndAt focused))
             by (apply (Hahead Hidx (Z.to_nat idx) focused); [lia|exact Ef]).
           lia.
    + unfold Dj.isBefore, Dj.add_minute, DayjsImpl._getMinTimeWindowNeeded in Eb.
      cbn [valueOf] in Eb. apply Z.ltb_ge in Eb.
      pose proof (events_wellformed focused Hin) as Hwf.
      destruct (pushNewSlot_cursor configuration r) as [_ Hv].
      pose proof (pushNewSlot_slot configuration r) as Hslot.
      apply Hpush; [| |exact E].
      * intros _ k e Hk He. destruct (Hlater k e Hk He) as [_ H].
        rewrite Hv. unfold msPerMinute in *. nia.
      * intros e He. apply In_nth_error in He. destruct He as (k & He).
        rewrite Hslot. unfold clearOf. cbn [slotStartAt slotEndAt].
        destruct (le_lt_dec (Z.to_nat idx) k) as [Hk|Hk].
        -- right. destruct (Hlater k e Hk He) as [H _]. unfold msPerMinute in *. nia.
        -- left. pose proof (Hbehind k e (or_intror Hk) He). rewrite Hr.
           unfold msPerMinute in *. lia.
  - assert (Hall : forall e, In e cleanedList -> valueOf (evEndAt e) <= valueOf c).
    { intros e He. apply In_nth_error in He. destruct He as (k & He).
      apply (Hbehind k e); [|exact He].
      destruct (0 <=? idx) eqn:Hidx; [|left; apply Z.leb_gt; exact Hidx].
      right. apply nth_error_None in Ef.
      assert (k < List.length cleanedList)%nat
        by (apply nth_error_Some; rewrite He; discriminate).
      lia. }
    pose proof (pushNewSlot_slot configuration r) as Hslot.
    apply Hpush; [| |exact E].
    + intros Hidx k e Hk He. exfalso.
      replace (0 <=? idx) with true in Ef by (symmetry; apply Z.leb_le; exact Hidx).
      apply nth_error_None in Ef.
      assert (k < List.length cleanedList)%nat
        by (apply nth_error_Some; rewrite He; discriminate).
      lia.
    + intros e He. rewrite Hslot. unfold clearOf. cbn [slotStartAt slotEndAt].
      left. specialize (Hall e He). rewrite Hr. unfold msPerMinute in *. lia.
Qed.

End Sweep.

(** The sweep of a shift window, from its first state. *)
Lemma shift_sweep configuration eventList from to fuel slots :
  1 <= timeSlotDuration configuration ->
  0 <= orElse (minAvailableTimeBeforeSlot configuration) 0 ->
  0 <= orElse (minAvailableTimeAfterSlot configuration) 0 ->
  1 <= orElse (slotStartMinuteStep configuration) 5 ->
  (forall e, In e eventList -> valueOf (evStartAt e) <= valueOf (evEndAt e)) ->
  DayjsImpl._getAvailableTimeSlotsForShift fuel configuration eventList from to
    = Some slots ->
  sweepPost configuration
    (DayjsImpl._prepareEvents eventList
       (Dj.subtract_minute (orElse (minAvailableTimeBeforeSlot configuration) 0) from)
       (Dj.add_minute (timeSlotDuration configuration
                       + orElse (minAvailableTimeBeforeSlot configuration) 0) to))
    (Dj.subtract_minute (timeSlotDuration configuration
                         + orElse (minAvailableTimeBeforeSlot configuration) 0) to)
    (Dj.subtract_minute (orElse (minAvailableTimeBeforeSlot configuration) 0) from)
    slots.
Proof.
  intros Hdur Hbefore Hafter Hstep Hwf H.
  unfold DayjsImpl._getAvailableTimeSlotsForShift in H. cbv zeta in H.
  remember (DayjsImpl._prepareEvents eventList
              (Dj.subtract_minute (orElse (minAvailableTimeBeforeSlot configuration) 0) from)
              (Dj.add_minute (timeSlotDuration configuration
                              + orElse (minAvailableTimeBeforeSlot configuration) 0) to))
    as cleaned eqn:Ecl.
  assert (Hsorted : StronglySorted notLaterThan cleaned)
    by (subst cleaned; apply prepareEvents_ordered).
  assert (Hwf' : forall e, In e cleaned -> valueOf (evStartAt e) <= valueOf (evEndAt e)).
  { intros e He. subst cleaned. apply prepareEvents_In_iff in He. apply Hwf. tauto. }
  clear Ecl.
  remember (Dj.subtract_minute (orElse (minAvailableTimeBeforeSlot configuration) 0) from)
    as c0 eqn:Ec0. clear Ec0.
  eapply (sweep_invariant configuration cleaned _ Hdur Hbefore Hafter Hstep Hsorted Hwf');
    [| |exact H].
  - intros Hidx k e Hk He.
    destruct (findIndex_spec (fun event => Dj.isAfter (evEndAt event) c0) cleaned 0
                ltac:(lia)) as [[E _]|(k0 & x & E & Hx & Hp & _)];
      rewrite E in *; [lia|].
    replace (Z.to_nat (0 + Z.of_nat k0)) with k0 in Hk by lia.
    unfold Dj.isAfter in Hp. apply Z.ltb_lt in Hp.
    destruct (Nat.eq_dec k k0) as [->|Hne].
    + rewrite Hx in He. inversion He; subst. lia.
    + destruct (StronglySorted_nth notLaterThan cleaned Hsorted k0 k x e) as [_ Hend];
        auto; lia.
  - intros k e Hk He.
    destruct (findIndex_spec (fun event => Dj.isAfter (evEndAt event) c0) cleaned 0
                ltac:(lia)) as [[E Hnone]|(k0 & x & E & Hx & Hp & Hbefore0)];
      rewrite E in *.
    + specialize (Hnone e (nth_error_In _ _ He)). cbv beta in Hnone.
      unfold Dj.isAfter in Hnone. apply Z.ltb_ge in Hnone. exact Hnone.
    + replace (Z.to_nat (0 + Z.of_nat k0)) with k0 in Hk by lia.
      destruct Hk as [Hk|Hk]; [lia|].
      specialize (Hbefore0 k e Hk He). cbv beta in Hbefore0.
      unfold Dj.isAfter in Hbefore0. apply Z.ltb_ge in Hbefore0. exact Hbefore0.
Qed.



(** X11. Between 999 milliseconds after the start of the time kept free
    before a slot and the end of the time kept free after it, no instant
    lies within an event that intersects the window of the filter (from
    the time required before a slot ahead of [from], to the duration plus
    that time past [to]). *)
Theorem slots_of_a_shift_keep_clear_of_the_events_in_reach :
  forall (configuration : TimeSlotsFinderConfiguration)
         (eventList : list DayjsPeriod) (from to : Dayjs),
    1 <= timeSlotDuration configuration ->
    0 <= orElse (minAvailableTimeBeforeSlot configuration) 0 ->
    0 <= orElse (minAvailableTimeAfterSlot configuration) 0 ->
    1 <= orElse (slotStartMinuteStep configuration) 5 ->
    (forall e, In e eventList -> valueOf (evStartAt e) <= valueOf (evEndAt e)) ->
    exists slots,
      DayjsImpl._getAvailableTimeSlotsForShift (searchFuel eventList from to)
        configuration eventList from to = Some slots
      /\ forall s e t,
           In s slots -> In e eventList ->
           withinWindow
             (Dj.subtract_minute (orElse (minAvailableTimeBeforeSlot configuration) 0) from)
             (Dj.add_minute (timeSlotDuration configuration
                             + orElse (minAvailableTimeBeforeSlot configuration) 0) to) e ->
           blocks e t ->
           ~ (slotStartAt s
              - orElse (minAvailableTimeBeforeSlot configuration) 0 * msPerMinute + 999
              <= t
              < slotEndAt s
                + orElse (minAvailableTimeAfterSlot configuration) 0 * msPerMinute).
Proof.
  intros configuration eventList from to Hdur Hbefore Hafter Hstep Hwf.
  destruct (getAvailableTimeSlotsForShift_returns configuration eventList from to
              Hdur Hbefore Hstep) as [slots Hslots].
  exists slots. split; [exact Hslots|].
  destruct (shift_sweep configuration eventList from to _ slots
              Hdur Hbefore Hafter Hstep Hwf Hslots) as (_ & _ & Hclear & _).
  intros s e t Hs He Hw Hb Ht.
  destruct (prepareEvents_keeps_blocked eventList _ _ t e He Hw Hb) as (m & Hm & Hbm).
  rewrite Forall_forall in Hclear.
  destruct (Hclear s Hs m Hm) as [H|H]; unfold blocks in Hbm; lia.
Qed.

Lemma slots_of_a_shift_keep_clear_of_the_events_in_reach_witness :
  exists slots,
    DayjsImpl._getAvailableTimeSlotsForShift
      (searchFuel [blocked_15h20_15h30] shiftFrom_15h05 shiftTo_16h_thursday)
      config_before2 [blocked_15h20_15h30] shiftFrom_15h05 shiftTo_16h_thursday
    = Some slots
    /\ forall s e t,
         In s slots -> In e [blocked_15h20_15h30] ->
         withinWindow
           (Dj.subtract_minute (orElse (minAvailableTimeBeforeSlot config_before2) 0)
                               shiftFrom_15h05)
           (Dj.add_minute (timeSlotDuration config_before2
                           + orElse (minAvailableTimeBeforeSlot config_before2) 0)
                          shiftTo_16h_thursday) e ->
         blocks e t ->
         ~ (slotStartAt s
            - orElse (minAvailableTimeBeforeSlot config_before2) 0 * msPerMinute + 999
            <= t
            < slotEndAt s
              + orElse (minAvailableTimeAfterSlot config_before2) 0 * msPerMinute).
Proof.
  apply (slots_of_a_shift_keep_clear_of_the_events_in_reach config_before2
           [blocked_15h20_15h30] shiftFrom_15h05 shiftTo_16h_thursday);
    try (vm_compute; discriminate).
  intros e [<-|[]]. vm_compute. discriminate.
Defined.

(** ** The dayjs search as a whole: what it runs on *)

Lemma checkPrimitiveValue_ranges c clock n b n' :
  DayjsImpl._checkPrimitiveValue c clock n = (Returned b, n') -> primitivesInRange c.
Proof.
  unfold DayjsImpl._checkPrimitiveValue, primitivesInRange.
  destruct (timeSlotDuration c <? 1) eqn:E1; [discriminate|].
  destruct (negb (DayjsImpl._nullOrBetween 1 30 (slotStartMinuteStep c))) eqn:E2;
    [discriminate|].
  destruct (negb (DayjsImpl._nullOrGreaterThanOrEqualTo 0 (minAvailableTimeBeforeSlot c)))
    eqn:E3; [discriminate|].
  destruct (negb (DayjsImpl._nullOrGreaterThanOrEqualTo 0 (minAvailableTimeAfterSlot c)))
    eqn:E4; [discriminate|].
  destruct (negb (DayjsImpl._nullOrGreaterThanOrEqualTo 0 (minTimeBeforeFirstSlot c)))
    eqn:E5; [discriminate|].
  destruct (negb (DayjsImpl._nullOrGreaterThanOrEqualTo 1 (maxDaysBeforeLastSlot c)))
    eqn:E6; [discriminate|].
  intro H. apply bind_returned in H. destruct H as (u & n1 & Hz & _).
  apply checkTimeZone_returned in Hz.
  apply Z.ltb_ge in E1. apply negb_false_iff in E2, E3, E4, E5, E6.
  unfold DayjsImpl._nullOrBetween in E2.
  unfold DayjsImpl._nullOrGreaterThanOrEqualTo in E3, E4, E5, E6.
  split; [lia|]. split.
  { destruct (slotStartMinuteStep c); simpl; [|lia].
    apply andb_true_iff in E2. rewrite !Z.leb_le in E2. lia. }
  split; [destruct (minAvailableTimeBeforeSlot c); simpl; [apply Z.leb_le in E3|]; lia|].
  split; [destruct (minAvailableTimeAfterSlot c); simpl; [apply Z.leb_le in E4|]; lia|].
  split; [destruct (minTimeBeforeFirstSlot c); simpl; [apply Z.leb_le in E5|]; lia|].
  split; [destruct (maxDaysBeforeLastSlot c); simpl; [apply Z.leb_le in E6|]; lia|].
  exact Hz.
Qed.

Lemma checkSearchParameters_valid c from to clock n usedConfig n' :
  DayjsImpl._checkSearchParameters c from to clock n = (Returned usedConfig, n') ->
  usedConfig = mergedConfiguration c /\ primitivesInRange usedConfig.
Proof.
  unfold DayjsImpl._checkSearchParameters.
  destruct (_ || _ || _); [discriminate|].
  intro H. apply bind_returned in H. destruct H as (b & n1 & Hv & Hr).
  inversion Hr; subst; clear Hr. split; [reflexivity|].
  unfold DayjsImpl.isConfigurationValid in Hv.
  apply bind_returned in Hv. destruct Hv as (b1 & n2 & Hp & _).
  apply checkPrimitiveValue_ranges in Hp. exact Hp.
Qed.

Section WholeSearchByShift.

Variable usedConfig : TimeSlotsFinderConfiguration.
Variable eventList : list DayjsPeriod.
Variable P : TimeSlot -> Prop.
Variables firstFromMoment lastToMoment : Dayjs.

Hypothesis shift_slots :
  forall fuel fromMoment weekDayConfig shift startAt endAt slots,
    utcOffset fromMoment = utcOffset firstFromMoment ->
    DayjsImpl._getWeekDayConfigForMoment usedConfig fromMoment = Some weekDayConfig ->
    In shift (shifts weekDayConfig) ->
    DayjsImpl._getMomentsFromShift fromMoment shift = (Some startAt, Some endAt) ->
    DayjsImpl._getAvailableTimeSlotsForShift fuel usedConfig eventList
      (Dj.max firstFromMoment startAt) (Dj.min lastToMoment endAt) = Some slots ->
    Forall P slots.

Lemma forEachShift_by_shift fuel fromMoment weekDayConfig :
  utcOffset fromMoment = utcOffset firstFromMoment ->
  DayjsImpl._getWeekDayConfigForMoment usedConfig fromMoment = Some weekDayConfig ->
  forall l slots,
    incl l (shifts weekDayConfig) ->
    DayjsImpl.forEachShift fuel usedConfig eventList firstFromMoment lastToMoment
                           fromMoment l = Some slots ->
    Forall P slots.
Proof.
  intros Hoff Hw. induction l as [|shift l IH]; intros slots Hincl H;
    cbn [DayjsImpl.forEachShift] in H; cbv zeta in H.
  - inversion H. constructor.
  - match type of H with
    | (match ?h with Some _ => _ | None => _ end) = _ =>
        destruct h as [here|] eqn:Eh; [|discriminate]
    end.
    destruct (DayjsImpl.forEachShift fuel usedConfig eventList firstFromMoment lastToMoment
                fromMoment l) as [rest|]; [|discriminate].
    assert (Hrest : Forall P rest).
    { apply IH; [|reflexivity]. intros x Hx. apply Hincl. right. exact Hx. }
    inversion H. apply Forall_app. split; [|assumption].
    destruct (DayjsImpl._getMomentsFromShift fromMoment shift) as [[startAt|] [endAt|]] eqn:Em;
      try (inversion Eh; constructor).
    destruct (negb (Dj.isSameOrBefore (Dj.max firstFromMoment startAt)
                      (Dj.min lastToMoment endAt))).
    + inversion Eh. constructor.
    + apply (shift_slots fuel fromMoment weekDayConfig shift startAt endAt here Hoff Hw);
        [apply Hincl; left; reflexivity|exact Em|exact Eh].
Qed.

Lemma dayLoop_by_shift shiftFuel :
  forall fuel fromMoment slots,
    utcOffset fromMoment = utcOffset firstFromMoment ->
    DayjsImpl.dayLoop fuel usedConfig eventList firstFromMoment lastToMoment
                      fromMoment shiftFuel = Some slots ->
    Forall P slots.
Proof.
  induction fuel as [|fuel IH]; intros fromMoment slots Hoff H; [discriminate|].
  cbn [DayjsImpl.dayLoop] in H.
  destruct (Dj.isBefore fromMoment lastToMoment); [|inversion H; constructor].
  match type of H with
  | (match ?h with Some _ => _ | None => _ end) = _ =>
      destruct h as [today|] eqn:Et; [|discriminate]
  end.
  destruct (DayjsImpl.dayLoop fuel usedConfig eventList firstFromMoment lastToMoment
              (Dj.startOf_day (Dj.add_day 1 fromMoment)) shiftFuel) as [rest|] eqn:Er;
    [|discriminate].
  assert (Hrest : Forall P rest) by (eapply IH; [|exact Er]; exact Hoff).
  inversion H. apply Forall_app. split; [|assumption].
  destruct (DayjsImpl._getWeekDayConfigForMoment usedConfig fromMoment)
    as [weekDayConfig|] eqn:Ew.
  - apply (forEachShift_by_shift shiftFuel fromMoment weekDayConfig Hoff Ew
             (shifts weekDayConfig) today); [apply incl_refl|exact Et].
  - inversion Et. constructor.
Qed.

End WholeSearchByShift.

(** A returned list of slots is empty, or it is the list of the day loop
    run on a configuration that passed the validation, between the two
    boundaries. *)
Lemma search_returned fuel params clock slots :
  run (DayjsImpl.getAvailableTimeSlotsInCalendar fuel params) clock = Returned slots ->
  slots = []
  \/ exists events n2 firstFrom lastTo n3,
       primitivesInRange (mergedConfiguration (configuration params))
       /\ DayjsImpl._computeBoundaries (from params) (to params)
            (mergedConfiguration (configuration params)) clock n2
          = (Returned (Some firstFrom, Some lastTo), n3)
       /\ DayjsImpl.dayLoop fuel (mergedConfiguration (configuration params)) events
            firstFrom lastTo firstFrom fuel = Some slots.
Proof.
  intro H. unfold run in H.
  destruct (DayjsImpl.getAvailableTimeSlotsInCalendar fuel params clock 0%nat)
    as [o n'] eqn:E. cbn [fst] in H. subst o.
  unfold DayjsImpl.getAvailableTimeSlotsInCalendar in E.
  apply bind_returned in E. destruct E as (usedConfig & n1 & Hcfg & E).
  apply bind_returned in E. destruct E as (events & n2 & Hev & E).
  apply bind_returned in E. destruct E as ([firstFrom lastTo] & n3 & Hb & E).
  apply checkSearchParameters_valid in Hcfg. destruct Hcfg as [-> Hrange].
  destruct firstFrom as [firstFrom|]; [|left; inversion E; reflexivity].
  destruct lastTo as [lastTo|]; [|left; inversion E; reflexivity].
  destruct (DayjsImpl.dayLoop fuel (mergedConfiguration (configuration params)) events
              firstFrom lastTo firstFrom fuel) as [timeSlots|] eqn:Ed; [|discriminate].
  inversion E; subst timeSlots.
  right. exists events, n2, firstFrom, lastTo, n3. auto.
Qed.

(** The slots of one sweep: where they start, how long they are. *)
Lemma shift_slots_bounds configuration eventList from to fuel slots :
  1 <= timeSlotDuration configuration ->
  0 <= orElse (minAvailableTimeBeforeSlot configuration) 0 ->
  1 <= orElse (slotStartMinuteStep configuration) 5 ->
  DayjsImpl._getAvailableTimeSlotsForShift fuel configuration eventList from to
    = Some slots ->
  Forall (fun s =>
            valueOf from - 999 <= slotStartAt s
            /\ slotStartAt s
               < valueOf to - timeSlotDuration configuration * msPerMinute
                 + orElse (slotStartMinuteStep configuration) 5 * msPerMinute
            /\ slotEndAt s = slotStartAt s + timeSlotDuration configuration * msPerMinute
            /\ duration s = timeSlotDuration configuration) slots.
Proof.
  intros Hdur Hbefore Hstep Hslots.
  unfold DayjsImpl._getAvailableTimeSlotsForShift in Hslots. cbv zeta in Hslots.
  eapply (searchLoop_Forall configuration _ _
            (fun c => valueOf from
                      - orElse (minAvailableTimeBeforeSlot configuration) 0 * msPerMinute
                      <= valueOf c));
    [| | | |exact Hslots]; cbv beta.
  - intros e He. apply prepareEvents_In in He. destruct He as [_ He].
    unfold Dj.subtract_minute in He. cbn [valueOf] in He. lia.
  - intros c Hc.
    destruct (pushNewSlot_cursor configuration
                (DayjsImpl._nextSearchMoment c configuration)) as [_ Hv].
    destruct (nextSearchMoment_bounds configuration c Hstep) as [Hlo _].
    rewrite Hv. unfold msPerMinute in *. nia.
  - intros c Hc Hle. rewrite pushNewSlot_slot. cbn [slotStartAt slotEndAt duration].
    destruct (nextSearchMoment_bounds configuration c Hstep) as [Hlo Hhi].
    unfold Dj.subtract_minute in Hle. cbn [valueOf] in Hle.
    split; [unfold msPerMinute in *; lia|].
    split; [unfold msPerMinute in *; lia|].
    split; [reflexivity|].
    unfold Dj.diff_minute, Dj.add_minute. cbn [valueOf].
    match goal with
    | |- Z.quot ?x _ = _ =>
        replace x with (timeSlotDuration configuration * msPerMinute) by lia
    end.
    apply Z.quot_mul. unfold msPerMinute. lia.
  - unfold Dj.subtract_minute. cbn [valueOf]. lia.
Qed.


Lemma max_value a b : valueOf (Dj.max a b) = Z.max (valueOf a) (valueOf b).
Proof. unfold Dj.max, Dj.isAfter. destruct (valueOf a <? valueOf b) eqn:E; lia. Qed.

Lemma min_value a b : valueOf (Dj.min a b) = Z.min (valueOf a) (valueOf b).
Proof. unfold Dj.min, Dj.isBefore. destruct (valueOf b <? valueOf a) eqn:E; lia. Qed.


(** A property of the slots of every sweep that the day loop starts is a
    property of the slots that the search returns. *)
Lemma returned_slots_Forall fuel params clock slots (P : TimeSlot -> Prop) :
  run (DayjsImpl.getAvailableTimeSlotsInCalendar fuel params) clock = Returned slots ->
  (forall events n2 firstFrom lastTo n3 fuel' fromMoment weekDayConfig shift
          startAt endAt sl,
      primitivesInRange (mergedConfiguration (configuration params)) ->
      DayjsImpl._computeBoundaries (from params) (to params)
        (mergedConfiguration (configuration params)) clock n2
      = (Returned (Some firstFrom, Some lastTo), n3) ->
      utcOffset fromMoment = utcOffset firstFrom ->
      DayjsImpl._getWeekDayConfigForMoment
        (mergedConfiguration (configuration params)) fromMoment = Some weekDayConfig ->
      In shift (shifts weekDayConfig) ->
      DayjsImpl._getMomentsFromShift fromMoment shift = (Some startAt, Some endAt) ->
      DayjsImpl._getAvailableTimeSlotsForShift fuel'
        (mergedConfiguration (configuration params)) events
        (Dj.max firstFrom startAt) (Dj.min lastTo endAt) = Some sl ->
      Forall P sl) ->
  Forall P slots.
Proof.
  intros H Hshift.
  destruct (search_returned fuel params clock slots H)
    as [->|(events & n2 & firstFrom & lastTo & n3 & Hrange & Hb & Hd)]; [constructor|].
  apply (dayLoop_by_shift (mergedConfiguration (configuration params)) events P
           firstFrom lastTo) with (shiftFuel := fuel) (fuel := fuel) (fromMoment := firstFrom);
    [|reflexivity|exact Hd].
  intros fuel' fromMoment weekDayConfig shift startAt endAt sl Hoff Hw Hin Hm Hsl.
  apply (Hshift events n2 firstFrom lastTo n3 fuel' fromMoment weekDayConfig shift
           startAt endAt sl); assumption.
Qed.

(** X12. In a zone of the zone table (all of fixed offset), for a window
    that starts in 1970 or later and a duration that is a whole number of
    minutes, every slot that the dayjs [getAvailableTimeSlotsInCalendar]
    returns has the configured duration: its [duration] field is
    [timeSlotDuration], and its end is that many minutes after its start. *)
Theorem returned_slots_have_the_configured_duration :
  forall (fuel : nat) (params : TimeSlotsFinderParameters) (clock : Clock)
         (slots : list TimeSlot) (off f : Z),
    zoneOffset (timeZone (configuration params)) = Some off ->
    from params = DateAt f -> 0 <= f ->
    run (DayjsImpl.getAvailableTimeSlotsInCalendar fuel params) clock = Returned slots ->
    Forall (fun s =>
              duration s = timeSlotDuration (configuration params)
              /\ slotEndAt s
                 = slotStartAt s + timeSlotDuration (configuration params) * msPerMinute)
           slots.
Proof.
  intros fuel params clock slots off f _ _ _ H.
  apply (returned_slots_Forall fuel params clock slots _ H).
  intros events n2 firstFrom lastTo n3 fuel' fromMoment weekDayConfig shift startAt endAt sl
         (Hdur & Hstep & Hbefore & _) _ _ _ _ _ Hsl.
  pose proof (shift_slots_bounds _ _ _ _ _ _ Hdur Hbefore (proj1 Hstep) Hsl) as Hb.
  eapply Forall_impl; [|exact Hb].
  intros s (_ & _ & He & Hd). cbn [mergedConfiguration timeSlotDuration] in *. auto.
Qed.

Lemma returned_slots_have_the_configured_duration_witness :
  exists slots,
    run (DayjsImpl.getAvailableTimeSlotsInCalendar 50 params_step) clock_step
      = Returned slots
    /\ Forall (fun s =>
                duration s = timeSlotDuration (configuration params_step)
                /\ slotEndAt s
                   = slotStartAt s
                     + timeSlotDuration (configuration params_step) * msPerMinute)
             slots.
Proof.
  eexists. split; [vm_compute; reflexivity|].
  apply (returned_slots_have_the_configured_duration 50 params_step clock_step _ 0
           (atUTC 2020 10 15 15 0 0 0));
    [reflexivity|reflexivity|vm_compute; discriminate|].
  vm_compute. reflexivity.
Defined.







(** X23. In a zone of the zone table (all of fixed offset), for a window
    that starts in 1970 or later, when an hour is a whole number of steps,
    every slot of a list that the dayjs [getAvailableTimeSlotsInCalendar]
    returns starts, read at the offset of the zone, on a minute that is a
    multiple of [slotStartMinuteStep] (5 by default). *)
Theorem returned_slots_start_on_a_multiple_of_the_step :
  forall (fuel : nat) (params : TimeSlotsFinderParameters) (clock : Clock)
         (slots : list TimeSlot) (off f : Z),
    zoneOffset (timeZone (configuration params)) = Some off ->
    from params = DateAt f -> 0 <= f ->
    60 mod orElse (slotStartMinuteStep (configuration params)) 5 = 0 ->
    run (DayjsImpl.getAvailableTimeSlotsInCalendar fuel params) clock = Returned slots ->
    Forall (startsOnStep off (orElse (slotStartMinuteStep (configuration params)) 5)) slots.
Proof.
  intros fuel params clock slots off f Hoff _ _ Hdiv H.
  destruct (calendar_slots_start_on_step fuel params clock slots Hdiv H)
    as (off' & Hoff' & Hall).
  rewrite Hoff in Hoff'. inversion Hoff'; subst off'. exact Hall.
Qed.

Lemma returned_slots_start_on_a_multiple_of_the_step_witness :
  exists slots,
    run (DayjsImpl.getAvailableTimeSlotsInCalendar 50 params_step) clock_step
      = Returned slots
    /\ Forall (startsOnStep 0 5) slots.
Proof.
  eexists. split; [vm_compute; reflexivity|].
  apply (returned_slots_start_on_a_multiple_of_the_step 50 params_step clock_step _ 0
           (atUTC 2020 10 15 15 0 0 0));
    [reflexivity|reflexivity|vm_compute; discriminate|reflexivity|].
  vm_compute. reflexivity.
Defined.

(** ** The dayjs search terminates *)

Lemma nof_ret {A} (a : A) : neverOutOfFuel (ret a).
Proof. intros clock n. discriminate. Qed.

Lemma nof_throw {A} e : neverOutOfFuel (@throw A e).
Proof. intros clock n. discriminate. Qed.

Lemma nof_readClock : neverOutOfFuel readClock.
Proof. intros clock n. discriminate. Qed.

Lemma nof_bind {A B} (c : M A) (k : A -> M B) :
  neverOutOfFuel c -> (forall a, neverOutOfFuel (k a)) -> neverOutOfFuel (bind c k).
Proof.
  intros Hc Hk clock n. unfold bind. specialize (Hc clock n).
  destruct (c clock n) as [[a|e|] n1]; cbn [fst] in *.
  - apply Hk.
  - discriminate.
  - congruence.
Qed.

Lemma nof_tryCatch {A} (c h : M A) :
  neverOutOfFuel c -> neverOutOfFuel h -> neverOutOfFuel (tryCatch c h).
Proof.
  intros Hc Hh clock n. unfold tryCatch. specialize (Hc clock n).
  destruct (c clock n) as [[a|e|] n1]; cbn [fst] in *.
  - discriminate.
  - apply Hh.
  - congruence.
Qed.

Ltac nof :=
  repeat first
    [ assumption
    | match goal with H : _ |- neverOutOfFuel _ => apply H end
    | apply nof_ret
    | apply nof_throw
    | apply nof_readClock
    | apply nof_tryCatch
    | apply nof_bind; [|intro]
    | match goal with
      | |- neverOutOfFuel (if ?b then _ else _) => destruct b
      | |- neverOutOfFuel (match ?x with _ => _ end) => destruct x
      | |- neverOutOfFuel (let (_, _) := ?x in _) => destruct x
      end ].

Lemma nof_dayjs_now : neverOutOfFuel dayjs_now.
Proof. unfold dayjs_now. nof. Qed.

Lemma nof_tz zone d : neverOutOfFuel (tz zone d).
Proof. unfold tz. nof. Qed.

Lemma nof_checkShifts l index : neverOutOfFuel (checkShifts l index).
Proof. induction l; simpl; nof. Qed.

Lemma nof_checkAvailablePeriods l : forall i, neverOutOfFuel (checkAvailablePeriods l i).
Proof.
  induction l as [|p l IH]; intro i; simpl; [nof|].
  pose proof (nof_checkShifts (shifts p) i). unfold _isAvailablePeriodValid. nof.
Qed.

Lemma nof_checkTimeZone zone : neverOutOfFuel (DayjsImpl._checkTimeZone zone).
Proof.
  pose proof nof_dayjs_now. pose proof nof_tz.
  unfold DayjsImpl._checkTimeZone. nof.
Qed.

Lemma nof_fromObject o : neverOutOfFuel (DayjsImpl.dayjs_fromObject o).
Proof. pose proof nof_dayjs_now. unfold DayjsImpl.dayjs_fromObject. nof. Qed.

Lemma nof_isPeriodMomentValid o : neverOutOfFuel (DayjsImpl._isPeriodMomentValid o).
Proof. pose proof nof_dayjs_now. unfold DayjsImpl._isPeriodMomentValid. nof. Qed.

Lemma nof_checkUnavailablePeriods l :
  forall i, neverOutOfFuel (DayjsImpl.checkUnavailablePeriods l i).
Proof.
  pose proof nof_isPeriodMomentValid. pose proof nof_fromObject.
  induction l as [|p l IH]; intro i; simpl; [nof|].
  unfold DayjsImpl._isUnavailablePeriodValid. nof.
Qed.

Lemma nof_isConfigurationValid c : neverOutOfFuel (DayjsImpl.isConfigurationValid c).
Proof.
  pose proof (nof_checkTimeZone (timeZone c)).
  pose proof (nof_checkAvailablePeriods (availablePeriods c) 0).
  pose proof nof_checkUnavailablePeriods.
  unfold DayjsImpl.isConfigurationValid, DayjsImpl._checkPrimitiveValue. nof.
Qed.

Lemma nof_checkSearchParameters c from to :
  neverOutOfFuel (DayjsImpl._checkSearchParameters c from to).
Proof.
  pose proof nof_isConfigurationValid.
  unfold DayjsImpl._checkSearchParameters. nof.
Qed.

Lemma nof_getUnavailablePeriodAsEvents l zone :
  neverOutOfFuel (DayjsImpl._getUnavailablePeriodAsEvents l zone).
Proof.
  pose proof nof_fromObject.
  induction l as [|p l IH]; simpl; [nof|].
  unfold DayjsImpl.unavailablePeriodAsEvent, DayjsImpl.resolveUnavailablePeriod,
    DayjsImpl.dayjs_tzOfObject.
  nof.
Qed.

Lemma nof_computeBoundaries from to c :
  neverOutOfFuel (DayjsImpl._computeBoundaries from to c).
Proof.
  pose proof nof_dayjs_now. pose proof nof_tz.
  unfold DayjsImpl._computeBoundaries, DayjsImpl.dayjs_ofDate. nof.
Qed.

Lemma searchFuel_mono events f l from to :
  valueOf f <= valueOf from -> valueOf to <= valueOf l ->
  (searchFuel events from to <= searchFuel events f l)%nat.
Proof.
  intros Hf Hl. unfold searchFuel.
  assert (H : (valueOf to - valueOf from) / 59001 <= (valueOf l - valueOf f) / 59001)
    by (apply Z.div_le_mono; lia).
  apply Z2Nat.inj_le; nia.
Qed.

Lemma sweep_returns configuration eventList from to fuel :
  1 <= timeSlotDuration configuration ->
  0 <= orElse (minAvailableTimeBeforeSlot configuration) 0 ->
  1 <= orElse (slotStartMinuteStep configuration) 5 ->
  (searchFuel eventList from to <= fuel)%nat ->
  exists slots,
    DayjsImpl._getAvailableTimeSlotsForShift fuel configuration eventList from to
    = Some slots.
Proof.
  intros Hdur Hbefore Hstep Hfuel.
  destruct (getAvailableTimeSlotsForShift_returns configuration eventList from to
              Hdur Hbefore Hstep) as [slots H].
  exists slots. unfold DayjsImpl._getAvailableTimeSlotsForShift in *. cbv zeta in *.
  eapply searchLoop_more_fuel; [exact Hfuel|exact H].
Qed.

Section DayLoopTermination.

Variable usedConfig : TimeSlotsFinderConfiguration.
Variable eventList : list DayjsPeriod.
Variables firstFromMoment lastToMoment : Dayjs.
Variable shiftFuel : nat.

Hypothesis duration_pos : 1 <= timeSlotDuration usedConfig.
Hypothesis before_nonneg : 0 <= orElse (minAvailableTimeBeforeSlot usedConfig) 0.
Hypothesis step_pos : 1 <= orElse (slotStartMinuteStep usedConfig) 5.
Hypothesis enough_shiftFuel :
  (searchFuel eventList firstFromMoment lastToMoment <= shiftFuel)%nat.

Lemma forEachShift_returns fromMoment l :
  exists slots,
    DayjsImpl.forEachShift shiftFuel usedConfig eventList firstFromMoment lastToMoment
                           fromMoment l = Some slots.
Proof.
  induction l as [|shift l [rest IH]]; cbn [DayjsImpl.forEachShift]; cbv zeta; [eauto|].
  rewrite IH.
  destruct (DayjsImpl._getMomentsFromShift fromMoment shift) as [[startAt|] [endAt|]];
    eauto.
  destruct (negb (Dj.isSameOrBefore (Dj.max firstFromMoment startAt)
                    (Dj.min lastToMoment endAt))); [eauto|].
  destruct (sweep_returns usedConfig eventList (Dj.max firstFromMoment startAt)
              (Dj.min lastToMoment endAt) shiftFuel duration_pos before_nonneg step_pos)
    as [here Hhere].
  - eapply Nat.le_trans; [|exact enough_shiftFuel].
    apply searchFuel_mono; [rewrite max_value|rewrite min_value]; lia.
  - rewrite Hhere. eauto.
Qed.

Lemma next_day_daysLeft fromMoment :
  daysLeft lastToMoment (Dj.startOf_day (Dj.add_day 1 fromMoment))
  = daysLeft lastToMoment fromMoment - 1.
Proof.
  unfold daysLeft, Dj.startOf_day, Dj.add_day, Dj.withLocalMs, Dj.localMs.
  cbn [valueOf utcOffset].
  generalize (valueOf lastToMoment), (valueOf fromMoment), (utcOffset fromMoment).
  clear. intros vt v o. unfold msPerDay, msPerMinute. zdiv.
Qed.

Lemma daysLeft_nonneg fromMoment :
  valueOf fromMoment < valueOf lastToMoment -> 0 <= daysLeft lastToMoment fromMoment.
Proof.
  unfold daysLeft, Dj.localMs.
  generalize (valueOf lastToMoment), (valueOf fromMoment), (utcOffset fromMoment).
  clear. intros vt v o H. unfold msPerDay, msPerMinute. zdiv.
Qed.

Lemma dayLoop_returns :
  forall fuel fromMoment,
    Z.max 0 (daysLeft lastToMoment fromMoment + 1) + 1 <= Z.of_nat fuel ->
    exists slots,
      DayjsImpl.dayLoop fuel usedConfig eventList firstFromMoment lastToMoment
                        fromMoment shiftFuel = Some slots.
Proof.
  induction fuel as [|fuel IH]; intros fromMoment Hfuel; [simpl in Hfuel; lia|].
  cbn [DayjsImpl.dayLoop].
  destruct (Dj.isBefore fromMoment lastToMoment) eqn:E; [|eauto].
  unfold Dj.isBefore in E. apply Z.ltb_lt in E.
  pose proof (daysLeft_nonneg fromMoment E) as Hg.
  destruct (IH (Dj.startOf_day (Dj.add_day 1 fromMoment))) as [rest Hrest].
  { rewrite next_day_daysLeft. lia. }
  rewrite Hrest.
  destruct (DayjsImpl._getWeekDayConfigForMoment usedConfig fromMoment) as [weekDayConfig|];
    [|eauto].
  destruct (forEachShift_returns fromMoment (shifts weekDayConfig)) as [today Htoday].
  rewrite Htoday. eauto.
Qed.

Lemma dayLoop_returns_from_the_start fuel :
  (dayFuel firstFromMoment lastToMoment <= fuel)%nat ->
  exists slots,
    DayjsImpl.dayLoop fuel usedConfig eventList firstFromMoment lastToMoment
                      firstFromMoment shiftFuel = Some slots.
Proof.
  intro Hfuel. apply dayLoop_returns.
  unfold dayFuel in Hfuel.
  assert (Hg : daysLeft lastToMoment firstFromMoment
               <= (valueOf lastToMoment - valueOf firstFromMoment) / msPerDay + 1).
  { unfold daysLeft, Dj.localMs.
    generalize (valueOf lastToMoment), (valueOf firstFromMoment),
               (utcOffset firstFromMoment).
    clear. intros vt v o. unfold msPerDay, msPerMinute. zdiv. }
  lia.
Qed.

End DayLoopTermination.

(** X16. In a zone of the zone table (all of fixed offset), the dayjs
    [getAvailableTimeSlotsInCalendar] terminates for every configuration,
    every window that starts in 1970 or later and every clock: with enough
    fuel the search does not run out of it, and more fuel does not change
    its outcome (the list of slots, or the error thrown). *)
Theorem dayjs_search_terminates :
  forall (params : TimeSlotsFinderParameters) (clock : Clock) (off f : Z),
    zoneOffset (timeZone (configuration params)) = Some off ->
    from params = DateAt f -> 0 <= f ->
    exists fuel : nat,
      forall fuel' : nat,
        (fuel <= fuel')%nat ->
        run (DayjsImpl.getAvailableTimeSlotsInCalendar fuel' params) clock <> OutOfFuel
        /\ run (DayjsImpl.getAvailableTimeSlotsInCalendar fuel' params) clock
           = run (DayjsImpl.getAvailableTimeSlotsInCalendar fuel params) clock.
Proof.
  intros params clock off f _ _ _.
  unfold run, DayjsImpl.getAvailableTimeSlotsInCalendar, bind.
  pose proof (nof_checkSearchParameters (configuration params) (from params) (to params)
                clock 0%nat) as H1.
  destruct (DayjsImpl._checkSearchParameters (configuration params) (from params)
              (to params) clock 0%nat) as [[usedConfig|e|] n1] eqn:E1; cbn [fst] in H1;
    [|exists 0%nat; intros; split; [discriminate|reflexivity]|congruence].
  pose proof (nof_getUnavailablePeriodAsEvents
                (match unavailablePeriods usedConfig with Some l => l | None => [] end)
                (timeZone usedConfig) clock n1) as H2.
  destruct (DayjsImpl._getUnavailablePeriodAsEvents _ _ clock n1)
    as [[events|e|] n2]; cbn [fst] in H2;
    [|exists 0%nat; intros; split; [discriminate|reflexivity]|congruence].
  pose proof (nof_computeBoundaries (from params) (to params) usedConfig clock n2) as H3.
  destruct (DayjsImpl._computeBoundaries (from params) (to params) usedConfig clock n2)
    as [[[[firstFrom|] [lastTo|]]|e|] n3]; cbn [fst] in H3;
    try (exists 0%nat; intros; split; [discriminate|reflexivity]); [|congruence].
  apply checkSearchParameters_valid in E1.
  destruct E1 as [_ (Hdur & Hstep & Hbefore & _)].
  exists (Nat.max (dayFuel firstFrom lastTo) (searchFuel events firstFrom lastTo)).
  intros fuel' Hfuel.
  destruct (dayLoop_returns_from_the_start usedConfig events firstFrom lastTo
              (Nat.max (dayFuel firstFrom lastTo) (searchFuel events firstFrom lastTo))
              Hdur Hbefore (proj1 Hstep) ltac:(lia)
              (Nat.max (dayFuel firstFrom lastTo) (searchFuel events firstFrom lastTo))
              ltac:(lia)) as [slots Hslots].
  rewrite Hslots.
  rewrite (dayLoop_more_fuel usedConfig events firstFrom lastTo _ fuel' _ fuel'
             firstFrom slots Hfuel Hfuel Hslots).
  split; [discriminate|reflexivity].
Qed.

Lemma dayjs_search_terminates_witness :
  exists fuel : nat,
    forall fuel' : nat,
      (fuel <= fuel')%nat ->
      run (DayjsImpl.getAvailableTimeSlotsInCalendar fuel' params_step) clock_step
      <> OutOfFuel
      /\ run (DayjsImpl.getAvailableTimeSlotsInCalendar fuel' params_step) clock_step
         = run (DayjsImpl.getAvailableTimeSlotsInCalendar fuel params_step) clock_step.
Proof.
  apply (dayjs_search_terminates params_step clock_step 0 (atUTC 2020 10 15 15 0 0 0));
    [reflexivity|reflexivity|vm_compute; discriminate].
Defined.

(** ** Unavailable periods: validation and events (dayjs) *)

Lemma isPeriodMomentValid_true o clock n :
  fst (DayjsImpl._isPeriodMomentValid o clock n) = Returned true ->
  (forall y, year o = Some y -> 0 < y)
  /\ 0 <= month o <= 11 /\ 1 <= day o.
Proof.
  unfold DayjsImpl._isPeriodMomentValid.
  assert (Hmain :
    fst ((let isYearAndMonthValid :=
            (match year o with None => true | Some y => 0 <? y end)
            && (0 <=? month o) && (month o <=? 11) in
          if negb isYearAndMonthValid then ret false
          else
            now <- dayjs_now ;;
            let y := if truthy (year o) then orElse (year o) 0 else Dj.year now in
            ret ((1 <=? day o) && (day o <=? daysInMonthOf y (month o))
                 && (match hour o with
                     | None => true | Some h => (0 <=? h) && (h <=? 23) end)
                 && (match minute o with
                     | None => true | Some m => (0 <=? m) && (m <=? 59) end))) clock n)
    = Returned true ->
    (forall y, year o = Some y -> 0 < y) /\ 0 <= month o <= 11 /\ 1 <= day o).
  { cbv zeta.
    destruct ((match year o with None => true | Some y => 0 <? y end)
              && (0 <=? month o) && (month o <=? 11)) eqn:E; cbn [negb].
    - unfold bind, dayjs_now, readClock, ret. cbn [fst]. intro H. injection H as H'.
      apply andb_true_iff in E. destruct E as [E Em2].
      apply andb_true_iff in E. destruct E as [Ey Em1].
      apply andb_true_iff in H'. destruct H' as [H' _].
      apply andb_true_iff in H'. destruct H' as [H' _].
      apply andb_true_iff in H'. destruct H' as [Hd _].
      apply Z.leb_le in Em1, Em2, Hd.
      split; [|lia]. intros y Hy. rewrite Hy in Ey. apply Z.ltb_lt in Ey. exact Ey.
    - unfold ret. cbn [fst]. discriminate. }
  destruct (hour o), (minute o); try exact Hmain.
  unfold ret. cbn [fst]. discriminate.
Qed.

(** [dayjs(obj)] for a moment with a year: the clock is read, and the
    result does not depend on the reading. *)
Lemma fromObject_dated o y clock n :
  year o = Some y -> 0 < y -> 0 <= month o -> 1 <= day o ->
  DayjsImpl.dayjs_fromObject o clock n
  = (Returned (mkDayjs (makeDate y (month o) (day o) (orElse (hour o) 0)
                                 (orElse (minute o) 0)) 0), S n).
Proof.
  intros Hy Hpos Hm Hd. unfold DayjsImpl.dayjs_fromObject, bind, dayjs_now, readClock, ret.
  rewrite Hy. cbn [truthy orElse negb].
  replace (y =? 0) with false by (symmetry; apply Z.eqb_neq; lia).
  replace (day o =? 0) with false by (symmetry; apply Z.eqb_neq; lia).
  replace (0 <=? month o) with true by (symmetry; apply Z.leb_le; lia).
  reflexivity.
Qed.

Lemma startOf_day_value x : valueOf (Dj.startOf_day x) <= valueOf x.
Proof.
  unfold Dj.startOf_day, Dj.withLocalMs, Dj.localMs. cbn [valueOf].
  pose proof (Z.mod_pos_bound (valueOf x + utcOffset x * msPerMinute) msPerDay
                ltac:(unfold msPerDay; lia)).
  lia.
Qed.

Lemma endOf_day_value_ge x : valueOf x <= valueOf (Dj.endOf_day x).
Proof.
  unfold Dj.endOf_day, Dj.withLocalMs, Dj.localMs. cbn [valueOf].
  pose proof (Z.mod_pos_bound (valueOf x + utcOffset x * msPerMinute) msPerDay
                ltac:(unfold msPerDay; lia)).
  lia.
Qed.

(** X17. In a zone of fixed offset that the zone table lists, for a
    period with years, both 1971 or later, that [_isUnavailablePeriodValid]
    (dayjs) accepts, [_getUnavailablePeriodAsEvents] gives an event at the
    offset of the zone that starts strictly before it ends, whatever the
    clock reads when the event is built. *)
Theorem dayjs_event_of_a_dated_period_starts_before_it_ends :
  forall (period : Period) (zone : string) (off : Z)
         (clock : Clock) (n : nat) (clock' : Clock) (n' : nat),
    zoneOffset zone = Some off ->
    (exists y, year (startAt period) = Some y /\ 1971 <= y) ->
    (exists y, year (endAt period) = Some y /\ 1971 <= y) ->
    fst (DayjsImpl._isUnavailablePeriodValid period clock n) = Returned true ->
    exists ev,
      fst (DayjsImpl.unavailablePeriodAsEvent period zone clock' n') = Returned ev
      /\ utcOffset (evStartAt ev) = off /\ utcOffset (evEndAt ev) = off
      /\ valueOf (evStartAt ev) < valueOf (evEndAt ev).
Proof.
  intros period zone off clock n clock' n' Hzone Hyear _ Hvalid.
  destruct (year (startAt period)) as [ys|] eqn:Eys;
    [clear Hyear|destruct Hyear as (y & Hy & _); discriminate Hy].
  unfold DayjsImpl._isUnavailablePeriodValid in Hvalid. rewrite Eys in Hvalid.
  destruct (year (endAt period)) as [ye|] eqn:Eye; [|discriminate Hvalid].
  cbn [Bool.eqb negb] in Hvalid. unfold bind in Hvalid.
  pose proof (isPeriodMomentValid_true (startAt period) clock n) as Hs.
  destruct (DayjsImpl._isPeriodMomentValid (startAt period) clock n) as [[[|]|e|] n1];
    try discriminate Hvalid.
  cbn [negb] in Hvalid.
  pose proof (isPeriodMomentValid_true (endAt period) clock n1) as He.
  destruct (DayjsImpl._isPeriodMomentValid (endAt period) clock n1) as [[[|]|e|] n2];
    try discriminate Hvalid.
  cbn [negb] in Hvalid.
  destruct (Hs eq_refl) as (Hsy & Hsm & Hsd). destruct (He eq_refl) as (Hey & Hem & Hed).
  specialize (Hsy ys Eys). specialize (Hey ye Eye).
  rewrite (fromObject_dated (startAt period) ys clock n2 Eys Hsy (proj1 Hsm) Hsd) in Hvalid.
  rewrite (fromObject_dated (endAt period) ye clock (S n2) Eye Hey (proj1 Hem) Hed)
    in Hvalid.
  unfold ret in Hvalid. cbn [fst] in Hvalid. inversion Hvalid as [Hlt]. clear Hvalid.
  unfold Dj.isBefore in Hlt. cbn [valueOf] in Hlt. apply Z.ltb_lt in Hlt.
  unfold DayjsImpl.unavailablePeriodAsEvent, DayjsImpl.resolveUnavailablePeriod,
    DayjsImpl.dayjs_tzOfObject, bind.
  rewrite (fromObject_dated (startAt period) ys clock' n' Eys Hsy (proj1 Hsm) Hsd).
  unfold dayjs_now, readClock, bind. rewrite Hzone. cbv beta iota delta [ret].
  rewrite (fromObject_dated (endAt period) ye clock' (S (S n')) Eye Hey (proj1 Hem) Hed).
  cbv beta iota. cbn [valueOf].
  remember (makeDate ys (month (startAt period)) (day (startAt period))
                     (orElse (hour (startAt period)) 0)
                     (orElse (minute (startAt period)) 0)) as S eqn:ES.
  remember (makeDate ye (month (endAt period)) (day (endAt period))
                     (orElse (hour (endAt period)) 0)
                     (orElse (minute (endAt period)) 0)) as E eqn:EE.
  clear ES EE.
  set (s0 := Dj.withLocalMs (mkDayjs 0 off) S).
  set (e0 := Dj.withLocalMs (mkDayjs 0 off) E).
  set (s1 := match hour (startAt period) with
             | Some _ => s0 | None => Dj.startOf_day s0 end).
  set (e1 := match hour (endAt period) with
             | Some _ => e0 | None => Dj.endOf_day e0 end).
  assert (Hs1 : utcOffset s1 = off /\ valueOf s1 <= S - off * msPerMinute).
  { unfold s1. destruct (hour (startAt period)).
    - split; reflexivity || (unfold s0, Dj.withLocalMs; cbn [valueOf utcOffset]; lia).
    - split; [reflexivity|]. pose proof (startOf_day_value s0) as H.
      change (valueOf s0) with (S - off * msPerMinute) in H. exact H. }
  assert (He1 : utcOffset e1 = off /\ E - off * msPerMinute <= valueOf e1).
  { unfold e1. destruct (hour (endAt period)).
    - split; reflexivity || (unfold e0, Dj.withLocalMs; cbn [valueOf utcOffset]; lia).
    - split; [reflexivity|]. pose proof (endOf_day_value_ge e0) as H.
      change (valueOf e0) with (E - off * msPerMinute) in H. exact H. }
  destruct Hs1 as [Hso Hsv]. destruct He1 as [Heo Hev].
  cbn [fst].
  replace (Dj.isBefore e1 s1) with false
    by (symmetry; unfold Dj.isBefore; apply Z.ltb_ge; lia).
  exists (mkEvent s1 e1). cbn [evStartAt evEndAt].
  split; [reflexivity|]. split; [exact Hso|]. split; [exact Heo|]. lia.
Qed.

Lemma dayjs_event_of_a_dated_period_starts_before_it_ends_witness :
  exists ev,
    fst (DayjsImpl.unavailablePeriodAsEvent blocked_10h10_11h "UTC"
           (frozenAt noon_2020_10_14) 0%nat) = Returned ev
    /\ utcOffset (evStartAt ev) = 0 /\ utcOffset (evEndAt ev) = 0
    /\ valueOf (evStartAt ev) < valueOf (evEndAt ev).
Proof.
  apply (dayjs_event_of_a_dated_period_starts_before_it_ends blocked_10h10_11h "UTC" 0
           (frozenAt noon_2020_10_14) 0%nat (frozenAt noon_2020_10_14) 0%nat).
  - reflexivity.
  - exists 2020. split; [reflexivity|lia].
  - exists 2020. split; [reflexivity|lia].
  - vm_compute. reflexivity.
Defined.

(** In a zone that the table lists, the event of a period takes four
    readings of the clock: two for each moment. *)
Lemma unavailablePeriodAsEvent_readings period zone off clock n :
  zoneOffset zone = Some off ->
  snd (DayjsImpl.unavailablePeriodAsEvent period zone clock n) = S (S (S (S n))).
Proof.
  intro Hzone.
  unfold DayjsImpl.unavailablePeriodAsEvent, DayjsImpl.resolveUnavailablePeriod,
    DayjsImpl.dayjs_tzOfObject, DayjsImpl.dayjs_fromObject, bind, dayjs_now, readClock, ret.
  rewrite Hzone. reflexivity.
Qed.

(** X18. In a zone of fixed offset that the zone table lists,
    [_getUnavailablePeriodAsEvents] (dayjs) reads the clock four times for
    a period; for a yearly period (no years) the year of the start comes
    from the first reading and the year of the end from the third.  When
    both read the year [Y], 1971 or later, for which the two moments are
    valid, the event starts in the year [Y] and does not end before it
    starts: when the end falls earlier in the year than the start, the
    event ends after the next new year. *)
Theorem dayjs_event_of_a_yearly_period_does_not_end_before_it_starts :
  forall (period : Period) (zone : string) (off Y : Z) (clock : Clock) (n : nat),
    zoneOffset zone = Some off ->
    year (startAt period) = None -> year (endAt period) = None ->
    momentInRange Y (startAt period) -> momentInRange Y (endAt period) ->
    Dj.year (mkDayjs (clock n) 0) = Y -> Dj.year (mkDayjs (clock (S (S n))) 0) = Y ->
    1971 <= Y ->
    exists ev,
      DayjsImpl.unavailablePeriodAsEvent period zone clock n
        = (Returned ev, S (S (S (S n))))
      /\ Dj.year (evStartAt ev) = Y
      /\ valueOf (evStartAt ev) <= valueOf (evEndAt ev)
      /\ (Dj.year (evEndAt ev) = Y \/ newYear (Y + 1) <= Dj.localMs (evEndAt ev)).
Proof.
  intros period zone off Y clock n Hzone Hys Hye Hrs Hre Hn1 Hn2 HY.
  destruct (dayjs_moves_end_to_next_year period zone off Y clock n
              Hzone Hys Hye Hrs Hre Hn1 Hn2 ltac:(lia))
    as (s & e & Hres & Hsy & Hey & Hpush).
  pose proof (unavailablePeriodAsEvent_readings period zone off clock n Hzone) as Hcount.
  assert (Hpair : forall ev,
             fst (DayjsImpl.unavailablePeriodAsEvent period zone clock n) = Returned ev ->
             DayjsImpl.unavailablePeriodAsEvent period zone clock n
             = (Returned ev, S (S (S (S n))))).
  { intros ev Hev.
    destruct (DayjsImpl.unavailablePeriodAsEvent period zone clock n) as [o k].
    cbn [fst snd] in Hev, Hcount. subst o k. reflexivity. }
  destruct (Z_lt_ge_dec (valueOf e) (valueOf s)) as [Hlt|Hge].
  - destruct (Hpush Hlt) as (Hev & Hval & Hcross).
    exists (mkEvent s (Dj.add_year 1 e)). cbn [evStartAt evEndAt].
    split; [exact (Hpair _ Hev)|]. split; [exact Hsy|]. split; [lia|]. right. tauto.
  - exists (mkEvent s e). cbn [evStartAt evEndAt].
    split; [|split; [exact Hsy|split; [lia|left; exact Hey]]].
    apply Hpair. clear Hpair Hcount.
    unfold DayjsImpl.unavailablePeriodAsEvent, bind.
    destruct (DayjsImpl.resolveUnavailablePeriod period zone clock n) as [o n1].
    cbn [fst] in Hres. subst o.
    replace (Dj.isBefore e s) with false
      by (symmetry; unfold Dj.isBefore; apply Z.ltb_ge; lia).
    reflexivity.
Qed.

Lemma dayjs_event_of_a_yearly_period_does_not_end_before_it_starts_witness :
  exists ev,
    DayjsImpl.unavailablePeriodAsEvent period_dec20_jan5 "UTC"
      (frozenAt noon_2020_10_14) 0%nat = (Returned ev, 4%nat)
    /\ Dj.year (evStartAt ev) = 2020
    /\ valueOf (evStartAt ev) <= valueOf (evEndAt ev)
    /\ (Dj.year (evEndAt ev) = 2020 \/ newYear (2020 + 1) <= Dj.localMs (evEndAt ev)).
Proof.
  apply (dayjs_event_of_a_yearly_period_does_not_end_before_it_starts
           period_dec20_jan5 "UTC" 0 2020 (frozenAt noon_2020_10_14) 0%nat);
    try reflexivity.
  - unfold momentInRange. vm_compute. intuition discriminate.
  - unfold momentInRange. vm_compute. intuition discriminate.
  - lia.
Defined.

(** ** Validation of a moment and the clock *)

Lemma daysInMonthOf_year_free y1 y2 m d :
  ~ (m = 1 /\ d = 29) ->
  (d <=? daysInMonthOf y1 m) = (d <=? daysInMonthOf y2 m).
Proof.
  intro H. unfold daysInMonthOf.
  destruct (m =? 1) eqn:Em; [|reflexivity].
  apply Z.eqb_eq in Em.
  destruct (isLeapYear y1), (isLeapYear y2); try reflexivity.
  - destruct (Z.leb_spec d 29), (Z.leb_spec d 28); try reflexivity; lia.
  - destruct (Z.leb_spec d 29), (Z.leb_spec d 28); try reflexivity; lia.
Qed.

Lemma dayjs_moment_clock_free o clock1 clock2 n1 n2 :
  ~ (year o = None /\ month o = 1 /\ day o = 29) ->
  fst (DayjsImpl._isPeriodMomentValid o clock1 n1)
  = fst (DayjsImpl._isPeriodMomentValid o clock2 n2).
Proof.
  intro Hnot. unfold DayjsImpl._isPeriodMomentValid.
  cbv zeta. unfold dayjs_now. unfold bind, readClock, ret.
  destruct (year o) as [y|] eqn:Ey.
  - destruct (0 <? y) eqn:Epos.
    + apply Z.ltb_lt in Epos. cbn [truthy orElse].
      replace (y =? 0) with false by (symmetry; apply Z.eqb_neq; lia).
      cbn [negb andb].
      destruct (hour o), (minute o), (0 <=? month o), (month o <=? 11); reflexivity.
    + cbn [andb negb]. destruct (hour o), (minute o); reflexivity.
  - cbn [truthy andb].
    destruct (hour o), (minute o), (0 <=? month o), (month o <=? 11);
      cbn [negb andb fst]; try reflexivity;
      rewrite (daysInMonthOf_year_free
                 (Dj.year (mkDayjs (clock1 n1) 0)) (Dj.year (mkDayjs (clock2 n2) 0))
                 (month o) (day o)) by tauto;
      reflexivity.
Qed.

Lemma luxon_moment_clock_free o clock1 clock2 n1 n2 :
  ~ (year o = None /\ month o = 1 /\ day o = 29) ->
  fst (LuxonImpl._isPeriodMomentValid o clock1 n1)
  = fst (LuxonImpl._isPeriodMomentValid o clock2 n2).
Proof.
  intro Hnot. unfold LuxonImpl._isPeriodMomentValid.
  cbv zeta. unfold dayjs_now. unfold bind, readClock, ret.
  destruct (year o) as [y|] eqn:Ey.
  - destruct (0 <? y) eqn:Epos.
    + apply Z.ltb_lt in Epos. cbn [truthy orElse].
      replace (y =? 0) with false by (symmetry; apply Z.eqb_neq; lia).
      cbn [negb andb].
      destruct (hour o), (minute o), (0 <=? month o), (month o <=? 11); reflexivity.
    + cbn [andb negb]. destruct (hour o), (minute o); reflexivity.
  - cbn [truthy andb].
    destruct (hour o), (minute o), (0 <=? month o), (month o <=? 11);
      cbn [negb andb fst]; try reflexivity;
      rewrite (daysInMonthOf_year_free
                 (Dj.year (mkDayjs (clock1 n1) 0)) (Dj.year (mkDayjs (clock2 n2) 0))
                 (month o) (day o)) by tauto;
      reflexivity.
Qed.

(** X19. The verdict of [_isPeriodMomentValid] depends on the clock for
    one kind of moment only: 29 February without a year, which (with no
    time of day) is valid exactly when the clock reads a leap year.  For
    every other moment the verdict is the same whatever the clock reads.
    This holds for both implementations. *)
Theorem moment_validity_depends_on_the_clock_for_29_february_only :
  (forall (periodMoment : PeriodMoment) (clock1 clock2 : Clock) (n1 n2 : nat),
      ~ (year periodMoment = None /\ month periodMoment = 1 /\ day periodMoment = 29) ->
      fst (DayjsImpl._isPeriodMomentValid periodMoment clock1 n1)
      = fst (DayjsImpl._isPeriodMomentValid periodMoment clock2 n2)
      /\ fst (LuxonImpl._isPeriodMomentValid periodMoment clock1 n1)
         = fst (LuxonImpl._isPeriodMomentValid periodMoment clock2 n2))
  /\
  (forall (clock : Clock) (n : nat),
      fst (DayjsImpl._isPeriodMomentValid (mkPeriodMoment None 1 29 None None) clock n)
      = Returned (isLeapYear (Dj.year (mkDayjs (clock n) 0)))
      /\ fst (LuxonImpl._isPeriodMomentValid (mkPeriodMoment None 1 29 None None) clock n)
         = Returned (isLeapYear (Dj.year (mkDayjs (clock n) 0)))).
Proof.
  split.
  - intros o clock1 clock2 n1 n2 Hnot. split.
    + apply dayjs_moment_clock_free. exact Hnot.
    + apply luxon_moment_clock_free. exact Hnot.
  - intros clock n.
    unfold DayjsImpl._isPeriodMomentValid, LuxonImpl._isPeriodMomentValid, dayjs_now.
    unfold bind, readClock, ret.
    cbn [hour minute year month day truthy fst andb negb].
    replace (0 <=? 1) with true by reflexivity.
    replace (1 <=? 11) with true by reflexivity.
    replace (1 <=? 29) with true by reflexivity.
    cbn [andb negb fst]. unfold daysInMonthOf.
    replace (1 =? 1) with true by reflexivity.
    destruct (isLeapYear (Dj.year (mkDayjs (clock n) 0))); split; reflexivity.
Qed.

Lemma moment_validity_depends_on_the_clock_for_29_february_only_witness :
  ~ (year (mkPeriodMoment None 1 28 None None) = None
     /\ month (mkPeriodMoment None 1 28 None None) = 1
     /\ day (mkPeriodMoment None 1 28 None None) = 29)
  /\ fst (DayjsImpl._isPeriodMomentValid (mkPeriodMoment None 1 28 None None)
            (fun _ => atUTC 2020 1 1 0 0 0 0) 0%nat)
     = fst (DayjsImpl._isPeriodMomentValid (mkPeriodMoment None 1 28 None None)
              (fun _ => atUTC 2021 1 1 0 0 0 0) 0%nat)
  /\ fst (DayjsImpl._isPeriodMomentValid (mkPeriodMoment None 1 29 None None)
            (fun _ => atUTC 2021 1 1 0 0 0 0) 0%nat)
     = Returned false.
Proof.
  assert (Hnot : ~ (year (mkPeriodMoment None 1 28 None None) = None
                    /\ month (mkPeriodMoment None 1 28 None None) = 1
                    /\ day (mkPeriodMoment None 1 28 None None) = 29)).
  { intros (_ & _ & H). discriminate H. }
  split; [exact Hnot|]. split.
  - exact (proj1 (proj1 moment_validity_depends_on_the_clock_for_29_february_only
                    (mkPeriodMoment None 1 28 None None)
                    (fun _ => atUTC 2020 1 1 0 0 0 0)
                    (fun _ => atUTC 2021 1 1 0 0 0 0) 0%nat 0%nat Hnot)).
  - rewrite (proj1 (proj2 moment_validity_depends_on_the_clock_for_29_february_only
                      (fun _ => atUTC 2021 1 1 0 0 0 0) 0%nat)).
    vm_compute. reflexivity.
Defined.

(** ** The luxon sweep *)

Lemma slotLoop_step fuel durationInMinutes eventList to startMoment :
  LuxonImpl.slotLoop (S fuel) durationInMinutes eventList to startMoment
  = if valueOf (Dj.add_minute durationInMinutes startMoment) <=? valueOf to then
      if durationInMinutes <? 0 then
        Some [mkTimeSlot (valueOf startMoment)
                (valueOf (Dj.add_minute durationInMinutes startMoment)) durationInMinutes]
      else
        option_map
          (app (if forallb (fun event =>
                              negb (LuxonImpl.engulfs startMoment
                                      (Dj.add_minute durationInMinutes startMoment) event))
                           eventList
                then [mkTimeSlot (valueOf startMoment)
                        (valueOf (Dj.add_minute durationInMinutes startMoment))
                        durationInMinutes]
                else []))
          (LuxonImpl.slotLoop fuel durationInMinutes eventList to
             (Dj.add_minute durationInMinutes startMoment))
    else Some [].
Proof.
  cbn [LuxonImpl.slotLoop].
  destruct (valueOf (Dj.add_minute durationInMinutes startMoment) <=? valueOf to);
    [|reflexivity].
  destruct (durationInMinutes <? 0); reflexivity.
Qed.

Lemma engulfsNone_slotAt eventList durationInMinutes startMoment :
  engulfsNone eventList (slotAt durationInMinutes (valueOf startMoment))
  = forallb (fun event =>
               negb (LuxonImpl.engulfs startMoment
                       (Dj.add_minute durationInMinutes startMoment) event)) eventList.
Proof.
  unfold engulfsNone.
  induction eventList as [|event l IH]; cbn [forallb]; [reflexivity|].
  rewrite IH. reflexivity.
Qed.

Lemma slotLoop_grid durationInMinutes eventList to :
  1 <= durationInMinutes ->
  forall count startMoment,
    count = slotCount durationInMinutes startMoment to ->
    LuxonImpl.slotLoop (S count) durationInMinutes eventList to startMoment
    = Some (filter (engulfsNone eventList)
                   (gridSlots durationInMinutes (valueOf startMoment) count)).
Proof.
  intro Hdur.
  assert (Hd : 0 < durationInMinutes * msPerMinute) by (unfold msPerMinute; lia).
  induction count as [|count IH]; intros startMoment Hcount; unfold slotCount in Hcount.
  - rewrite slotLoop_step. cbn [gridSlots filter].
    replace (valueOf (Dj.add_minute durationInMinutes startMoment) <=? valueOf to)
      with false; [reflexivity|].
    symmetry. apply Z.leb_gt. unfold Dj.add_minute. cbn [valueOf].
    assert (H : (valueOf to - valueOf startMoment) / (durationInMinutes * msPerMinute) <= 0)
      by lia.
    apply Z.nle_gt. intro Hle.
    assert (1 <= (valueOf to - valueOf startMoment) / (durationInMinutes * msPerMinute)).
    { apply Z.div_le_lower_bound; lia. }
    lia.
  - assert (Hq : (valueOf to - valueOf startMoment) / (durationInMinutes * msPerMinute)
                 = Z.of_nat (S count)) by lia.
    assert (Hle : valueOf startMoment + durationInMinutes * msPerMinute <= valueOf to).
    { pose proof (Z.mul_div_le (valueOf to - valueOf startMoment)
                    (durationInMinutes * msPerMinute) Hd) as H.
      rewrite Hq in H. nia. }
    rewrite slotLoop_step.
    replace (valueOf (Dj.add_minute durationInMinutes startMoment) <=? valueOf to)
      with true by (symmetry; apply Z.leb_le; unfold Dj.add_minute; cbn [valueOf]; lia).
    replace (durationInMinutes <? 0) with false by (symmetry; apply Z.ltb_ge; lia).
    rewrite (IH (Dj.add_minute durationInMinutes startMoment)).
    + cbn [gridSlots filter option_map].
      rewrite engulfsNone_slotAt.
      destruct (forallb _ eventList); reflexivity.
    + unfold slotCount, Dj.add_minute. cbn [valueOf].
      replace (valueOf to - (valueOf startMoment + durationInMinutes * msPerMinute))
        with (valueOf to - valueOf startMoment + (-1) * (durationInMinutes * msPerMinute))
        by lia.
      rewrite Z.div_add by lia. lia.
Qed.

(** X20. With a duration of a minute or more, the luxon
    [_getAvailableTimeSlotsForShift] returns the back-to-back slots that
    start at [from] and fit before [to], in order, without those that
    engulf an event: the slots are on a grid anchored at [from], whatever
    the step, the time required before or after a slot. *)
Theorem luxon_sweep_is_the_free_part_of_the_grid :
  forall (configuration : TimeSlotsFinderConfiguration)
         (eventList : list LuxonImpl.LuxonPeriod) (from to : Dayjs),
    1 <= timeSlotDuration configuration ->
    LuxonImpl._getAvailableTimeSlotsForShift
      (S (slotCount (timeSlotDuration configuration) from to))
      configuration eventList from to
    = Some (filter (engulfsNone eventList)
                   (gridSlots (timeSlotDuration configuration) (valueOf from)
                              (slotCount (timeSlotDuration configuration) from to))).
Proof.
  intros configuration eventList from to Hdur.
  unfold LuxonImpl._getAvailableTimeSlotsForShift.
  apply slotLoop_grid; [exact Hdur|reflexivity].
Qed.

Lemma luxon_sweep_is_the_free_part_of_the_grid_witness :
  LuxonImpl._getAvailableTimeSlotsForShift
    (S (slotCount (timeSlotDuration config_step) shiftFrom_15h05 shiftTo_16h_thursday))
    config_step [] shiftFrom_15h05 shiftTo_16h_thursday
  = Some (filter (engulfsNone [])
                 (gridSlots (timeSlotDuration config_step) (valueOf shiftFrom_15h05)
                            (slotCount (timeSlotDuration config_step)
                                       shiftFrom_15h05 shiftTo_16h_thursday))).
Proof.
  apply (luxon_sweep_is_the_free_part_of_the_grid config_step []
           shiftFrom_15h05 shiftTo_16h_thursday).
  vm_compute. discriminate.
Defined.

(** ** The luxon reading of the months *)

Lemma luxon_isPeriodMomentValid_returns o clock n :
  exists b n', LuxonImpl._isPeriodMomentValid o clock n = (Returned b, n').
Proof.
  unfold LuxonImpl._isPeriodMomentValid. cbv zeta. unfold dayjs_now.
  unfold bind, readClock, ret.
  destruct (hour o), (minute o),
    (negb ((match year o with None => true | Some y => 0 <? y end)
           && (0 <=? month o) && (month o <=? 11))); eauto.
Qed.

Lemma luxon_fromObject_returns o zone clock n :
  exists d,
    LuxonImpl.fromObject o zone clock n = (Returned d, S n)
    /\ (month o = 0 -> d = None).
Proof.
  unfold LuxonImpl.fromObject, bind, readClock, ret.
  destruct (zoneOffset zone) as [off|]; [|eauto].
  destruct (Z.eq_dec (month o) 0) as [E|E].
  - rewrite E. cbn [Z.leb Z.compare andb]. eauto.
  - destruct ((1 <=? month o) && (month o <=? 12) && _ && _ && _ && _ && _ && _);
      eexists; (split; [reflexivity|]); intro; contradiction.
Qed.

(** X21. The luxon implementation reads the month of a period moment as
    1-based when it builds a date from it, although the validation accepts
    the months 0 to 11.  So a period with years that starts or ends in
    month 0 is never valid; and a period with a moment in month 0 gives an
    event with an invalid end point, which no slot engulfs: it blocks
    nothing. *)
Theorem luxon_takes_month_0_for_an_invalid_month :
  (forall (period : Period) (clock : Clock) (n : nat),
      year (startAt period) <> None ->
      month (startAt period) = 0 \/ month (endAt period) = 0 ->
      fst (LuxonImpl._isUnavailablePeriodValid period clock n) = Returned false)
  /\
  (forall (period : Period) (zone : string) (clock : Clock) (n : nat),
      month (startAt period) = 0 \/ month (endAt period) = 0 ->
      exists event n',
        LuxonImpl._getUnavailablePeriodAsEvents [period] zone clock n
        = (Returned [event], n')
        /\ (LuxonImpl.lxStartAt event = None \/ LuxonImpl.lxEndAt event = None)
        /\ forall s e, LuxonImpl.engulfs s e event = false).
Proof.
  split.
  - intros period clock n Hyear Hjan.
    unfold LuxonImpl._isUnavailablePeriodValid.
    destruct (year (startAt period)) as [ys|]; [clear Hyear|congruence].
    destruct (year (endAt period)) as [ye|]; [|reflexivity].
    cbn [Bool.eqb negb]. unfold bind.
    destruct (luxon_isPeriodMomentValid_returns (startAt period) clock n)
      as (b1 & n1 & E1).
    rewrite E1. destruct b1; [|reflexivity]. cbn [negb].
    destruct (luxon_isPeriodMomentValid_returns (endAt period) clock n1)
      as (b2 & n2 & E2).
    rewrite E2. destruct b2; [|reflexivity]. cbn [negb].
    destruct (luxon_fromObject_returns (startAt period) "UTC" clock n2) as (s & Es & Hs).
    rewrite Es.
    destruct (luxon_fromObject_returns (endAt period) "UTC" clock (S n2)) as (e & Ee & He).
    rewrite Ee. unfold ret. cbn [fst]. f_equal.
    destruct Hjan as [Hjan|Hjan].
    + rewrite (Hs Hjan). reflexivity.
    + rewrite (He Hjan). unfold LuxonImpl.lt. destruct s; reflexivity.
  - intros period zone clock n Hjan.
    cbn [LuxonImpl._getUnavailablePeriodAsEvents]. unfold bind.
    destruct (luxon_fromObject_returns (startAt period) zone clock n) as (s & Es & Hs).
    rewrite Es.
    destruct (luxon_fromObject_returns (endAt period) zone clock (S n)) as (e & Ee & He).
    rewrite Ee. unfold ret.
    exists (LuxonImpl.mkLuxonPeriod s e), (S (S n)).
    split; [reflexivity|]. cbn [LuxonImpl.lxStartAt LuxonImpl.lxEndAt].
    destruct Hjan as [Hjan|Hjan].
    + rewrite (Hs Hjan). split; [left; reflexivity|]. intros; reflexivity.
    + rewrite (He Hjan). split; [right; reflexivity|].
      intros. unfold LuxonImpl.engulfs. cbn [LuxonImpl.lxStartAt LuxonImpl.lxEndAt].
      destruct s; reflexivity.
Qed.

Lemma luxon_takes_month_0_for_an_invalid_month_witness :
  fst (LuxonImpl._isUnavailablePeriodValid period_jan_jun_2020
         (frozenAt noon_2020_10_14) 0%nat) = Returned false
  /\ exists event n',
       LuxonImpl._getUnavailablePeriodAsEvents [period_jan1_jan5] "UTC"
         (frozenAt noon_2020_10_14) 0%nat
       = (Returned [event], n')
       /\ (LuxonImpl.lxStartAt event = None \/ LuxonImpl.lxEndAt event = None)
       /\ forall s e, LuxonImpl.engulfs s e event = false.
Proof.
  split.
  - apply (proj1 luxon_takes_month_0_for_an_invalid_month period_jan_jun_2020
             (frozenAt noon_2020_10_14) 0%nat).
    + discriminate.
    + left. reflexivity.
  - apply (proj2 luxon_takes_month_0_for_an_invalid_month period_jan1_jan5 "UTC"
             (frozenAt noon_2020_10_14) 0%nat).
    left. reflexivity.
Defined.

(** ** The luxon search as a whole *)

Lemma luxon_slotLoop_Forall durationInMinutes eventList to :
  forall fuel startMoment slots,
    LuxonImpl.slotLoop fuel durationInMinutes eventList to startMoment = Some slots ->
    Forall (fun s =>
              valueOf startMoment <= slotStartAt s
              /\ slotEndAt s <= valueOf to
              /\ slotEndAt s = slotStartAt s + durationInMinutes * msPerMinute
              /\ duration s = durationInMinutes) slots.
Proof.
  induction fuel as [|fuel IH]; intros startMoment slots H; [discriminate|].
  rewrite slotLoop_step in H.
  destruct (valueOf (Dj.add_minute durationInMinutes startMoment) <=? valueOf to) eqn:Ele;
    [|inversion H; constructor].
  apply Z.leb_le in Ele. unfold Dj.add_minute in Ele. cbn [valueOf] in Ele.
  assert (Hslot : forall s,
             s = mkTimeSlot (valueOf startMoment)
                   (valueOf (Dj.add_minute durationInMinutes startMoment))
                   durationInMinutes ->
             valueOf startMoment <= slotStartAt s
             /\ slotEndAt s <= valueOf to
             /\ slotEndAt s = slotStartAt s + durationInMinutes * msPerMinute
             /\ duration s = durationInMinutes).
  { intros s ->. unfold Dj.add_minute. cbn [slotStartAt slotEndAt duration valueOf].
    repeat split; lia. }
  destruct (durationInMinutes <? 0) eqn:Eneg.
  - inversion H. constructor; [apply Hslot; reflexivity|constructor].
  - apply Z.ltb_ge in Eneg.
    destruct (LuxonImpl.slotLoop fuel durationInMinutes eventList to
                (Dj.add_minute durationInMinutes startMoment)) as [rest|] eqn:Er;
      [|discriminate].
    cbn [option_map] in H. inversion H; subst slots; clear H.
    apply Forall_app. split.
    + destruct (forallb _ eventList); [|constructor].
      constructor; [apply Hslot; reflexivity|constructor].
    + specialize (IH _ _ Er). eapply Forall_impl; [|exact IH].
      intros s (H1 & H2). unfold Dj.add_minute in H1. cbn [valueOf] in H1.
      split; [unfold msPerMinute in *; lia|exact H2].
Qed.

Section LuxonWholeSearch.

Variable usedConfig : TimeSlotsFinderConfiguration.
Variable eventList : list LuxonImpl.LuxonPeriod.
Variable P : TimeSlot -> Prop.
Variables firstFromMoment lastToMoment : Dayjs.

Hypothesis shift_slots :
  forall fuel from to slots,
    valueOf firstFromMoment <= valueOf from -> valueOf to <= valueOf lastToMoment ->
    LuxonImpl._getAvailableTimeSlotsForShift fuel usedConfig eventList from to
    = Some slots ->
    Forall P slots.

Lemma luxon_forEachShift_Forall fuel fromMoment :
  forall l clock n slots n',
    LuxonImpl.forEachShift fuel usedConfig eventList firstFromMoment lastToMoment
                           fromMoment l clock n = (Returned slots, n') ->
    Forall P slots.
Proof.
  induction l as [|shift l IH]; intros clock n slots n' H;
    cbn [LuxonImpl.forEachShift] in H.
  - inversion H. constructor.
  - apply bind_returned in H. destruct H as (moments & n1 & _ & H). cbv zeta in H.
    apply bind_returned in H. destruct H as (here & n2 & Hhere & H).
    apply bind_returned in H. destruct H as (rest & n3 & Hrest & H).
    inversion H; subst slots. apply Forall_app. split; [|eapply IH; exact Hrest].
    destruct (valueOf (Dj.min lastToMoment (snd moments))
              <=? valueOf (Dj.max firstFromMoment (fst moments)));
      [inversion Hhere; constructor|].
    destruct (LuxonImpl._getAvailableTimeSlotsForShift fuel usedConfig eventList
                (Dj.max firstFromMoment (fst moments))
                (Dj.min lastToMoment (snd moments))) as [sl|] eqn:Es;
      [|discriminate Hhere].
    inversion Hhere; subst here.
    refine (shift_slots fuel _ _ _ _ _ Es); [rewrite max_value; lia|rewrite min_value; lia].
Qed.

Lemma luxon_dayLoop_Forall shiftFuel :
  forall fuel fromMoment clock n slots n',
    LuxonImpl.dayLoop fuel usedConfig eventList firstFromMoment lastToMoment
                      fromMoment shiftFuel clock n = (Returned slots, n') ->
    Forall P slots.
Proof.
  induction fuel as [|fuel IH]; intros fromMoment clock n slots n' H; [discriminate|].
  cbn [LuxonImpl.dayLoop] in H.
  destruct (valueOf fromMoment <? valueOf lastToMoment); [|inversion H; constructor].
  apply bind_returned in H. destruct H as (today & n1 & Htoday & H).
  apply bind_returned in H. destruct H as (rest & n2 & Hrest & H).
  inversion H; subst slots. apply Forall_app. split; [|eapply IH; exact Hrest].
  destruct (LuxonImpl._getWeekDayConfigForMoment usedConfig fromMoment)
    as [weekDayConfig|].
  - eapply luxon_forEachShift_Forall; exact Htoday.
  - inversion Htoday. constructor.
Qed.

End LuxonWholeSearch.

Lemma luxon_checkSearchParameters_returned c from to clock n usedConfig n' :
  LuxonImpl._checkSearchParameters c from to clock n = (Returned usedConfig, n') ->
  usedConfig = mergedConfiguration c.
Proof.
  unfold LuxonImpl._checkSearchParameters. intro H.
  apply bind_returned in H. destruct H as (valid & n1 & _ & H).
  destruct (negb valid); [discriminate|].
  destruct from as [| |f]; try discriminate; destruct to as [| |t]; try discriminate.
  destruct (LuxonImpl.ge _ _); [discriminate|]. inversion H. reflexivity.
Qed.

Lemma luxon_computeBoundaries_values f t c clock n firstFrom lastTo n' :
  LuxonImpl._computeBoundaries (LuxonImpl.ofJsDate (DateAt f)) (LuxonImpl.ofJsDate (DateAt t))
    c clock n = (Returned (Some firstFrom, Some lastTo), n') ->
  f <= valueOf firstFrom /\ valueOf lastTo <= t.
Proof.
  unfold LuxonImpl._computeBoundaries, LuxonImpl.local, dayjs_now.
  unfold bind, readClock, ret. cbn [LuxonImpl.ofJsDate LuxonImpl.setZone].
  destruct (zoneOffset (timeZone c)) as [off|].
  - destruct (truthy (maxDaysBeforeLastSlot c)); cbn [option_map LuxonImpl.max
      LuxonImpl.min]; intro H; inversion H; subst;
      rewrite max_value, min_value || rewrite max_value; cbn [valueOf]; lia.
  - destruct (truthy (maxDaysBeforeLastSlot c)); cbn [option_map LuxonImpl.max
      LuxonImpl.min]; intro H; discriminate H.
Qed.

(** X22. In a zone of the zone table (all of fixed offset), for a window
    that starts in 1970 or later and a duration that is a whole number of
    minutes and not negative, every slot that the luxon
    [getAvailableTimeSlotsInCalendar] returns lies within the search
    window, from [from] to [to], and has the configured duration. *)
Theorem luxon_returned_slots_lie_within_the_search_window :
  forall (fuel : nat) (params : TimeSlotsFinderParameters) (clock : Clock)
         (slots : list TimeSlot) (off f t : Z),
    zoneOffset (timeZone (configuration params)) = Some off ->
    0 <= timeSlotDuration (configuration params) ->
    from params = DateAt f -> 0 <= f -> to params = DateAt t ->
    run (LuxonImpl.getAvailableTimeSlotsInCalendar fuel params) clock = Returned slots ->
    Forall (fun s =>
              f <= slotStartAt s /\ slotEndAt s <= t
              /\ slotEndAt s
                 = slotStartAt s + timeSlotDuration (configuration params) * msPerMinute
              /\ duration s = timeSlotDuration (configuration params)) slots.
Proof.
  intros fuel params clock slots off f t _ Hdur Hf _ Ht H. unfold run in H.
  destruct (LuxonImpl.getAvailableTimeSlotsInCalendar fuel params clock 0%nat)
    as [o n'] eqn:E. cbn [fst] in H. subst o.
  unfold LuxonImpl.getAvailableTimeSlotsInCalendar in E.
  apply bind_returned in E. destruct E as (usedConfig & n1 & Hcfg & E).
  apply bind_returned in E. destruct E as (events & n2 & _ & E).
  apply bind_returned in E. destruct E as ([firstFrom lastTo] & n3 & Hb & E).
  apply luxon_checkSearchParameters_returned in Hcfg. subst usedConfig.
  rewrite Hf, Ht in Hb.
  destruct firstFrom as [firstFrom|]; [|inversion E; constructor].
  destruct lastTo as [lastTo|]; [|inversion E; constructor].
  apply luxon_computeBoundaries_values in Hb. destruct Hb as [Hfirst Hlast].
  refine (luxon_dayLoop_Forall (mergedConfiguration (configuration params)) events _
            firstFrom lastTo _ _ _ _ _ _ _ _ E).
  intros fuel' from' to' sl Hfrom Hto Hsl.
  unfold LuxonImpl._getAvailableTimeSlotsForShift in Hsl.
  apply luxon_slotLoop_Forall in Hsl.
  eapply Forall_impl; [|exact Hsl].
  cbn [mergedConfiguration timeSlotDuration]. intros s (H1 & H2 & H3 & H4).
  repeat split; try assumption; lia.
Qed.

Lemma luxon_returned_slots_lie_within_the_search_window_witness :
  exists slots,
    run (LuxonImpl.getAvailableTimeSlotsInCalendar 50 params_step) clock_step
      = Returned slots
    /\ Forall (fun s =>
                atUTC 2020 10 15 15 0 0 0 <= slotStartAt s
                /\ slotEndAt s <= atUTC 2020 10 15 16 0 0 0
                /\ slotEndAt s
                   = slotStartAt s
                     + timeSlotDuration (configuration params_step) * msPerMinute
                /\ duration s = timeSlotDuration (configuration params_step)) slots.
Proof.
  eexists. split; [vm_compute; reflexivity|].
  apply (luxon_returned_slots_lie_within_the_search_window 50 params_step clock_step _ 0);
    [reflexivity|vm_compute; discriminate|reflexivity|vm_compute; discriminate
    |reflexivity|].
  vm_compute. reflexivity.
Defined.

(** ** Readings of the clock in a search that returns *)

Lemma takes_ret {A} (a : A) : takes 0 (ret a).
Proof. intros clock n a' n' H. inversion H. lia. Qed.

Lemma takes_throw {A} k e : takes k (@throw A e).
Proof. intros clock n a n' H. discriminate H. Qed.

Lemma takes_dayjs_now : takes 1 dayjs_now.
Proof. intros clock n a n' H. inversion H. lia. Qed.

Lemma takes_bind {A B} j k (c : M A) (f : A -> M B) :
  takes j c -> (forall a, takes k (f a)) -> takes (j + k) (bind c f).
Proof.
  intros Hc Hf clock n b n' H. apply bind_returned in H.
  destruct H as (a & n1 & H1 & H2).
  apply Hc in H1. apply Hf in H2. lia.
Qed.

Lemma takes_tz zone d : takes 0 (tz zone d).
Proof.
  unfold tz. destruct (zoneOffset zone); [apply takes_ret|apply takes_throw].
Qed.

Lemma takes_checkShifts l index : takes 0 (checkShifts l index).
Proof.
  induction l as [|shift l IH]; cbn [checkShifts]; [apply takes_ret|].
  destruct (negb (_isShiftValid shift)); [apply takes_throw|exact IH].
Qed.

Lemma takes_checkAvailablePeriods l : forall i, takes 0 (checkAvailablePeriods l i).
Proof.
  induction l as [|p l IH]; intro i; cbn [checkAvailablePeriods]; [apply takes_ret|].
  apply (takes_bind 0 0); [|intros _; apply IH].
  unfold _isAvailablePeriodValid.
  destruct (_ || _); [apply takes_throw|].
  apply (takes_bind 0 0); [apply takes_checkShifts|intros _].
  destruct (negb _); [apply takes_throw|apply takes_ret].
Qed.

Lemma takes_checkTimeZone zone : takes 1 (DayjsImpl._checkTimeZone zone).
Proof.
  unfold DayjsImpl._checkTimeZone.
  destruct (String.eqb zone EmptyString); [apply takes_throw|].
  intros clock n a n'. unfold tryCatch, bind, dayjs_now, readClock, tz, ret, throw.
  destruct (zoneOffset zone); intro H; inversion H. lia.
Qed.

Lemma takes_checkPrimitiveValue c : takes 1 (DayjsImpl._checkPrimitiveValue c).
Proof.
  unfold DayjsImpl._checkPrimitiveValue.
  repeat match goal with
         | |- takes _ (if ?b then throw _ else _) => destruct b; [apply takes_throw|]
         end.
  apply (takes_bind 1 0); [apply takes_checkTimeZone|intros _].
  cbv zeta. destruct (_ && _ && _); [apply takes_throw|apply takes_ret].
Qed.

(** A moment is accepted after one reading. *)
Lemma isPeriodMomentValid_accepts o clock n n' :
  DayjsImpl._isPeriodMomentValid o clock n = (Returned true, n') -> n' = S n.
Proof.
  unfold DayjsImpl._isPeriodMomentValid.
  assert (Hmain : forall c : M bool,
             c = (let isYearAndMonthValid :=
                    (match year o with None => true | Some y => 0 <? y end)
                    && (0 <=? month o) && (month o <=? 11) in
                  if negb isYearAndMonthValid then ret false
                  else
                    now <- dayjs_now ;;
                    let y := if truthy (year o) then orElse (year o) 0 else Dj.year now in
                    ret ((1 <=? day o) && (day o <=? daysInMonthOf y (month o))
                         && (match hour o with
                             | None => true | Some h => (0 <=? h) && (h <=? 23) end)
                         && (match minute o with
                             | None => true | Some m => (0 <=? m) && (m <=? 59) end))) ->
             c clock n = (Returned true, n') -> n' = S n).
  { intros c ->. cbv zeta.
    destruct (negb _); [unfold ret; discriminate|].
    unfold bind, dayjs_now, readClock, ret. intro H. inversion H. reflexivity. }
  destruct (hour o), (minute o); try (apply Hmain; reflexivity).
  unfold ret. discriminate.
Qed.

Lemma takes_fromObject o : takes 1 (DayjsImpl.dayjs_fromObject o).
Proof.
  intros clock n a n'.
  unfold DayjsImpl.dayjs_fromObject, bind, dayjs_now, readClock, ret.
  intro H. inversion H. lia.
Qed.

(** A period is accepted after the readings of its validation. *)
Lemma isUnavailablePeriodValid_accepts p clock n n' :
  DayjsImpl._isUnavailablePeriodValid p clock n = (Returned true, n') ->
  n' = (n + validationReadings p)%nat.
Proof.
  unfold DayjsImpl._isUnavailablePeriodValid, validationReadings.
  destruct (negb (Bool.eqb _ _)); [unfold ret; discriminate|].
  unfold bind.
  destruct (DayjsImpl._isPeriodMomentValid (startAt p) clock n) as [[[|]|e|] n1] eqn:E1;
    cbn [negb]; try (unfold ret; discriminate).
  apply isPeriodMomentValid_accepts in E1.
  destruct (DayjsImpl._isPeriodMomentValid (endAt p) clock n1) as [[[|]|e|] n2] eqn:E2;
    cbn [negb]; try (unfold ret; discriminate).
  apply isPeriodMomentValid_accepts in E2.
  destruct (year (startAt p)) as [y|].
  - destruct (DayjsImpl.dayjs_fromObject (startAt p) clock n2) as [[s|e|] n3] eqn:E3;
      try discriminate.
    apply takes_fromObject in E3.
    destruct (DayjsImpl.dayjs_fromObject (endAt p) clock n3) as [[e'|e|] n4] eqn:E4;
      try discriminate.
    apply takes_fromObject in E4.
    unfold ret. intro H. inversion H. cbv iota. lia.
  - unfold ret. intro H. inversion H. cbv iota. lia.
Qed.

Lemma takes_checkUnavailablePeriods l :
  forall i, takes (list_sum (map validationReadings l))
                  (DayjsImpl.checkUnavailablePeriods l i).
Proof.
  induction l as [|p l IH]; intro i; cbn [DayjsImpl.checkUnavailablePeriods map];
    [apply takes_ret|].
  change (list_sum (validationReadings p :: map validationReadings l))
    with (validationReadings p + list_sum (map validationReadings l))%nat.
  intros clock n a n'. unfold bind.
  destruct (DayjsImpl._isUnavailablePeriodValid p clock n) as [[[|]|e|] n1] eqn:E1;
    cbn [negb]; try discriminate.
  apply isUnavailablePeriodValid_accepts in E1.
  intro H. apply IH in H. lia.
Qed.

Lemma takes_checkSearchParameters c from to :
  takes (1 + list_sum (map validationReadings
                           (match unavailablePeriods c with Some l => l | None => [] end)))
        (DayjsImpl._checkSearchParameters c from to).
Proof.
  unfold DayjsImpl._checkSearchParameters.
  destruct (_ || _ || _); [apply takes_throw|].
  cbv zeta.
  replace (1 + list_sum (map validationReadings
                 (match unavailablePeriods c with Some l => l | None => [] end)))%nat
    with ((1 + (0 + (list_sum (map validationReadings
                 (match unavailablePeriods c with Some l => l | None => [] end)) + 0)))
          + 0)%nat by lia.
  apply takes_bind; [|intros _; apply takes_ret].
  unfold DayjsImpl.isConfigurationValid.
  apply takes_bind; [apply takes_checkPrimitiveValue|intros _].
  apply takes_bind; [apply takes_checkAvailablePeriods|intros _].
  apply takes_bind; [|intros _; apply takes_ret].
  cbn [unavailablePeriods].
  destruct (unavailablePeriods c) as [l|];
    [apply takes_checkUnavailablePeriods|apply takes_ret].
Qed.

Lemma takes_unavailablePeriodAsEvent p zone :
  takes 4 (DayjsImpl.unavailablePeriodAsEvent p zone).
Proof.
  intros clock n a n'.
  unfold DayjsImpl.unavailablePeriodAsEvent, DayjsImpl.resolveUnavailablePeriod,
    DayjsImpl.dayjs_tzOfObject, DayjsImpl.dayjs_fromObject, bind, dayjs_now, readClock, ret,
    throw.
  destruct (zoneOffset zone); intro H; inversion H. lia.
Qed.

Lemma takes_getUnavailablePeriodAsEvents l zone :
  takes (4 * List.length l) (DayjsImpl._getUnavailablePeriodAsEvents l zone).
Proof.
  induction l as [|p l IH]; cbn [DayjsImpl._getUnavailablePeriodAsEvents];
    [apply takes_ret|].
  replace (4 * List.length (p :: l))%nat with (4 + (4 * List.length l + 0))%nat
    by (cbn [List.length]; lia).
  apply takes_bind; [apply takes_unavailablePeriodAsEvent|intro e].
  apply takes_bind; [exact IH|intros es; apply takes_ret].
Qed.

Lemma takes_ofDate date zone : takes 0 (DayjsImpl.dayjs_ofDate date zone).
Proof.
  unfold DayjsImpl.dayjs_ofDate.
  destruct date; apply (takes_bind 0 0); try apply takes_tz; intros; apply takes_ret.
Qed.

Lemma takes_computeBoundaries from to c :
  takes ((if truthy (maxDaysBeforeLastSlot c) then 1 else 0) + 1)
        (DayjsImpl._computeBoundaries from to c).
Proof.
  unfold DayjsImpl._computeBoundaries.
  apply takes_bind.
  - destruct (truthy (maxDaysBeforeLastSlot c)); [|apply takes_ret].
    apply (takes_bind 1 0); [apply takes_dayjs_now|intro now].
    apply (takes_bind 0 0); [apply takes_tz|intros; apply takes_ret].
  - intro limit.
    apply (takes_bind 0 1); [apply takes_ofDate|intro f].
    apply (takes_bind 1 0); [apply takes_dayjs_now|intro now].
    apply (takes_bind 0 0); [apply takes_tz|intro now'].
    cbv zeta.
    apply (takes_bind 0 0); [apply takes_ofDate|intros; apply takes_ret].
Qed.

Lemma list_sum_periodReadings l :
  list_sum (map periodReadings l)
  = (list_sum (map validationReadings l) + 4 * List.length l)%nat.
Proof.
  induction l as [|p l IH]; [reflexivity|].
  cbn [map List.length].
  change (list_sum (periodReadings p :: map periodReadings l))
    with (periodReadings p + list_sum (map periodReadings l))%nat.
  change (list_sum (validationReadings p :: map validationReadings l))
    with (validationReadings p + list_sum (map validationReadings l))%nat.
  unfold periodReadings at 1. lia.
Qed.

(** X24. In a zone of the zone table (all of fixed offset), a call of the
    dayjs [getAvailableTimeSlotsInCalendar] that returns has read the clock
    once in the time-zone check, once in the boundary computation, once
    more there when [maxDaysBeforeLastSlot] is set (and not 0), and six
    times for each unavailable period, or eight when the period has
    years; whatever the window and the slots. *)
Theorem returning_search_reading_count :
  forall (fuel : nat) (params : TimeSlotsFinderParameters) (clock : Clock)
         (slots : list TimeSlot) (off : Z),
    zoneOffset (timeZone (configuration params)) = Some off ->
    run (DayjsImpl.getAvailableTimeSlotsInCalendar fuel params) clock = Returned slots ->
    readings (DayjsImpl.getAvailableTimeSlotsInCalendar fuel params) clock
    = (2 + (if truthy (maxDaysBeforeLastSlot (configuration params)) then 1 else 0)
       + list_sum (map periodReadings
                       (match unavailablePeriods (configuration params) with
                        | Some l => l | None => [] end)))%nat.
Proof.
  intros fuel params clock slots off _ H. unfold run, readings in *.
  destruct (DayjsImpl.getAvailableTimeSlotsInCalendar fuel params clock 0%nat)
    as [o n'] eqn:E. cbn [fst snd] in *. subst o.
  unfold DayjsImpl.getAvailableTimeSlotsInCalendar in E.
  apply bind_returned in E. destruct E as (usedConfig & n1 & Hcfg & E).
  apply bind_returned in E. destruct E as (events & n2 & Hev & E).
  apply bind_returned in E. destruct E as (boundaries & n3 & Hb & E).
  pose proof (checkSearchParameters_returned _ _ _ _ _ _ _ Hcfg)
    as (_ & _ & _ & Hun & _).
  assert (Hmax : maxDaysBeforeLastSlot usedConfig
                 = maxDaysBeforeLastSlot (configuration params)).
  { apply checkSearchParameters_valid in Hcfg. destruct Hcfg as [-> _]. reflexivity. }
  apply takes_checkSearchParameters in Hcfg.
  apply takes_getUnavailablePeriodAsEvents in Hev.
  apply takes_computeBoundaries in Hb.
  rewrite Hun in Hev. rewrite Hmax in Hb.
  assert (Hn : n' = n3).
  { destruct boundaries as [[firstFrom|] [lastTo|]]; try (inversion E; reflexivity).
    destruct (DayjsImpl.dayLoop _ _ _ _ _ _ _); inversion E. reflexivity. }
  rewrite list_sum_periodReadings. lia.
Qed.

Lemma returning_search_reading_count_witness :
  readings (DayjsImpl.getAvailableTimeSlotsInCalendar 50 params_blocked_horizon)
           (frozenAt noon_2020_10_14)
  = (2 + 1 + (8 + (6 + 0)))%nat.
Proof.
  eapply (returning_search_reading_count 50 params_blocked_horizon
            (frozenAt noon_2020_10_14) _ 0).
  - reflexivity.
  - vm_compute. reflexivity.
Defined.

